(** * Vinted price scraper: a shallow embedding of [vinted_scraper.py]

    The Python functions of the scraper are transcribed as Rocq functions:
    - Python [str] values are sequences of Unicode code points;
    - Python [float] values are IEEE-754 binary64 numbers, written with the
      Standard Library's [spec_float] and its correctly rounded operations;
    - calls into Selenium, [input] and [print] are effects: a call can raise,
      and every call and every printed line is recorded in a trace; what a
      write to the console does is given with the run, like the lines typed
      and the behaviour of the browser. *)

From Stdlib Require Import ZArith NArith PArith List Bool Lia String Ascii.
From Stdlib Require Import Floats.
Import ListNotations.

(** A decimal literal of a float stands for the nearest binary64 number. *)
Set Warnings "-inexact-float".

(* ================================================================== *)
(** ** Python strings *)
(* ================================================================== *)

Module PyStr.

(** A character is a Unicode code point. *)
Definition char := N.
Definition str := list char.

Local Open Scope N_scope.

(** ASCII literals of the source; [lit] reads one code point per byte. *)
Definition lit (s : string) : str := List.map N_of_ascii (list_ascii_of_string s).

Definition POUND : char := 163.      (* U+00A3, the currency symbol *)
Definition SPACE : char := 32.
Definition PLUS : char := 43.
Definition MINUS : char := 45.
Definition DOT : char := 46.
Definition UNDERSCORE : char := 95.
Definition QUESTION : char := 63.

Definition between (lo hi c : char) : bool := (lo <=? c) && (c <=? hi).

(** [str.isspace] on one character: the code points that [str.strip()]
    removes (Unicode 14). *)
Definition isspace (c : char) : bool :=
  between 9 13 c || between 28 32 c || (c =? 133) || (c =? 160) || (c =? 5760)
  || between 8192 8202 c || (c =? 8232) || (c =? 8233) || (c =? 8239)
  || (c =? 8287) || (c =? 12288).

(** First code point of every run of ten decimal digits (general category
    Nd, Unicode 14): the digit of value [d] of a run starting at [b] is
    [b + d]. *)
Definition decimal_runs : list char :=
  [48; 1632; 1776; 1984; 2406; 2534; 2662; 2790; 2918; 3046; 3174; 3302; 3430;
   3558; 3664; 3792; 3872; 4160; 4240; 6112; 6160; 6470; 6608; 6784; 6800;
   6992; 7088; 7232; 7248; 42528; 43216; 43264; 43472; 43504; 43600; 44016;
   65296; 66720; 68912; 69734; 69872; 69942; 70096; 70384; 70736; 70864;
   71248; 71360; 71472; 71904; 72016; 72784; 73040; 73120; 92768; 92864;
   93008; 120782; 120792; 120802; 120812; 120822; 123200; 123632; 125264;
   130032].

Fixpoint decimal_in (runs : list char) (c : char) : option N :=
  match runs with
  | [] => None
  | b :: runs' => if between b (b + 9) c then Some (c - b) else decimal_in runs' c
  end.

(** The decimal value of a character, when it is a decimal digit. *)
Definition to_decimal (c : char) : option N := decimal_in decimal_runs c.

(** [str.isdecimal] on one character; this is what [\d] matches. *)
Definition isdecimal (c : char) : bool :=
  match to_decimal c with Some _ => true | None => false end.

(** [takewhile] and [dropwhile] of a character class. *)
Fixpoint takewhile (p : char -> bool) (s : str) : str :=
  match s with
  | c :: s' => if p c then c :: takewhile p s' else []
  | [] => []
  end.

Fixpoint dropwhile (p : char -> bool) (s : str) : str :=
  match s with
  | c :: s' => if p c then dropwhile p s' else s
  | [] => []
  end.

(** Removal of the characters of a class at the left end, the right end and
    both ends. *)
Definition trim_left (p : char -> bool) (s : str) : str := dropwhile p s.
Definition trim_right (p : char -> bool) (s : str) : str := rev (dropwhile p (rev s)).
Definition trim (p : char -> bool) (s : str) : str := trim_right p (trim_left p s).

(** [s.lstrip()], [s.rstrip()], [s.strip()]. *)
Definition lstrip (s : str) : str := trim_left isspace s.
Definition rstrip (s : str) : str := trim_right isspace s.
Definition strip (s : str) : str := trim isspace s.

Definition eqb_str (a b : str) : bool :=
  if list_eq_dec N.eq_dec a b then true else false.

Definition is_empty (s : str) : bool :=
  match s with [] => true | _ => false end.

(** [not xs] for a list [xs]. *)
Definition is_empty_list {A} (xs : list A) : bool :=
  match xs with [] => true | _ => false end.

(** [s.startswith(p)]. *)
Fixpoint startswith (p s : str) : bool :=
  match p, s with
  | [], _ => true
  | _ :: _, [] => false
  | a :: p', b :: s' => (a =? b) && startswith p' s'
  end.

(** [old in s]. *)
Fixpoint contains (old s : str) : bool :=
  startswith old s || match s with [] => false | _ :: s' => contains old s' end.

(** [s.replace(old, new)]: the occurrences of [old] are taken from left to
    right and do not overlap; [skip] counts the characters of the current
    occurrence that are still to be passed over. *)
Fixpoint replace_from (old new : str) (skip : nat) (s : str) : str :=
  match s with
  | [] => []
  | c :: s' =>
      match skip with
      | S k => replace_from old new k s'
      | O =>
          if startswith old s
          then new ++ replace_from old new (Nat.pred (List.length old)) s'
          else c :: replace_from old new 0 s'
      end
  end.

Definition replace (old new s : str) : str :=
  match old with
  | [] => new ++ flat_map (fun c => c :: new) s
  | _ :: _ => replace_from old new 0 s
  end.

End PyStr.

(* ================================================================== *)
(** ** The [re] module: backtracking search *)
(* ================================================================== *)

Module Re.
Import PyStr.

(** The operators the scraper's pattern uses; all quantifiers are greedy. *)
Inductive regex : Type :=
| Class (p : char -> bool)      (* one character of a class: [\d], [\.] *)
| Cat (r1 r2 : regex)           (* r1 r2 *)
| Opt (r : regex)               (* r? *)
| Star (r : regex)              (* r* *)
| Plus (r : regex).             (* r+ *)

Definition matcher := str -> (str -> option str) -> option str.

(** Greedy iteration of [m]: one more round first, the continuation [k]
    when that fails.  A round that consumes nothing stops the iteration. *)
Fixpoint iterate (m : matcher) (k : str -> option str) (fuel : nat) (s : str)
  : option str :=
  match fuel with
  | O => k s
  | S fuel' =>
      match m s (fun s' =>
                   if (List.length s' <? List.length s)%nat
                   then iterate m k fuel' s' else None) with
      | Some rest => Some rest
      | None => k s
      end
  end.

(** [run r s k]: match [r] at the start of [s] and hand what is left to the
    continuation [k]; alternatives are tried in the order of the engine and
    the first one whose continuation succeeds wins. *)
Fixpoint run (r : regex) : matcher :=
  fun s k =>
    match r with
    | Class p =>
        match s with
        | c :: s' => if p c then k s' else None
        | [] => None
        end
    | Cat r1 r2 => run r1 s (fun s1 => run r2 s1 k)
    | Opt r1 =>
        match run r1 s k with
        | Some rest => Some rest
        | None => k s
        end
    | Star r1 => iterate (run r1) k (List.length s) s
    | Plus r1 => run r1 s (fun s1 => iterate (run r1) k (List.length s1) s1)
    end.

(** [re.match]: the text matched at the start of [s]. *)
Definition match_here (r : regex) (s : str) : option str :=
  match run r s (fun rest => Some rest) with
  | Some rest => Some (firstn (List.length s - List.length rest) s)
  | None => None
  end.

(** [re.search(r, s).group(0)]: the match at the leftmost position that has
    one; [None] when no position has. *)
Fixpoint search (r : regex) (s : str) : option str :=
  match match_here r s with
  | Some m => Some m
  | None =>
      match s with
      | [] => None
      | _ :: s' => search r s'
      end
  end.

End Re.

(* ================================================================== *)
(** ** Python floats *)
(* ================================================================== *)

Module PyFloat.
Import PyStr.

(** binary64 *)
Definition prec : Z := 53.
Definition emax : Z := 1024.

(** The exponent of the smallest subnormal: a mantissa below it is shifted
    out. *)
Definition EMIN : Z := -1074.

Definition float := spec_float.

Definition zero : float := S754_zero false.

(** [x + y], and IEEE division (Python's [/] guards it, see [truediv]). *)
Definition add (x y : float) : float := SFadd prec emax x y.
Definition div (x y : float) : float := SFdiv prec emax x y.

(** [0.0 <= x]. *)
Definition nonneg (x : float) : bool := SFleb zero x.

(** The binary64 number nearest to [m * 10^e] (ties to even), with the sign
    [neg]: what the correctly rounded decimal conversion of [float] yields.
    Integers are rounded directly, fractions as a quotient of integers. *)
Definition of_decimal (neg : bool) (m : N) (e : Z) : float :=
  match m with
  | N0 => S754_zero neg
  | Npos p =>
      if (0 <=? e)%Z
      then binary_normalize prec emax (cond_Zopp neg (Zpos p * 10 ^ e)) 0 neg
      else SFdiv prec emax (S754_finite neg p 0)
                           (S754_finite false (Z.to_pos (10 ^ (- e))) 0)
  end.

(** [float(n)] for an [int] [n]. *)
Definition of_int (n : Z) : float := binary_normalize prec emax n 0 false.

Local Open Scope N_scope.

Definition ascii_digit (c : char) : bool := between 48 57 c.

(** C's [isspace] in the "C" locale ([Py_ISSPACE]). *)
Definition ascii_space (c : char) : bool := between 9 13 c || (c =? 32).

(** [float] first rewrites its argument to ASCII: characters below 127 are
    kept, other white space becomes a space, other decimal digits become the
    ASCII digit of the same value, and the text is cut at the first character
    of any other kind, which is replaced by a question mark. *)
Fixpoint to_ascii (s : str) : str :=
  match s with
  | [] => []
  | c :: s' =>
      if c <? 127 then c :: to_ascii s'
      else if isspace c then SPACE :: to_ascii s'
      else match to_decimal c with
           | Some d => (48 + d) :: to_ascii s'
           | None => [QUESTION]
           end
  end.

(** Underscores are dropped; each must stand between two digits.  [prev] is
    the character before [s] (0 at the start). *)
Fixpoint drop_underscores (prev : char) (s : str) : option str :=
  match s with
  | [] => if prev =? UNDERSCORE then None else Some []
  | c :: s' =>
      if c =? UNDERSCORE
      then if ascii_digit prev then drop_underscores c s' else None
      else if (prev =? UNDERSCORE) && negb (ascii_digit c) then None
      else option_map (cons c) (drop_underscores c s')
  end.

(** The number written by a string of ASCII digits. *)
Definition digits_value (ds : str) : N :=
  fold_left (fun acc c => 10 * acc + (c - 48)) ds 0.

Definition lower (c : char) : char := if between 65 90 c then c + 32 else c.

Definition parse_sign (s : str) : bool * str :=
  match s with
  | c :: s' =>
      if c =? MINUS then (true, s')
      else if c =? PLUS then (false, s')
      else (false, s)
  | [] => (false, s)
  end.

(** What follows the mantissa: nothing, or [e] or [E], an optional sign and
    one digit at least. *)
Definition parse_exponent (s : str) : option Z :=
  match s with
  | [] => Some 0%Z
  | c :: s' =>
      if (c =? 101) || (c =? 69) then
        let (neg, ds) := parse_sign s' in
        if is_empty ds || negb (forallb ascii_digit ds) then None
        else Some (cond_Zopp neg (Z.of_N (digits_value ds)))
      else None
  end.

(** The grammar of [float] on the ASCII text: a sign, then [inf],
    [infinity] or [nan] in any case, or digits with an optional point (one
    digit at least) and an optional exponent. *)
Definition parse_ascii (s : str) : option float :=
  let (neg, body) := parse_sign s in
  let low := List.map lower body in
  if eqb_str low (lit "inf") || eqb_str low (lit "infinity")
  then Some (S754_infinity neg)
  else if eqb_str low (lit "nan") then Some S754_nan
  else
    let ip := takewhile ascii_digit body in
    let r1 := dropwhile ascii_digit body in
    let (fp, r2) :=
      match r1 with
      | c :: r =>
          if c =? DOT then (takewhile ascii_digit r, dropwhile ascii_digit r)
          else ([], r1)
      | [] => ([], r1)
      end in
    if is_empty ip && is_empty fp then None
    else
      match parse_exponent r2 with
      | None => None
      | Some e =>
          Some (of_decimal neg (digits_value (ip ++ fp))
                           (e - Z.of_nat (List.length fp)))
      end.

(** [float(s)] for a [str] [s]; [None] stands for [ValueError]. *)
Definition py_float (s : str) : option float :=
  match drop_underscores 0 (trim ascii_space (to_ascii s)) with
  | None => None
  | Some t => parse_ascii t
  end.

End PyFloat.

(* ================================================================== *)
(** ** Exceptions and results *)
(* ================================================================== *)

(** The exceptions the run can meet.  [KeyboardInterrupt] is the one that
    is not an [Exception]: [except Exception] lets it through, a bare
    [except] catches it.  [BrokenPipeError] and [UnicodeEncodeError] are what
    a write to the console raises when its reader is gone or when it cannot
    show a character; [UnicodeDecodeError] is what reading a line raises on
    bytes that are no text. *)
Inductive exn : Type :=
| WebDriverException
| TimeoutException
| StaleElementReferenceException
| EOFError
| ZeroDivisionError
| BrokenPipeError
| UnicodeEncodeError
| UnicodeDecodeError
| KeyboardInterrupt.

Definition is_Exception (e : exn) : bool :=
  match e with KeyboardInterrupt => false | _ => true end.

Inductive result (A : Type) : Type :=
| Ok (a : A)
| Raise (e : exn).

Arguments Ok {A} a.
Arguments Raise {A} e.

(* ================================================================== *)
(** ** The pure functions of the scraper *)
(* ================================================================== *)

Module Scraper.
Import PyStr PyFloat.

Local Open Scope N_scope.

(** The pattern of [clean_price]: one or more [\d], an optional point, any
    number of [\d].  Its one group spans the whole pattern, so [group(1)] is
    the whole match. *)
Definition PRICE_RE : Re.regex :=
  Re.Cat (Re.Plus (Re.Class isdecimal))
         (Re.Cat (Re.Opt (Re.Class (N.eqb DOT))) (Re.Star (Re.Class isdecimal))).

(** [clean_price(price_string)]. *)
Definition clean_price (price_string : str) : option float :=
  if is_empty price_string then None
  else
    let cleaned := strip (replace [POUND] [] price_string) in
    match Re.search PRICE_RE cleaned with
    | Some group1 =>
        match py_float group1 with
        | Some v => Some v
        | None => None            (* except ValueError *)
        end
    | None => None
    end.

(** [sum(prices)]: the items are added to 0 from left to right. *)
Definition py_sum (prices : list float) : float := fold_left add prices zero.

Definition is_zero (x : float) : bool :=
  match x with S754_zero _ => true | _ => false end.

(** [x / n] for a float [x] and an int [n]. *)
Definition truediv (x : float) (n : Z) : result float :=
  let d := of_int n in
  if is_zero d then Raise ZeroDivisionError else Ok (div x d).

(** [calculate_average_price(prices)]. *)
Definition calculate_average_price (prices : list float) : result (option float) :=
  match prices with
  | [] => Ok None
  | _ :: _ =>
      match truediv (py_sum prices) (Z.of_nat (List.length prices)) with
      | Ok avg => Ok (Some avg)
      | Raise e => Raise e
      end
  end.

Definition BASE_URL : str := lit "https://www.vinted.co.uk/catalog".

(** [construct_search_url(brand, description, condition)]. *)
Definition construct_search_url (brand description condition : str) : str :=
  let search_terms := strip (brand ++ [SPACE] ++ description ++ [SPACE] ++ condition) in
  let search_text := replace [SPACE] [PLUS] search_terms in
  BASE_URL ++ lit "?search_text=" ++ search_text.

End Scraper.

(* ================================================================== *)
(** ** Selenium, the console, and the trace of a run *)
(* ================================================================== *)

Module Run.
Import PyStr PyFloat Scraper.

Inductive By : Type := CSS_SELECTOR | XPATH | TAG_NAME.

(** [element.text] is a remote call: it returns the visible text or raises. *)
Record WebElement : Type := { text : result str }.

(** The calls the scraper makes on a driver, each with the outcome it has in
    the run: [presence how sel] is
    [WebDriverWait(driver, 15).until(EC.presence_of_element_located((how, sel)))]. *)
Record WebDriver : Type := {
  get : str -> result unit;
  presence : By -> str -> result unit;
  find_elements : By -> str -> result (list WebElement);
  quit : result unit
}.

(** The lines the program prints.  Constant lines carry their text, without
    the blank line some of them start with; lines built by an f-string carry
    the values they format.  A [Warning] line starts with the warning sign
    (U+26A0 U+FE0F) and the [ErrorOccurred] line with the cross mark
    (U+274C); the [AveragePrice] and [Suggestion] lines have a pound sign. *)
Inductive message : Type :=
| Text (line : string)
| Warning (line : string)
| LoadingPage (url : str)
| TryAgainLater (e : exn)
| Extracted (n : nat)
| SearchTerms (brand description : str)
| ConditionFilter (condition : str)
| AveragePrice (avg : float)
| Suggestion (avg : float)
| ErrorOccurred (e : exn).

(** What a run does, in order.  A [Print] is a line that was printed, and
    [PrintExc] a traceback that was; the other events are calls, recorded
    whether they return or raise. *)
Inductive event : Type :=
| Print (m : message)
| Input (prompt : string)
| Acquire                                   (* setup_driver returned a driver *)
| Get (url : str)                           (* driver.get(url) *)
| WaitUntil (how : By) (selector : str)      (* wait.until(presence...) *)
| Sleep (seconds : nat)                     (* time.sleep *)
| FindElements (how : By) (selector : str)   (* driver.find_elements *)
| PrintExc                                  (* traceback.print_exc() *)
| Quit.                                     (* driver.quit() *)

(** The console: what a write to it does, given the events of the run so
    far.  Writing [ev] (a [Print], or [PrintExc]) succeeds, or raises: a pipe
    whose reader is gone raises [BrokenPipeError] from then on, a console
    that cannot show a character raises [UnicodeEncodeError] on the lines
    that have it. *)
Definition console : Type := list event -> event -> option exn.

(** What the run is given: the outcome of each call of [input] in turn (a
    line, or an exception; [EOFError] once they are used up), the console,
    and the outcome of launching Chrome. *)
Record world : Type := {
  stdin : list (result str);
  stdout : console;
  chrome : result WebDriver
}.

(** Where a computation starts: the console, and the events so far. *)
Record state : Type := { out : console; past : list event }.

Definition after (t : list event) (st : state) : state :=
  {| out := out st; past := past st ++ t |}.

(** A computation leaves a trace and returns or raises. *)
Definition M (A : Type) : Type := state -> list event * result A.

Definition ret {A} (a : A) : M A := fun _ => ([], Ok a).

Definition raise {A} (e : exn) : M A := fun _ => ([], Raise e).

Definition bind {A B} (m : M A) (k : A -> M B) : M B := fun st =>
  match m st with
  | (t, Ok a) => let (t', r) := k a (after t st) in (t ++ t', r)
  | (t, Raise e) => (t, Raise e)
  end.

Notation "x <- m ;; k" := (bind m (fun x => k))
  (at level 61, m at next level, right associativity).
Notation "m ;;; k" := (bind m (fun _ => k))
  (at level 61, right associativity).

Definition tell (ev : event) : M unit := fun _ => ([ev], Ok tt).
Definition call {A} (ev : event) (outcome : result A) : M A := fun _ => ([ev], outcome).

(** A computation that does not touch the console. *)
Definition done {A} (r : list event * A) : M A := fun _ => (fst r, Ok (snd r)).

(** A write to the console: it shows what is written, or raises and shows
    nothing. *)
Definition write (ev : event) : M unit := fun st =>
  match out st (past st) ev with
  | None => ([ev], Ok tt)
  | Some e => ([], Raise e)
  end.

(** [print(m)], and [traceback.print_exc()]. *)
Definition print (m : message) : M unit := write (Print m).
Definition print_exc : M unit := write PrintExc.

(** Consecutive [print] statements. *)
Fixpoint prints (ms : list message) : M unit :=
  match ms with
  | [] => ret tt
  | m :: ms' => print m ;;; prints ms'
  end.

(** [try: body  except <class>: handler], where [catches] tells the
    exceptions of the class. *)
Definition try_except {A} (body : M A) (catches : exn -> bool)
           (handler : exn -> M A) : M A := fun st =>
  match body st with
  | (t, Raise e) =>
      if catches e then let (t', r) := handler e (after t st) in (t ++ t', r)
      else (t, Raise e)
  | (t, Ok a) => (t, Ok a)
  end.

(** [try: body  finally: final]. *)
Definition try_finally {A} (body : M A) (final : M unit) : M A := fun st =>
  let (t, r) := body st in
  match final (after t st) with
  | (t', Ok _) => (t ++ t', r)
  | (t', Raise e) => (t ++ t', Raise e)
  end.

(* ------------------------------------------------------------------ *)
(** *** [get_user_input] *)

Definition RULE : message := Text "============================================================".
Definition TITLE : message := Text "Vinted UK Price Scraper".
Definition SELECT_CONDITION : message := Text "Select condition:".
Definition INVALID_INPUT : message :=
  Text "Invalid input. Please enter a number from 1 to 5.".
Definition BRAND_PROMPT : string := "Enter brand (e.g., Nike, Zara): ".
Definition DESCRIPTION_PROMPT : string :=
  "Enter a detailed description of the product (e.g., White Air Force 1 sneakers): ".
Definition CHOICE_PROMPT : string := "Enter a number (1-5): ".

Definition condition_menu : list (str * str) :=
  [ (lit "1", lit "New With Tags");
    (lit "2", lit "New Without Tags");
    (lit "3", lit "Very Good");
    (lit "4", lit "Good");
    (lit "5", lit "Satisfactory") ].

(** [d.get(key)] on a dict written as its list of items. *)
Fixpoint lookup (key : str) (d : list (str * str)) : option str :=
  match d with
  | [] => None
  | (k, v) :: d' => if eqb_str key k then Some v else lookup key d'
  end.

Definition menu_lines : list message :=
  [ Text "  1 = New With Tags"; Text "  2 = New Without Tags";
    Text "  3 = Very Good"; Text "  4 = Good"; Text "  5 = Satisfactory" ].

(** [input(prompt)]: the outcome of the next call, [EOFError] when the
    input has ended; and the calls that are left. *)
Definition input (prompt : string) (lines : list (result str))
  : M str * list (result str) :=
  match lines with
  | [] => (call (Input prompt) (Raise EOFError), [])
  | line :: rest => (call (Input prompt) line, rest)
  end.

(** The validation loop: [while condition is None: ...]. *)
Fixpoint choose_condition (lines : list (result str)) : M str :=
  match lines with
  | [] => call (Input CHOICE_PROMPT) (Raise EOFError)
  | line :: rest =>
      line <- call (Input CHOICE_PROMPT) line ;;
      let choice := strip line in
      match lookup choice condition_menu with
      | Some condition => ret condition
      | None => print INVALID_INPUT ;;; choose_condition rest
      end
  end.

Definition get_user_input (lines : list (result str)) : M (str * str * str) :=
  print RULE ;;; print TITLE ;;; print RULE ;;;
  let (line1, lines1) := input BRAND_PROMPT lines in
  line1 <- line1 ;;
  let brand := strip line1 in
  let (line2, lines2) := input DESCRIPTION_PROMPT lines1 in
  line2 <- line2 ;;
  let description := strip line2 in
  print SELECT_CONDITION ;;;
  prints menu_lines ;;;
  condition <- choose_condition lines2 ;;
  ret (brand, description, condition).

(* ------------------------------------------------------------------ *)
(** *** [setup_driver] and [scrape_vinted_prices] *)

(** [setup_driver(headless)] configures and launches Chrome; the outcome is
    the world's. *)
Definition setup_driver (w : world) (headless : bool) : M WebDriver :=
  match chrome w with
  | Ok driver => call Acquire (Ok driver)
  | Raise e => raise e
  end.

Definition POUND_XPATH : str :=
  lit "//*[contains(text(), '" ++ [POUND] ++ lit "')]".

Definition price_selectors : list (By * str) :=
  [ (CSS_SELECTOR, lit "[class*='price']");
    (CSS_SELECTOR, lit "[data-testid*='price']");
    (XPATH, POUND_XPATH);
    (CSS_SELECTOR, lit ".new-item-box__price") ].

Definition price_patterns : list str :=
  [ lit "[class*='price']";
    lit "[data-testid*='price']";
    lit ".new-item-box__price";
    lit ".feed-grid__item [class*='price']";
    lit "[class*='Price']";
    lit "[class*='item-price']" ].

Definition CALCULATING : message := Text "Calculating a price for your product...".
Definition LOADING : message := Text "Loading...".
Definition CHECK_CONNECTION : message :=
  Text "Check your internet connection and try again.".

(** The loop over [price_selectors]: the value of [price_element_found]
    when the loop ends.  The bare [except] swallows whatever a wait raises. *)
Fixpoint wait_for_price (driver : WebDriver) (selectors : list (By * str)) : M bool :=
  match selectors with
  | [] => ret false
  | (how, selector) :: rest =>
      tell (WaitUntil how selector) ;;;
      match presence driver how selector with
      | Ok _ => ret true                          (* break *)
      | Raise _ => wait_for_price driver rest     (* continue *)
      end
  end.

(** The body of the first [try] of [scrape_vinted_prices]. *)
Definition wait_for_content (driver : WebDriver) : M unit :=
  print CALCULATING ;;;
  price_element_found <- wait_for_price driver price_selectors ;;
  (if price_element_found then ret tt
   else
     print LOADING ;;;
     call (WaitUntil TAG_NAME (lit "body")) (presence driver TAG_NAME (lit "body")) ;;;
     tell (Sleep 3)) ;;;
  tell (Sleep 2).

(** [for element in price_elements: ...]: the texts appended to [prices],
    and the exception that ended the loop, if one did. *)
Fixpoint read_prices (elements : list WebElement) (prices : list str)
  : list str * option exn :=
  match elements with
  | [] => (prices, None)
  | element :: rest =>
      match text element with
      | Raise e => (prices, Some e)
      | Ok t =>
          let price_text := strip t in
          read_prices rest
            (if is_empty price_text then prices else prices ++ [price_text])
      end
  end.

(** [for pattern in price_patterns: ...]: the structural search.  It never
    raises and prints nothing; [prices] is the list as the loop has it so
    far. *)
Fixpoint structural_search (driver : WebDriver) (patterns : list str)
         (prices : list str) : list event * list str :=
  match patterns with
  | [] => ([], prices)
  | pattern :: rest =>
      let next prices' :=
        let (t, r) := structural_search driver rest prices' in
        (FindElements CSS_SELECTOR pattern :: t, r) in
      match find_elements driver CSS_SELECTOR pattern with
      | Raise _ => next prices                        (* except: continue *)
      | Ok [] => next prices                          (* no element *)
      | Ok price_elements =>
          match read_prices price_elements prices with
          | (prices', None) =>
              ([FindElements CSS_SELECTOR pattern], prices')     (* break *)
          | (prices', Some _) => next prices'         (* except: continue *)
          end
      end
  end.

(** [for element in all_text: ...] of the content rule. *)
Fixpoint read_pound_texts (elements : list WebElement) (prices : list str)
  : list str * option exn :=
  match elements with
  | [] => (prices, None)
  | element :: rest =>
      match text element with
      | Raise e => (prices, Some e)
      | Ok t =>
          let text := strip t in
          read_pound_texts rest
            (if negb (is_empty text) && contains [POUND] text
             then prices ++ [text] else prices)
      end
  end.

(** The content rule: [try: ... except Exception as e: print(...)].  The
    texts appended before an exception stay in the list. *)
Definition content_search (driver : WebDriver) (prices : list str) : M (list str) :=
  let failed e prices' : M (list str) :=
    if is_Exception e
    then print (TryAgainLater e) ;;; ret prices'
    else raise e in
  tell (FindElements XPATH POUND_XPATH) ;;;
  match find_elements driver XPATH POUND_XPATH with
  | Raise e => failed e prices
  | Ok all_text =>
      match read_pound_texts all_text prices with
      | (prices', None) => ret prices'
      | (prices', Some e) => failed e prices'
      end
  end.

(** The extraction that follows the wait. *)
Definition extract_prices (driver : WebDriver) : M (list str) :=
  prices <- done (structural_search driver price_patterns []) ;;
  prices <- (if is_empty_list prices then content_search driver prices
             else ret prices) ;;
  print (Extracted (List.length prices)) ;;;
  ret prices.

(** [scrape_vinted_prices(driver, url)]. *)
Definition scrape_vinted_prices (driver : WebDriver) (url : str) : M (list str) :=
  print (LoadingPage url) ;;;
  call (Get url) (get driver url) ;;;
  loaded <- try_except (wait_for_content driver ;;; ret true) is_Exception
                       (fun _ => print CHECK_CONNECTION ;;; ret false) ;;
  if loaded then extract_prices driver
  else ret []                                       (* return [] *).

(* ------------------------------------------------------------------ *)
(** *** [main] *)

Definition NO_PRICES_FOUND : list message :=
  [ Warning "No prices found on the page.";
    Text "  - No results matched your search";
    Text "Please check your spelling and try again." ].
Definition COULD_NOT_RETRIEVE : message :=
  Warning "Could not retrieve any prices from the page.".
Definition RESULTS : message := Text "RESULTS".
Definition COULD_NOT_CALCULATE : message := Text "Could not calculate average price.".
Definition THANKS : message := Text "Thanks for using Vinted UK Price Scraper!".
Definition SEE_YOU : message := Text "See you next time!".

(** [for price_str in price_strings: ...]: the prices that parse. *)
Fixpoint clean_prices (price_strings : list str) : list float :=
  match price_strings with
  | [] => []
  | price_str :: rest =>
      match clean_price price_str with
      | Some price_float => price_float :: clean_prices rest
      | None => clean_prices rest
      end
  end.

(** The [try] block of [main] once the driver is there. *)
Definition report (driver : WebDriver) (brand description condition url : str)
  : M unit :=
  price_strings <- scrape_vinted_prices driver url ;;
  if is_empty_list price_strings
  then prints NO_PRICES_FOUND                               (* return *)
  else
    let cleaned_prices := clean_prices price_strings in
    if is_empty_list cleaned_prices
    then print COULD_NOT_RETRIEVE                           (* return *)
    else
      let filtered_prices := cleaned_prices in
      avg_price <- (fun _ => ([], calculate_average_price filtered_prices)) ;;
      print RULE ;;; print RESULTS ;;; print RULE ;;;
      print (SearchTerms brand description) ;;;
      print (ConditionFilter condition) ;;;
      match avg_price with
      | Some avg =>
          print (AveragePrice avg) ;;; print RULE ;;;
          print (Suggestion avg) ;;; print RULE
      | None => print COULD_NOT_CALCULATE
      end.

(** The handler of [main]: [except Exception as e: ...]. *)
Definition top_handler (e : exn) : M unit :=
  print (ErrorOccurred e) ;;; print_exc.

(** The [finally] clause of [main]: [if driver: ...]. *)
Definition finally_clause (driver : option WebDriver) : M unit :=
  match driver with
  | Some d => print THANKS ;;; print SEE_YOU ;;; call Quit (quit d)
  | None => ret tt
  end.

(** [main()].  [driver] is the variable of that name when the [finally]
    clause runs: [None] unless [setup_driver] returned. *)
Definition main (w : world) : M unit :=
  inputs <- get_user_input (stdin w) ;;
  let '(brand, description, condition) := inputs in
  let url := construct_search_url brand description condition in
  let driver : option WebDriver :=
    match chrome w with Ok d => Some d | Raise _ => None end in
  try_finally
    (try_except
       (d <- setup_driver w true ;; report d brand description condition url)
       is_Exception top_handler)
    (finally_clause driver).

(** The state in which the program starts, and its run: [main()] from the
    start. *)
Definition start (w : world) : state := {| out := stdout w; past := [] |}.

Definition run (w : world) : list event * result unit := main w (start w).

End Run.

(* ================================================================== *)
(** ** The price parser as the specification words it *)
(* ================================================================== *)

Module Spec.
Import PyStr PyFloat.

Local Open Scope N_scope.

(** The numeric token that starts at the head of [s]: the digits there, and
    when a decimal point follows them, the point and the digits after it. *)
Definition numeric_token_at (s : str) : str :=
  takewhile isdecimal s ++
  match dropwhile isdecimal s with
  | c :: r => if c =? DOT then c :: takewhile isdecimal r else []
  | [] => []
  end.

(** The first numeric token in reading order. *)
Fixpoint first_numeric_token (s : str) : option str :=
  match s with
  | [] => None
  | c :: s' =>
      if isdecimal c then Some (numeric_token_at s) else first_numeric_token s'
  end.

Definition digit_value (c : char) : N :=
  match to_decimal c with Some d => d | None => 0 end.

(** The number written by a string of decimal digits. *)
Definition number_of (ds : str) : N :=
  fold_left (fun acc c => 10 * acc + digit_value c) ds 0.

(** The real number a token denotes, as a binary64: the digits before and
    after the point, scaled by the number of digits after it. *)
Definition token_value (tok : str) : float :=
  let ip := takewhile isdecimal tok in
  let fp := List.tl (dropwhile isdecimal tok) in
  of_decimal false (number_of (ip ++ fp)) (- Z.of_nat (List.length fp)).

(** [parsePrice]: remove the currency symbol, trim, fail on an empty rest,
    otherwise convert the first numeric token. *)
Definition parsePrice (fragment : str) : option float :=
  let rest := strip (List.filter (fun c => negb (c =? POUND)) fragment) in
  if is_empty rest then None
  else
    match first_numeric_token rest with
    | Some tok => Some (token_value tok)
    | None => None
    end.

(** *** Notions used in the proofs *)

(** What is left of [s] after the optional point and the digits behind it. *)
Definition after_fraction (s : str) : str :=
  match s with
  | c :: r => if c =? DOT then dropwhile isdecimal r else s
  | [] => []
  end.

(** The ASCII digit that [float] reads for a decimal digit. *)
Definition asc (c : char) : char := 48 + digit_value c.

Definition decimal (c : char) : Prop := isdecimal c = true.

(** The characters of the ASCII form of a token: digits and the point. *)
Definition plain_char (c : char) : Prop := ascii_digit c = true \/ c = DOT.

End Spec.

(* ================================================================== *)
(** ** Observations on a run *)
(* ================================================================== *)

Module Observe.
Import PyStr PyFloat Scraper Run.

Local Open Scope N_scope.

(** The elements a structural rule matches; a lookup that raises matches
    nothing. *)
Definition matches (driver : WebDriver) (pattern : str) : list WebElement :=
  match find_elements driver CSS_SELECTOR pattern with
  | Ok elements => elements
  | Raise _ => []
  end.

Definition readable (element : WebElement) : bool :=
  match text element with Ok _ => true | Raise _ => false end.

Definition visible_text (element : WebElement) : str :=
  match text element with Ok t => t | Raise _ => [] end.

(** The trimmed, non-empty texts of a list of elements. *)
Definition fragments (elements : list WebElement) : list str :=
  List.filter (fun t => negb (is_empty t))
              (List.map (fun element => strip (visible_text element)) elements).

(** No structural rule matches an element. *)
Definition no_structural_match (driver : WebDriver) : bool :=
  forallb (fun pattern => is_empty_list (matches driver pattern)) price_patterns.

Definition is_content_lookup (ev : event) : bool :=
  match ev with
  | FindElements XPATH selector => eqb_str selector POUND_XPATH
  | _ => false
  end.

(** The extraction looks up the elements whose text contains a pound sign. *)
Definition content_rule_attempted (driver : WebDriver) (st : state) : bool :=
  existsb is_content_lookup (fst (extract_prices driver st)).

Definition is_Acquire (ev : event) : bool :=
  match ev with Acquire => true | _ => false end.

Definition is_Quit (ev : event) : bool :=
  match ev with Quit => true | _ => false end.

Definition is_Get (ev : event) : bool :=
  match ev with Get _ => true | _ => false end.

(** A driver was acquired in the run. *)
Definition acquired (trace : list event) : bool := existsb is_Acquire trace.

(** [driver.quit()] is the last event of the run, and the only such call. *)
Definition released_at_exit (trace : list event) : bool :=
  match rev trace with
  | Quit :: earlier => negb (existsb is_Quit earlier)
  | _ => false
  end.

(** Neither the acquisition nor the release of a driver. *)
Definition plain_event (ev : event) : bool :=
  negb (is_Acquire ev) && negb (is_Quit ev).

(** The line was printed, as a plain line or behind the warning sign. *)
Definition is_line (line : string) (ev : event) : bool :=
  match ev with
  | Print (Text line') | Print (Warning line') => String.eqb line line'
  | _ => false
  end.

(** The run prints that no prices were found. *)
Definition reports_no_prices (trace : list event) : bool :=
  existsb (is_line "No prices found on the page.") trace.

(** The top-level handler of [main] ran: it printed an error and the
    traceback. *)
Definition reports_error (trace : list event) : bool :=
  existsb (fun ev => match ev with Print (ErrorOccurred _) => true | _ => false end)
          trace
  && existsb (fun ev => match ev with PrintExc => true | _ => false end) trace.

(** The run prints a suggested price. *)
Definition reports_suggestion (trace : list event) : bool :=
  existsb (fun ev => match ev with Print (Suggestion _) => true | _ => false end)
          trace.

(** No rule of the list matches. *)
Definition no_match (driver : WebDriver) (pattern : str) : Prop :=
  matches driver pattern = [].

(** The menu entries 1 to 5. *)
Definition one_to_five (choice : str) : bool :=
  existsb (eqb_str choice) [lit "1"; lit "2"; lit "3"; lit "4"; lit "5"].

(** Every line is rejected by the menu. *)
Definition rejected_all (lines : list str) : bool :=
  forallb (fun line => negb (one_to_five (strip line))) lines.

(** White space at the first or at the last place of a string. *)
Definition surrounding_space (s : str) : bool :=
  match s, rev s with
  | c :: _, d :: _ => isspace c || isspace d
  | _, _ => false
  end.

(** The five condition labels. *)
Definition CONDITION_LABELS : list str :=
  [ lit "New With Tags"; lit "New Without Tags"; lit "Very Good"; lit "Good";
    lit "Satisfactory" ].

(** What the validation loop shows for the entries it rejects. *)
Definition reprompts (rejected : list str) : list event :=
  flat_map (fun _ => [Input CHOICE_PROMPT; Print INVALID_INPUT]) rejected.

(** What [get_user_input] shows before the validation loop. *)
Definition preamble : list event :=
  [ Print RULE; Print TITLE; Print RULE; Input BRAND_PROMPT;
    Input DESCRIPTION_PROMPT; Print SELECT_CONDITION ]
  ++ List.map Print menu_lines.

(** The lines [get_user_input] prints. *)
Definition input_messages : list message :=
  [RULE; TITLE; SELECT_CONDITION; INVALID_INPUT] ++ menu_lines.

(** The console refuses, at some moment, to print one of the lines [ms],
    and raises [e]. *)
Definition refuses (o : console) (ms : list message) (e : exn) : Prop :=
  exists h m, In m ms /\ o h (Print m) = Some e.

(** The elements of a rule up to the first whose text cannot be read. *)
Fixpoint read_before_failure (elements : list WebElement) : list WebElement :=
  match elements with
  | [] => []
  | element :: rest =>
      if readable element then element :: read_before_failure rest else []
  end.

(** The structural search in words: the rules are taken in order; a rule
    that matches nothing is passed over; a rule that matches and whose texts
    can all be read ends the search with the texts of its elements; a rule
    that matches and has an element whose text cannot be read gives the texts
    read before that element, and the search goes on with the next rule.
    The result is the rules looked up and the texts collected. *)
Fixpoint first_match_search (driver : WebDriver) (patterns : list str)
  : list str * list str :=
  match patterns with
  | [] => ([], [])
  | pattern :: rest =>
      let elements := matches driver pattern in
      if negb (is_empty_list elements) && forallb readable elements
      then ([pattern], fragments elements)
      else
        let (looked_up, texts) := first_match_search driver rest in
        (pattern :: looked_up, fragments (read_before_failure elements) ++ texts)
  end.

(** First-match semantics on a page: at the first rule that matches an
    element the search ends; its result is the trimmed non-empty texts of
    the elements of that one rule, and no rule after it is looked up. *)
Definition first_match_semantics (driver : WebDriver) : Prop :=
  forall (before : list str) (pattern : str) (after : list str),
    price_patterns = before ++ pattern :: after ->
    Forall (no_match driver) before ->
    matches driver pattern <> [] ->
    structural_search driver price_patterns []
    = (List.map (FindElements CSS_SELECTOR) (before ++ [pattern]),
       fragments (matches driver pattern)).

(** *** Pages and drivers for the examples *)

Definition element (t : str) : WebElement := {| text := Ok t |}.

Definition By_eqb (a b : By) : bool :=
  match a, b with
  | CSS_SELECTOR, CSS_SELECTOR | XPATH, XPATH | TAG_NAME, TAG_NAME => true
  | _, _ => false
  end.

(** The texts a page shows for a locator. *)
Fixpoint shown (content : list (By * str * list str)) (how : By) (selector : str)
  : list str :=
  match content with
  | [] => []
  | (how', selector', texts) :: content' =>
      if By_eqb how' how && eqb_str selector' selector then texts
      else shown content' how selector
  end.

(** A page that loads and does not change: every call succeeds, a wait
    times out when nothing matches its locator, the body is always there. *)
Definition static_page (content : list (By * str * list str)) : WebDriver :=
  {| get := fun _ => Ok tt;
     presence := fun how selector =>
       match how with
       | TAG_NAME => Ok tt
       | _ => if is_empty_list (shown content how selector)
              then Raise TimeoutException else Ok tt
       end;
     find_elements := fun how selector =>
       Ok (List.map element (shown content how selector));
     quit := Ok tt |}.

(** The first rule matches nothing; the second matches three elements, one
    of them without text; a later rule matches as well. *)
Definition second_rule_page : WebDriver :=
  static_page
    [ (CSS_SELECTOR, lit "[data-testid*='price']",
       [POUND :: lit "9.99"; lit "  "; POUND :: lit "10.00 "]);
      (CSS_SELECTOR, lit "[class*='Price']", [POUND :: lit "3.00"]) ].

(** The first rule matches one element, whose text is blank; two elements
    of the page have a pound sign in their text. *)
Definition blank_match_page : WebDriver :=
  static_page
    [ (CSS_SELECTOR, lit "[class*='price']", [lit "  "]);
      (XPATH, POUND_XPATH, [POUND :: lit "5"; lit "from " ++ POUND :: lit "7.50"]) ].

(** The first rule matches two elements, and the second of them is gone
    from the page when its text is read; the second rule matches one. *)
Definition stale_driver : WebDriver :=
  {| get := fun _ => Ok tt;
     presence := fun _ _ => Ok tt;
     find_elements := fun how selector =>
       if eqb_str selector (lit "[class*='price']")
       then Ok [element (POUND :: lit "5");
                {| text := Raise StaleElementReferenceException |}]
       else if eqb_str selector (lit "[data-testid*='price']")
       then Ok [element (POUND :: lit "7")]
       else Ok [];
     quit := Ok tt |}.

(** The browser cannot reach the site: [driver.get] raises. *)
Definition offline_driver : WebDriver :=
  {| get := fun _ => Raise WebDriverException;
     presence := fun _ _ => Raise TimeoutException;
     find_elements := fun _ _ => Ok [];
     quit := Ok tt |}.

(** The page loads, but no selector is found before the wait ends, not even
    the body. *)
Definition stalled_driver : WebDriver :=
  {| get := fun _ => Ok tt;
     presence := fun _ _ => Raise TimeoutException;
     find_elements := fun _ _ => Ok [];
     quit := Ok tt |}.

Definition typed : list str := [lit " Nike "; lit "Air Force 1"; lit "7"; lit " 3"].

(** The address built from what is typed. *)
Definition typed_url : str :=
  construct_search_url (lit "Nike") (lit "Air Force 1") (lit "Very Good").

(** A terminal that shows everything. *)
Definition terminal : console := fun _ _ => None.

(** A pipe whose reader goes away once the page has been requested: every
    write after that raises [BrokenPipeError]. *)
Definition closing_pipe : console :=
  fun h _ => if existsb is_Get h then Some BrokenPipeError else None.

(** The lines that have a pictograph. *)
Definition pictograph (m : message) : bool :=
  match m with Warning _ | ErrorOccurred _ => true | _ => false end.

(** A console whose encoding has no pictographs: printing a line that has
    one raises [UnicodeEncodeError]; everything else is shown. *)
Definition legacy_console : console :=
  fun _ ev =>
    match ev with
    | Print m => if pictograph m then Some UnicodeEncodeError else None
    | _ => None
    end.

(** The console shows whatever is written, at any moment. *)
Definition shows_all (o : console) : Prop := forall h ev, o h ev = None.

Definition on_terminal (st : state) : Prop := shows_all (out st).

Definition at_terminal : state := {| out := terminal; past := [] |}.

Definition offline_world : world :=
  {| stdin := List.map Ok typed; stdout := terminal; chrome := Ok offline_driver |}.
Definition stalled_world : world :=
  {| stdin := List.map Ok typed; stdout := terminal; chrome := Ok stalled_driver |}.
Definition priced_world : world :=
  {| stdin := List.map Ok typed; stdout := terminal; chrome := Ok second_rule_page |}.
Definition no_chrome_world : world :=
  {| stdin := List.map Ok typed; stdout := terminal;
     chrome := Raise WebDriverException |}.

(** The page has prices, and the output is a pipe that closes while the
    page loads. *)
Definition broken_pipe_world : world :=
  {| stdin := List.map Ok typed; stdout := closing_pipe;
     chrome := Ok second_rule_page |}.

(** No prices are found, and the console cannot show the warning sign. *)
Definition legacy_world : world :=
  {| stdin := List.map Ok typed; stdout := legacy_console;
     chrome := Ok stalled_driver |}.

(** The description that is typed cannot be decoded. *)
Definition undecodable_world : world :=
  {| stdin := [Ok (lit "Nike"); Raise UnicodeDecodeError]; stdout := terminal;
     chrome := Ok second_rule_page |}.

End Observe.

(* ================================================================== *)
(** ** Further observations *)
(* ================================================================== *)

Module Notions.
Import PyStr PyFloat Scraper Run Observe.

Local Open Scope N_scope.

(** The string has a decimal digit. *)
Definition has_digit (s : str) : bool := existsb isdecimal s.

(** A space becomes a plus sign, any other character stays. *)
Definition plus_for_space (c : char) : char := if c =? SPACE then PLUS else c.

(** A fragment as the extraction keeps them: not empty, and without white
    space at either end. *)
Definition kept (fragment : str) : bool :=
  negb (is_empty fragment) && negb (surrounding_space fragment).

(** Any character but the pound sign. *)
Definition not_pound (c : char) : bool := negb (c =? POUND).

(** The characters of a numeric token: digits and the point. *)
Definition token_char (c : char) : bool := isdecimal c || (c =? DOT).

(** A numeral, the texts the price pattern matches: a digit first, then
    digits and one point at most. *)
Definition numeral (tok : str) : bool :=
  match tok with
  | c :: _ =>
      isdecimal c && forallb token_char tok
      && (List.length (List.filter (N.eqb DOT) tok) <=? 1)%nat
  | [] => false
  end.

(** A rendering of [v]: a text that [float] reads as [v].  Python's own
    [str(v)] and [repr(v)] are renderings of [v] in this sense; they use the
    exponent form from 1e+16 on and below 0.0001, and [inf] for infinity. *)
Definition renders (r : str) (v : float) : Prop := py_float r = Some v.

(** The round trip of the parser on its own output: whatever rendering of a
    parsed value is parsed again, the value comes back. *)
Definition round_trips : Prop :=
  forall (fragment : str) (v : float) (r : str),
    clean_price fragment = Some v -> renders r v -> clean_price r = Some v.

(** The text has a pound sign. *)
Definition has_pound (s : str) : bool := contains [POUND] s.

(** The timed waits of a trace, and the seconds it sleeps. *)
Definition is_wait (ev : event) : bool :=
  match ev with WaitUntil _ _ => true | _ => false end.

Definition waits (trace : list event) : nat := List.length (List.filter is_wait trace).

Fixpoint slept (trace : list event) : nat :=
  match trace with
  | [] => 0
  | Sleep seconds :: trace' => seconds + slept trace'
  | _ :: trace' => slept trace'
  end.

(** The bound of each wait, [WebDriverWait(driver, 15)], and the longest a
    trace can spend in its waits and sleeps, in seconds. *)
Definition WAIT_SECONDS : nat := 15.

Definition waiting_time (trace : list event) : nat :=
  WAIT_SECONDS * waits trace + slept trace.

(** Every event of the computation is in the class [P]. *)
Definition all_events {A : Type} (P : event -> bool) (m : M A) : Prop :=
  forall st, Forall (fun ev => P ev = true) (fst (m st)).

(** What the computation returns is in [Q], and what it raises is in [E],
    which may depend on the console. *)
Definition yields {A : Type} (Q : A -> Prop) (E : console -> exn -> Prop)
           (m : M A) : Prop :=
  forall st,
    match snd (m st) with
    | Ok a => Q a
    | Raise e => E (out st) e
    end.

(** The lines [get_user_input] prints, and its events. *)
Definition input_line (line : string) : bool :=
  existsb (String.eqb line)
    [ "============================================================";
      "Vinted UK Price Scraper"; "Select condition:";
      "  1 = New With Tags"; "  2 = New Without Tags"; "  3 = Very Good";
      "  4 = Good"; "  5 = Satisfactory";
      "Invalid input. Please enter a number from 1 to 5." ]%string.

Definition input_event (ev : event) : bool :=
  match ev with
  | Print (Text line) => input_line line
  | Input _ => true
  | _ => false
  end.

(** The lines [scrape_vinted_prices] prints, and its events. *)
Definition scrape_line (line : string) : bool :=
  existsb (String.eqb line)
    [ "Calculating a price for your product..."; "Loading...";
      "Check your internet connection and try again." ]%string.

Definition scrape_event (ev : event) : bool :=
  match ev with
  | Print (Text line) => scrape_line line
  | Print (LoadingPage _) | Print (TryAgainLater _) | Print (Extracted _) => true
  | Get _ | WaitUntil _ _ | Sleep _ | FindElements _ _ => true
  | _ => false
  end.

(** The lines [scrape_vinted_prices] prints once the page is requested, on
    the ways out of its handlers and at its end. *)
Definition late_scrape_message (m : message) : Prop :=
  m = CHECK_CONNECTION \/ (exists e, m = TryAgainLater e) \/ (exists n, m = Extracted n).

(** The run prints that the average could not be calculated. *)
Definition NO_AVERAGE : string := "Could not calculate average price.".

Definition reports_no_average (trace : list event) : bool :=
  existsb (is_line NO_AVERAGE) trace.

(** The mean as [calculate_average_price] computes it. *)
Definition mean (prices : list float) : float :=
  div (py_sum prices) (of_int (Z.of_nat (List.length prices))).

(** What [main] prints after a scrape that gave prices. *)
Definition results_lines (brand description condition : str) (avg : float)
  : list message :=
  [ RULE; RESULTS; RULE; SearchTerms brand description; ConditionFilter condition;
    AveragePrice avg; RULE; Suggestion avg; RULE ].

Definition results_block (brand description condition : str) (avg : float)
  : list event :=
  List.map Print (results_lines brand description condition avg).

(** What [main] prints for the fragments of a scrape. *)
Definition outcome_lines (brand description condition : str)
           (price_strings : list str) : list message :=
  if is_empty_list price_strings then NO_PRICES_FOUND
  else if existsb has_digit price_strings
       then results_lines brand description condition
                          (mean (clean_prices price_strings))
       else [COULD_NOT_RETRIEVE].

Definition outcome (brand description condition : str) (price_strings : list str)
  : list event :=
  List.map Print (outcome_lines brand description condition price_strings).

(** Any line but the one that says the average could not be calculated. *)
Definition not_no_average (ev : event) : bool := negb (is_line NO_AVERAGE ev).

(** What the [finally] clause of [main] leaves in the trace. *)
Definition farewell : list event := [Print THANKS; Print SEE_YOU; Quit].

(** The console refuses, at some moment, a write and raises [e]. *)
Definition refused (o : console) (e : exn) : Prop := exists h ev, o h ev = Some e.

(** [input] raises [e]: on a call whose outcome it is, or at the end of the
    input. *)
Definition input_raises (lines : list (result str)) (e : exn) : Prop :=
  In (Raise e) lines \/ e = EOFError.

(** The integer a float is, when it is one. *)
Definition integer_value (x : float) : option Z :=
  match x with
  | S754_zero _ => Some 0%Z
  | S754_finite s m e =>
      if (0 <=? e)%Z then Some (cond_Zopp s (Z.pos m * 2 ^ e))
      else if (Z.pos m mod 2 ^ (- e) =? 0)%Z
           then Some (cond_Zopp s (Z.pos m / 2 ^ (- e)))
           else None
  | _ => None
  end.

(** No lookup of elements. *)
Definition no_lookup (ev : event) : bool :=
  match ev with FindElements _ _ => false | _ => true end.

(** The content lookup is interrupted from the keyboard. *)
Definition interrupted_driver : WebDriver :=
  {| get := fun _ => Ok tt;
     presence := fun _ _ => Ok tt;
     find_elements := fun how _ =>
       match how with XPATH => Raise KeyboardInterrupt | _ => Ok [] end;
     quit := Ok tt |}.

Definition interrupted_world : world :=
  {| stdin := List.map Ok typed; stdout := terminal;
     chrome := Ok interrupted_driver |}.

(** Nothing is typed. *)
Definition silent_world : world :=
  {| stdin := []; stdout := terminal; chrome := Ok second_rule_page |}.

End Notions.

(* ================================================================== *)
(** ** Strings: lemmas *)
(* ================================================================== *)

Module PyStrFacts.
Import PyStr.

Local Open Scope N_scope.

Lemma takewhile_dropwhile (p : char -> bool) (s : str) :
  takewhile p s ++ dropwhile p s = s.
Proof.
  induction s as [|c s IH]; simpl; [reflexivity|].
  destruct (p c); simpl; [now rewrite IH | reflexivity].
Qed.

Lemma takewhile_all (p : char -> bool) (s : str) :
  Forall (fun c => p c = true) (takewhile p s).
Proof.
  induction s as [|c s IH]; simpl; [constructor|].
  destruct (p c) eqn:E; constructor; assumption.
Qed.

Lemma dropwhile_head (p : char -> bool) (s : str) c r :
  dropwhile p s = c :: r -> p c = false.
Proof.
  induction s as [|a s IH]; simpl; [discriminate|].
  destruct (p a) eqn:E; [exact IH|].
  intros H; injection H as -> _; exact E.
Qed.

Lemma dropwhile_idem (p : char -> bool) (s : str) :
  dropwhile p (dropwhile p s) = dropwhile p s.
Proof.
  destruct (dropwhile p s) as [|c r] eqn:E; [reflexivity|].
  simpl. now rewrite (dropwhile_head p s _ _ E).
Qed.

Lemma takewhile_app_stop (p : char -> bool) (a b : str) :
  Forall (fun c => p c = true) a ->
  match b with [] => True | c :: _ => p c = false end ->
  takewhile p (a ++ b) = a /\ dropwhile p (a ++ b) = b.
Proof.
  intros Ha Hb. induction Ha as [|c a Hc Ha IH]; simpl.
  - destruct b as [|c b]; simpl; [split; reflexivity|]. now rewrite Hb.
  - rewrite Hc. destruct IH as [-> ->]. split; reflexivity.
Qed.

Lemma dropwhile_length (p : char -> bool) (s : str) :
  (List.length (dropwhile p s) <= List.length s)%nat.
Proof.
  induction s as [|c s IH]; simpl; [lia|]. destruct (p c); simpl; lia.
Qed.

(** Trimming changes nothing when neither end is in the class. *)
Lemma trim_left_keep (p : char -> bool) c (s : str) :
  p c = false -> trim_left p (c :: s) = c :: s.
Proof. intros H. unfold trim_left. simpl. now rewrite H. Qed.

Lemma trim_right_keep (p : char -> bool) (s : str) c :
  p c = false -> trim_right p (s ++ [c]) = s ++ [c].
Proof.
  intros H. unfold trim_right. rewrite rev_app_distr. simpl. rewrite H.
  simpl. now rewrite rev_involutive.
Qed.

Lemma trim_right_nil (p : char -> bool) : trim_right p [] = [].
Proof. reflexivity. Qed.

(** What trimming on the right leaves does not end in the class. *)
Lemma trim_right_last (p : char -> bool) (s r : str) c :
  trim_right p s = r ++ [c] -> p c = false.
Proof.
  unfold trim_right. intros H.
  apply (f_equal (@rev char)) in H. rewrite rev_involutive, rev_app_distr in H.
  simpl in H. exact (dropwhile_head p (rev s) _ _ H).
Qed.

Lemma trim_right_idem (p : char -> bool) (s : str) :
  trim_right p (trim_right p s) = trim_right p s.
Proof.
  unfold trim_right. rewrite rev_involutive. now rewrite dropwhile_idem.
Qed.

(** Trimming on the right keeps the head of the string. *)
Lemma trim_right_cons (p : char -> bool) c (s : str) :
  p c = false -> exists r, trim_right p (c :: s) = c :: r.
Proof.
  intros H. unfold trim_right. simpl.
  induction (rev s) as [|a t IH]; simpl.
  - rewrite H. simpl. now exists [].
  - destruct (p a) eqn:E.
    + exact IH.
    + simpl. rewrite rev_app_distr. simpl. eexists. reflexivity.
Qed.

Lemma trim_left_idem_after_right (p : char -> bool) (s : str) :
  trim_left p (trim_right p (trim_left p s)) = trim_right p (trim_left p s).
Proof.
  unfold trim_left at 2 3.
  destruct (dropwhile p s) as [|c r] eqn:E; [reflexivity|].
  pose proof (dropwhile_head p s _ _ E) as Hc.
  destruct (trim_right_cons p c r Hc) as [r' ->].
  now apply trim_left_keep.
Qed.

Lemma trim_idem (p : char -> bool) (s : str) : trim p (trim p s) = trim p s.
Proof.
  unfold trim. rewrite trim_left_idem_after_right. apply trim_right_idem.
Qed.

Lemma strip_idem (s : str) : strip (strip s) = strip s.
Proof. apply trim_idem. Qed.

(** Neither end of a trimmed string is in the class. *)
Lemma trim_head (p : char -> bool) (s r : str) c :
  trim p s = c :: r -> p c = false.
Proof.
  unfold trim, trim_left. intros H.
  destruct (dropwhile p s) as [|a t] eqn:E; [discriminate|].
  pose proof (dropwhile_head p s _ _ E) as Ha.
  destruct (trim_right_cons p a t Ha) as [r' Hr]. rewrite Hr in H.
  now injection H as <- _.
Qed.

Lemma trim_last (p : char -> bool) (s r : str) c :
  trim p s = r ++ [c] -> p c = false.
Proof. unfold trim. apply trim_right_last. Qed.

Lemma trim_keep (p : char -> bool) c (s : str) d :
  p c = false -> p d = false -> trim p (c :: s ++ [d]) = c :: s ++ [d].
Proof.
  intros Hc Hd. unfold trim. rewrite trim_left_keep by assumption.
  change (c :: s ++ [d]) with ((c :: s) ++ [d]). now apply trim_right_keep.
Qed.

Lemma trim_keep1 (p : char -> bool) c :
  p c = false -> trim p [c] = [c].
Proof.
  intros Hc. unfold trim. rewrite trim_left_keep by assumption.
  now apply (trim_right_keep p []).
Qed.

(** Replacing a one-character pattern rewrites each character on its own. *)
Lemma replace_char (a : char) (new s : str) :
  replace [a] new s = flat_map (fun c => if c =? a then new else [c]) s.
Proof.
  unfold replace. induction s as [|c s IH]; simpl; [reflexivity|].
  rewrite andb_true_r, (N.eqb_sym a c).
  destruct (c =? a); simpl; now rewrite IH.
Qed.

Lemma remove_char (a : char) (s : str) :
  replace [a] [] s = List.filter (fun c => negb (c =? a)) s.
Proof.
  rewrite replace_char. induction s as [|c s IH]; simpl; [reflexivity|].
  destruct (c =? a); simpl; now rewrite IH.
Qed.

Lemma substitute_char (a b : char) (s : str) :
  replace [a] [b] s = List.map (fun c => if c =? a then b else c) s.
Proof.
  rewrite replace_char. induction s as [|c s IH]; simpl; [reflexivity|].
  destruct (c =? a); simpl; now rewrite IH.
Qed.

Lemma eqb_str_true (a b : str) : eqb_str a b = true <-> a = b.
Proof.
  unfold eqb_str. destruct (list_eq_dec N.eq_dec a b); split; congruence.
Qed.

Lemma eqb_str_true_refl (a : str) : eqb_str a a = true.
Proof. now apply eqb_str_true. Qed.

Lemma firstn_app_exact (a b : str) :
  firstn (List.length (a ++ b) - List.length b) (a ++ b) = a.
Proof.
  rewrite length_app, Nat.add_sub, firstn_app, Nat.sub_diag, firstn_all.
  simpl. apply app_nil_r.
Qed.

End PyStrFacts.

(* ================================================================== *)
(** ** The search of the price pattern finds the first numeric token *)
(* ================================================================== *)

Module ReFacts.
Import PyStr PyStrFacts Re Scraper Spec.

Local Open Scope N_scope.

(** A greedy iteration of a character class runs to the end of the class
    when the continuation accepts what is left there: no backtracking. *)
Lemma iterate_class (p : char -> bool) (k : str -> option str) :
  forall (fuel : nat) (s : str),
    (List.length s <= fuel)%nat ->
    k (dropwhile p s) <> None ->
    iterate (run (Class p)) k fuel s = k (dropwhile p s).
Proof.
  induction fuel as [|fuel IH]; intros s Hlen Hk.
  - destruct s; [reflexivity | simpl in Hlen; lia].
  - destruct s as [|c s']; [reflexivity|].
    simpl in *. destruct (p c) eqn:Hc; [|reflexivity].
    assert (Hlt : (List.length s' <? S (List.length s'))%nat = true)
      by (apply Nat.ltb_lt; lia).
    rewrite Hlt, IH by (assumption || lia).
    destruct (k (dropwhile p s')); [reflexivity | contradiction].
Qed.

Lemma run_star_class (p : char -> bool) (s : str) :
  run (Star (Class p)) s (fun rest => Some rest) = Some (dropwhile p s).
Proof.
  change (run (Star ?a) ?t ?k) with (iterate (run a) k (List.length t) t).
  rewrite iterate_class; [reflexivity | apply Nat.le_refl | discriminate].
Qed.

Lemma run_fraction (s : str) :
  run (Cat (Opt (Class (N.eqb DOT))) (Star (Class isdecimal))) (dropwhile isdecimal s)
      (fun rest => Some rest)
  = Some (after_fraction (dropwhile isdecimal s)).
Proof.
  change (run (Cat ?a ?b) ?t ?k) with (run a t (fun s1 => run b s1 k)).
  change (run (Opt ?a) ?t ?k)
    with (match run a t k with Some rest => Some rest | None => k t end).
  destruct (dropwhile isdecimal s) as [|c r] eqn:E.
  - reflexivity.
  - change (run (Class ?p) (c :: r) ?k) with (if p c then k r else None).
    unfold after_fraction. rewrite (N.eqb_sym DOT c).
    destruct (c =? DOT).
    + now rewrite run_star_class.
    + rewrite run_star_class, <- E. now rewrite dropwhile_idem.
Qed.

Lemma run_price_re (c : char) (s : str) :
  isdecimal c = true ->
  run PRICE_RE (c :: s) (fun rest => Some rest)
  = Some (after_fraction (dropwhile isdecimal s)).
Proof.
  intros Hc. unfold PRICE_RE.
  change (run (Cat ?a ?b) ?t ?k) with (run a t (fun s1 => run b s1 k)) at 1.
  change (run (Plus ?a) ?t ?k)
    with (run a t (fun s1 => iterate (run a) k (List.length s1) s1)).
  change (run (Class ?p) (c :: s) ?k) with (if p c then k s else None).
  rewrite Hc.
  rewrite iterate_class; try apply Nat.le_refl; rewrite run_fraction;
    [reflexivity | discriminate].
Qed.

Lemma run_price_re_fails (s : str) :
  match s with c :: _ => isdecimal c = false | [] => True end ->
  run PRICE_RE s (fun rest => Some rest) = None.
Proof.
  intros H. unfold PRICE_RE.
  change (run (Cat ?a ?b) ?t ?k) with (run a t (fun s1 => run b s1 k)) at 1.
  change (run (Plus ?a) ?t ?k)
    with (run a t (fun s1 => iterate (run a) k (List.length s1) s1)).
  destruct s as [|c s]; [reflexivity|].
  change (run (Class ?p) (c :: s) ?k) with (if p c then k s else None).
  now rewrite H.
Qed.

(** The text before [after_fraction] is the numeric token. *)
Lemma token_split (c : char) (s : str) :
  isdecimal c = true ->
  c :: s = Spec.numeric_token_at (c :: s) ++ after_fraction (dropwhile isdecimal s).
Proof.
  intros Hc. unfold Spec.numeric_token_at. simpl. rewrite Hc. simpl.
  rewrite <- (takewhile_dropwhile isdecimal s) at 1.
  rewrite <- app_assoc. f_equal. f_equal.
  destruct (dropwhile isdecimal s) as [|d r]; [reflexivity|].
  unfold after_fraction. destruct (d =? DOT); [|reflexivity].
  simpl. now rewrite takewhile_dropwhile.
Qed.

Lemma match_here_price_re (c : char) (s : str) :
  isdecimal c = true ->
  match_here PRICE_RE (c :: s) = Some (Spec.numeric_token_at (c :: s)).
Proof.
  intros Hc. unfold match_here. rewrite run_price_re by assumption.
  rewrite (token_split c s Hc) at 1 2. now rewrite firstn_app_exact.
Qed.

(** [re.search] with the price pattern returns the first numeric token. *)
Lemma search_price_re (s : str) :
  search PRICE_RE s = Spec.first_numeric_token s.
Proof.
  induction s as [|c s IH]; [reflexivity|].
  simpl. destruct (isdecimal c) eqn:Hc.
  - now rewrite match_here_price_re.
  - unfold match_here. rewrite run_price_re_fails by exact Hc. exact IH.
Qed.

End ReFacts.

(* ================================================================== *)
(** ** Floats: the sign of a converted decimal, and [float] on tokens *)
(* ================================================================== *)

Module PyFloatFacts.
Import PyStr PyStrFacts PyFloat Spec.

(** *** Rounding never turns a non-negative mantissa into a negative one *)

Local Open Scope Z_scope.

Lemma iter_pos_invariant {A : Type} (P : A -> Prop) (f : A -> A) :
  (forall x, P x -> P (f x)) ->
  forall (n : positive) (x : A), P x -> P (iter_pos f n x).
Proof.
  intros Hf. induction n as [n IH|n IH|]; intros x Hx; simpl; auto.
Qed.

Lemma shr_1_nonneg (mrs : shr_record) : 0 <= shr_m mrs -> 0 <= shr_m (shr_1 mrs).
Proof.
  destruct mrs as [m r s]. simpl. intros Hm.
  destruct m as [|p|p]; [simpl; lia | | lia].
  destruct p; simpl; lia.
Qed.

Lemma shr_nonneg (mrs : shr_record) (e n : Z) :
  0 <= shr_m mrs -> 0 <= shr_m (fst (shr mrs e n)).
Proof.
  intros Hm. destruct n as [|p|p]; simpl; try assumption.
  apply (iter_pos_invariant (fun x => 0 <= shr_m x)); [exact shr_1_nonneg | assumption].
Qed.

Lemma shr_record_of_loc_m (m : Z) (l : location) : shr_m (shr_record_of_loc m l) = m.
Proof. destruct l as [|[]]; reflexivity. Qed.

Lemma shr_fexp_nonneg (m e : Z) (l : location) :
  0 <= m -> 0 <= shr_m (fst (shr_fexp prec emax m e l)).
Proof.
  intros Hm. unfold shr_fexp. apply shr_nonneg. now rewrite shr_record_of_loc_m.
Qed.

Lemma round_nearest_even_nonneg (m : Z) (l : location) :
  0 <= m -> 0 <= round_nearest_even m l.
Proof.
  intros Hm. destruct l as [|[]]; simpl; try lia. destruct (Z.even m); lia.
Qed.

Lemma binary_round_aux_nonneg (m e : Z) (l : location) :
  0 <= m -> nonneg (binary_round_aux prec emax false m e l) = true.
Proof.
  intros Hm. unfold binary_round_aux.
  pose proof (shr_fexp_nonneg m e l Hm) as H1.
  destruct (shr_fexp prec emax m e l) as [mrs' e'] eqn:E1. simpl in H1.
  pose proof (shr_fexp_nonneg _ e' loc_Exact
                (round_nearest_even_nonneg _ (loc_of_shr_record mrs') H1)) as H2.
  destruct (shr_fexp prec emax (round_nearest_even _ _) e' loc_Exact)
    as [mrs'' e''] eqn:E2.
  simpl in H2. destruct (shr_m mrs'') as [|p|p]; [reflexivity | | lia].
  destruct (e'' <=? emax - prec); reflexivity.
Qed.

(** A decimal converted without a sign is a non-negative float: a zero, a
    positive finite number, or plus infinity when it is too large. *)
Lemma of_decimal_nonneg (m : N) (e : Z) : nonneg (of_decimal false m e) = true.
Proof.
  unfold of_decimal. destruct m as [|p]; [reflexivity|].
  destruct (0 <=? e) eqn:He.
  - apply Z.leb_le in He. unfold cond_Zopp.
    assert (Hpos : 0 < Z.pos p * 10 ^ e)
      by (apply Z.mul_pos_pos; [lia | apply Z.pow_pos_nonneg; lia]).
    remember (Z.pos p * 10 ^ e) as v eqn:Ev. clear Ev.
    destruct v as [|q|q]; try lia.
    unfold binary_normalize, binary_round.
    destruct (shl_align q 0 (fexp prec emax (Z.pos (digits2_pos q) + 0)))
      as [mz ez].
    apply binary_round_aux_nonneg. lia.
  - unfold SFdiv, SFdiv_core_binary.
    set (m' := match _ with Z.pos _ => _ | 0 => _ | Z.neg _ => _ end).
    assert (Hm' : 0 <= m').
    { subst m'. destruct (_ - _ - _) as [|s|s]; try lia.
      rewrite Z.shiftl_mul_pow2 by lia.
      apply Z.mul_nonneg_nonneg; [lia | apply Z.pow_nonneg; lia]. }
    pose proof (Z.div_pos m' (Z.pos (Z.to_pos (10 ^ (- e)))) Hm' ltac:(lia)) as Hq.
    unfold Z.div in Hq.
    destruct (Z.div_eucl m' _) as [q r]. simpl xorb.
    now apply binary_round_aux_nonneg.
Qed.

(** *** The table of decimal digits *)

Local Open Scope N_scope.

Lemma decimal_in_spec (runs : list char) (c : char) (d : N) :
  decimal_in runs c = Some d ->
  exists b, In b runs /\ b <= c /\ c <= b + 9 /\ d = c - b.
Proof.
  induction runs as [|b runs IH]; simpl; [discriminate|].
  unfold between. destruct ((b <=? c) && (c <=? b + 9)) eqn:E.
  - intros H; injection H as <-. apply andb_true_iff in E as [E1 E2].
    apply N.leb_le in E1, E2. exists b. auto.
  - intros H. destruct (IH H) as (b' & Hin & Hb). exists b'. auto.
Qed.

Lemma to_decimal_le (c : char) (d : N) : to_decimal c = Some d -> d <= 9.
Proof.
  intros H. destruct (decimal_in_spec _ _ _ H) as (b & _ & H1 & H2 & ->). lia.
Qed.

(** The ASCII digits are the only decimal digits below 127. *)
Lemma to_decimal_ascii (c : char) (d : N) :
  to_decimal c = Some d -> c < 127 -> c = 48 + d.
Proof.
  intros H Hc. destruct (decimal_in_spec _ _ _ H) as (b & Hin & H1 & H2 & ->).
  assert (Hruns : forallb (fun b => (b =? 48) || (127 <=? b)) decimal_runs = true)
    by (vm_compute; reflexivity).
  rewrite forallb_forall in Hruns. specialize (Hruns b Hin).
  apply orb_true_iff in Hruns as [Hb|Hb].
  - apply N.eqb_eq in Hb. lia.
  - apply N.leb_le in Hb. lia.
Qed.

Lemma le_9_cases (d : N) : d <= 9 -> In d [0; 1; 2; 3; 4; 5; 6; 7; 8; 9].
Proof.
  intros H. destruct d as [|p]; [simpl; tauto|].
  do 4 (try (destruct p as [p|p|]; try lia)); simpl; tauto.
Qed.

(** No decimal digit is white space. *)
Lemma to_decimal_not_space (c : char) (d : N) :
  to_decimal c = Some d -> isspace c = false.
Proof.
  intros H. destruct (decimal_in_spec _ _ _ H) as (b & Hin & H1 & H2 & Hd).
  assert (Hruns : forallb (fun b => forallb (fun d => negb (isspace (b + d)))
                                            [0; 1; 2; 3; 4; 5; 6; 7; 8; 9])
                          decimal_runs = true)
    by (vm_compute; reflexivity).
  rewrite forallb_forall in Hruns. specialize (Hruns b Hin).
  rewrite forallb_forall in Hruns.
  specialize (Hruns d (le_9_cases d ltac:(lia))).
  replace (b + d) with c in Hruns by lia.
  now apply negb_true_iff in Hruns.
Qed.

Lemma isdecimal_to_decimal (c : char) :
  isdecimal c = true -> to_decimal c = Some (Spec.digit_value c).
Proof.
  unfold isdecimal, Spec.digit_value.
  destruct (to_decimal c); [reflexivity | discriminate].
Qed.

(** *** [float] accepts every numeric token *)

Lemma asc_digit (c : char) : isdecimal c = true -> ascii_digit (asc c) = true.
Proof.
  intros H. pose proof (to_decimal_le _ _ (isdecimal_to_decimal c H)) as Hd.
  unfold ascii_digit, between, asc.
  apply andb_true_iff; split; apply N.leb_le; lia.
Qed.

Lemma to_ascii_decimal (c : char) (s : str) :
  isdecimal c = true -> to_ascii (c :: s) = asc c :: to_ascii s.
Proof.
  intros H. pose proof (isdecimal_to_decimal c H) as Hd. simpl.
  destruct (c <? 127) eqn:Hc.
  - apply N.ltb_lt in Hc. f_equal. unfold asc.
    exact (to_decimal_ascii _ _ Hd Hc).
  - now rewrite (to_decimal_not_space _ _ Hd), Hd.
Qed.

Lemma to_ascii_digits (ds tail : str) :
  Forall decimal ds -> to_ascii (ds ++ tail) = List.map asc ds ++ to_ascii tail.
Proof.
  induction 1 as [|c ds Hc _ IH]; [reflexivity|].
  simpl app. rewrite to_ascii_decimal by assumption. simpl. now rewrite IH.
Qed.

Lemma asc_digits (ds : str) :
  Forall decimal ds -> Forall (fun c => ascii_digit c = true) (List.map asc ds).
Proof.
  induction 1; simpl; constructor; auto using asc_digit.
Qed.

Lemma digits_value_asc (ds : str) : digits_value (List.map asc ds) = Spec.number_of ds.
Proof.
  unfold digits_value, Spec.number_of. generalize 0.
  induction ds as [|c ds IH]; intros acc; simpl; [reflexivity|].
  rewrite IH. f_equal. unfold asc. lia.
Qed.

Lemma dropwhile_none (p : char -> bool) (s : str) :
  Forall (fun c => p c = false) s -> dropwhile p s = s.
Proof. destruct 1 as [|c s Hc _]; simpl; [reflexivity | now rewrite Hc]. Qed.

Lemma trim_none (p : char -> bool) (s : str) :
  Forall (fun c => p c = false) s -> trim p s = s.
Proof.
  intros H. unfold trim, trim_left, trim_right.
  rewrite (dropwhile_none p s H), dropwhile_none by now apply Forall_rev.
  apply rev_involutive.
Qed.

Lemma drop_underscores_none (s : str) :
  Forall (fun c => c <> UNDERSCORE) s ->
  forall prev, prev <> UNDERSCORE -> drop_underscores prev s = Some s.
Proof.
  induction 1 as [|c s Hc _ IH]; intros prev Hprev; simpl.
  - apply N.eqb_neq in Hprev. now rewrite Hprev.
  - apply N.eqb_neq in Hc, Hprev. rewrite Hc, Hprev. simpl.
    apply N.eqb_neq in Hc. now rewrite IH.
Qed.

Lemma plain_facts (c : char) :
  plain_char c -> ascii_space c = false /\ c <> UNDERSCORE.
Proof.
  unfold plain_char, ascii_digit, ascii_space, between, DOT, UNDERSCORE.
  intros [H| ->]; [|split; [reflexivity | discriminate]].
  apply andb_true_iff in H as [H1 H2]. apply N.leb_le in H1, H2.
  split; [|lia].
  apply orb_false_iff; split; [apply andb_false_iff; right|];
    [apply N.leb_gt | apply N.eqb_neq]; lia.
Qed.

Lemma eqb_str_head (a : char) (s t : str) :
  match t with b :: _ => a <> b | [] => True end -> eqb_str (a :: s) t = false.
Proof.
  intros H. destruct (eqb_str (a :: s) t) eqn:E; [|reflexivity].
  apply eqb_str_true in E. subst t. contradiction.
Qed.

(** A text that starts with an ASCII digit has no sign and is no name. *)
Lemma parse_ascii_number (a : char) (s : str) :
  ascii_digit a = true ->
  parse_ascii (a :: s) =
    let body := a :: s in
    let ip := takewhile ascii_digit body in
    let r1 := dropwhile ascii_digit body in
    let (fp, r2) :=
      match r1 with
      | c :: r =>
          if c =? DOT then (takewhile ascii_digit r, dropwhile ascii_digit r)
          else ([], r1)
      | [] => ([], r1)
      end in
    if is_empty ip && is_empty fp then None
    else
      match parse_exponent r2 with
      | None => None
      | Some e =>
          Some (of_decimal false (digits_value (ip ++ fp))
                           (e - Z.of_nat (List.length fp)))
      end.
Proof.
  intros Ha. unfold ascii_digit, between in Ha.
  apply andb_true_iff in Ha as [H1 H2]. apply N.leb_le in H1, H2.
  unfold parse_ascii, parse_sign.
  assert (Hm : (a =? MINUS) = false) by (apply N.eqb_neq; unfold MINUS; lia).
  assert (Hp : (a =? PLUS) = false) by (apply N.eqb_neq; unfold PLUS; lia).
  rewrite Hm, Hp.
  assert (Hl : lower a = a).
  { unfold lower, between.
    replace (65 <=? a) with false by (symmetry; apply N.leb_gt; lia).
    reflexivity. }
  change (List.map lower (a :: s)) with (lower a :: List.map lower s).
  rewrite Hl.
  rewrite !eqb_str_head by (vm_compute; lia).
  reflexivity.
Qed.

(** [float] of digits, or of digits, a point and digits. *)
Lemma py_float_digits (ds fs : str) (dot : bool) :
  ds <> [] -> Forall decimal ds -> Forall decimal fs ->
  let fp := if dot then fs else [] in
  py_float (ds ++ (if dot then DOT :: fs else []))
  = Some (of_decimal false (Spec.number_of (ds ++ fp))
                     (- Z.of_nat (List.length fp))).
Proof.
  intros Hne Hds Hfs fp. unfold py_float.
  set (tail := if dot then DOT :: List.map asc fs else []).
  assert (Hasc : to_ascii (ds ++ (if dot then DOT :: fs else []))
                 = List.map asc ds ++ tail).
  { rewrite to_ascii_digits by assumption. f_equal. subst tail.
    destruct dot; [|reflexivity].
    change (to_ascii (DOT :: fs)) with (DOT :: to_ascii fs).
    rewrite <- (app_nil_r fs) at 1. rewrite to_ascii_digits by assumption.
    simpl. now rewrite app_nil_r. }
  rewrite Hasc.
  assert (Hplain : Forall plain_char (List.map asc ds ++ tail)).
  { apply Forall_app; split.
    - eapply Forall_impl; [|exact (asc_digits ds Hds)]. intros c Hc. now left.
    - subst tail. destruct dot; constructor; [now right|].
      eapply Forall_impl; [|exact (asc_digits fs Hfs)]. intros c Hc. now left. }
  rewrite trim_none
    by (eapply Forall_impl; [|exact Hplain]; intros c Hc; apply plain_facts, Hc).
  rewrite drop_underscores_none;
    [| eapply Forall_impl; [|exact Hplain]; intros c Hc; apply plain_facts, Hc
     | discriminate ].
  destruct ds as [|d ds]; [contradiction|].
  simpl List.map. simpl app at 1.
  rewrite parse_ascii_number by (inversion Hds; now apply asc_digit).
  change (asc d :: List.map asc ds ++ tail) with (List.map asc (d :: ds) ++ tail).
  destruct (takewhile_app_stop ascii_digit (List.map asc (d :: ds)) tail
              (asc_digits _ Hds)) as [Ht Hd].
  { subst tail. destruct dot; [reflexivity | exact I]. }
  cbv zeta. rewrite Ht, Hd. subst tail fp. destruct dot.
  - rewrite N.eqb_refl.
    destruct (takewhile_app_stop ascii_digit (List.map asc fs) []
                (asc_digits _ Hfs) I) as [Ht' Hd'].
    rewrite app_nil_r in Ht', Hd'. rewrite Ht', Hd'.
    simpl is_empty. simpl parse_exponent. cbv iota beta.
    rewrite <- (List.map_app asc (d :: ds) fs), digits_value_asc, List.length_map.
    reflexivity.
  - simpl is_empty. simpl parse_exponent. cbv iota beta.
    rewrite !app_nil_r, digits_value_asc. reflexivity.
Qed.

(** The shape of a numeric token. *)
Lemma numeric_token_shape (c : char) (s : str) :
  isdecimal c = true ->
  exists (ds fs : str) (dot : bool),
    Spec.numeric_token_at (c :: s) = ds ++ (if dot then DOT :: fs else [])
    /\ ds <> [] /\ Forall decimal ds /\ Forall decimal fs.
Proof.
  intros Hc. unfold Spec.numeric_token_at.
  exists (takewhile isdecimal (c :: s)).
  assert (Hne : takewhile isdecimal (c :: s) <> [])
    by (simpl; rewrite Hc; discriminate).
  pose proof (takewhile_all isdecimal (c :: s)) as Hds.
  destruct (dropwhile isdecimal (c :: s)) as [|d r] eqn:E.
  - exists (@nil char), false. repeat split; try assumption. constructor.
  - destruct (d =? DOT) eqn:Ed.
    + apply N.eqb_eq in Ed. subst d. exists (takewhile isdecimal r), true.
      repeat split; try assumption. apply takewhile_all.
    + exists (@nil char), false. repeat split; try assumption. constructor.
Qed.

Lemma token_value_digits (ds fs : str) (dot : bool) :
  Forall decimal ds -> Forall decimal fs ->
  let fp := if dot then fs else [] in
  Spec.token_value (ds ++ (if dot then DOT :: fs else []))
  = of_decimal false (Spec.number_of (ds ++ fp)) (- Z.of_nat (List.length fp)).
Proof.
  intros Hds Hfs fp. subst fp. unfold Spec.token_value. destruct dot.
  - destruct (takewhile_app_stop isdecimal ds (DOT :: fs) Hds eq_refl) as [-> ->].
    reflexivity.
  - destruct (takewhile_app_stop isdecimal ds [] Hds I) as [-> ->].
    reflexivity.
Qed.

(** [float] never rejects a numeric token, and returns its value. *)
Lemma py_float_token (c : char) (s : str) :
  isdecimal c = true ->
  py_float (Spec.numeric_token_at (c :: s))
  = Some (Spec.token_value (Spec.numeric_token_at (c :: s))).
Proof.
  intros Hc.
  destruct (numeric_token_shape c s Hc) as (ds & fs & dot & -> & Hne & Hds & Hfs).
  rewrite py_float_digits, token_value_digits by assumption. reflexivity.
Qed.

Lemma token_value_nonneg (tok : str) : nonneg (Spec.token_value tok) = true.
Proof. apply of_decimal_nonneg. Qed.

Lemma first_numeric_token_float (s tok : str) :
  Spec.first_numeric_token s = Some tok ->
  py_float tok = Some (Spec.token_value tok).
Proof.
  induction s as [|c s IH]; simpl; [discriminate|].
  destruct (isdecimal c) eqn:Hc; [|exact IH].
  intros H; injection H as <-. now apply py_float_token.
Qed.

End PyFloatFacts.

(* ================================================================== *)
(** ** Floats: the float of a positive [int] is not zero *)
(* ================================================================== *)

Module IntToFloat.
Import PyFloat PyFloatFacts.

Local Open Scope Z_scope.

(** A number of [d] binary digits lies between [2^(d-1)] and [2^d]. *)
Lemma digits2_pos_bounds (p : positive) :
  2 ^ (Z.pos (digits2_pos p) - 1) <= Z.pos p < 2 ^ Z.pos (digits2_pos p).
Proof.
  induction p as [p IH|p IH|]; simpl digits2_pos.
  - rewrite Pos2Z.inj_succ.
    replace (Z.succ (Z.pos (digits2_pos p)) - 1) with (Z.succ (Z.pos (digits2_pos p) - 1)) by lia.
    rewrite !Z.pow_succ_r by lia. lia.
  - rewrite Pos2Z.inj_succ.
    replace (Z.succ (Z.pos (digits2_pos p)) - 1) with (Z.succ (Z.pos (digits2_pos p) - 1)) by lia.
    rewrite !Z.pow_succ_r by lia. lia.
  - simpl. lia.
Qed.

Lemma pow_le_digits (k : Z) (p : positive) :
  0 <= k -> 2 ^ k <= Z.pos p -> k < Z.pos (digits2_pos p).
Proof.
  intros Hk H. pose proof (digits2_pos_bounds p) as [_ Hu].
  apply (Z.pow_lt_mono_r_iff 2); lia.
Qed.

Lemma shr_1_div2 (mrs : shr_record) :
  0 <= shr_m mrs -> shr_m (shr_1 mrs) = shr_m mrs / 2.
Proof.
  destruct mrs as [m r s]. simpl. intros Hm.
  destruct m as [|p|p]; [reflexivity | | lia].
  destruct p as [p|p|]; simpl shr_m.
  - rewrite Pos2Z.inj_xI. apply (Z.div_unique _ _ _ 1); lia.
  - rewrite Pos2Z.inj_xO. apply (Z.div_unique _ _ _ 0); lia.
  - reflexivity.
Qed.

Lemma pow2_xO (n : positive) : 2 ^ Z.pos n~0 = 2 ^ Z.pos n * 2 ^ Z.pos n.
Proof. rewrite <- Z.pow_add_r by lia. f_equal. lia. Qed.

Lemma pow2_xI (n : positive) : 2 ^ Z.pos n~1 = 2 * (2 ^ Z.pos n * 2 ^ Z.pos n).
Proof.
  replace (Z.pos n~1) with (Z.succ (Z.pos n + Z.pos n)) by lia.
  rewrite Z.pow_succ_r, Z.pow_add_r by lia. reflexivity.
Qed.

Lemma div_div_nonneg (a b c : Z) :
  0 <= a -> 0 < b -> 0 < c -> 0 <= a / b /\ a / b / c = a / (b * c).
Proof.
  intros Ha Hb Hc. split; [apply Z.div_pos; lia | apply Z.div_div; lia].
Qed.

(** [n] steps of [shr_1] divide the mantissa by [2^n]. *)
Lemma iter_shr_1_div (n : positive) :
  forall mrs, 0 <= shr_m mrs ->
              shr_m (iter_pos shr_1 n mrs) = shr_m mrs / 2 ^ Z.pos n.
Proof.
  assert (Hpow : forall k, 0 < 2 ^ Z.pos k) by (intros k; apply Z.pow_pos_nonneg; lia).
  induction n as [n IH|n IH|]; intros mrs Hm; simpl iter_pos.
  - pose proof (shr_1_nonneg mrs Hm) as H1.
    pose proof (Hpow n) as Hp.
    assert (H2 : shr_m (iter_pos shr_1 n (shr_1 mrs)) = shr_m mrs / (2 * 2 ^ Z.pos n)).
    { rewrite IH, shr_1_div2 by assumption.
      apply (div_div_nonneg (shr_m mrs) 2 (2 ^ Z.pos n)); lia. }
    rewrite IH, H2 by (rewrite H2; apply Z.div_pos; lia).
    rewrite pow2_xI.
    destruct (div_div_nonneg (shr_m mrs) (2 * 2 ^ Z.pos n) (2 ^ Z.pos n))
      as [_ Hdd]; [lia | lia | lia |].
    rewrite Hdd. f_equal. lia.
  - pose proof (Hpow n) as Hp.
    assert (H2 : shr_m (iter_pos shr_1 n mrs) = shr_m mrs / 2 ^ Z.pos n)
      by now apply IH.
    rewrite IH, H2 by (rewrite H2; apply Z.div_pos; lia).
    rewrite pow2_xO.
    destruct (div_div_nonneg (shr_m mrs) (2 ^ Z.pos n) (2 ^ Z.pos n))
      as [_ Hdd]; [lia | lia | lia |].
    rewrite Hdd. reflexivity.
  - rewrite shr_1_div2 by assumption. reflexivity.
Qed.

(** A shift to the format's exponent keeps a positive mantissa positive as
    long as the number is not below the smallest subnormal. *)
Lemma shr_fexp_pos (p : positive) (e : Z) (l : location) :
  EMIN < Z.pos (digits2_pos p) + e ->
  exists q e',
    shr_m (fst (shr_fexp prec emax (Z.pos p) e l)) = Z.pos q
    /\ snd (shr_fexp prec emax (Z.pos p) e l) = e'
    /\ EMIN < Z.pos (digits2_pos q) + e'.
Proof.
  intros He. unfold shr_fexp, shr. simpl Zdigits2.
  set (d := Z.pos (digits2_pos p)) in *.
  destruct (fexp prec emax (d + e) - e) as [|n|n] eqn:En; simpl fst; simpl snd.
  - exists p, e. rewrite shr_record_of_loc_m. auto.
  - assert (Hn : Z.pos n < d)
      by (unfold fexp, emin, prec, emax, EMIN in *; lia).
    rewrite iter_shr_1_div, shr_record_of_loc_m
      by (rewrite shr_record_of_loc_m; lia).
    pose proof (digits2_pos_bounds p) as [Hl _]. fold d in Hl.
    assert (Hq : 2 ^ (d - 1 - Z.pos n) <= Z.pos p / 2 ^ Z.pos n).
    { apply Z.div_le_lower_bound; [apply Z.pow_pos_nonneg; lia|].
      rewrite <- Z.pow_add_r by lia.
      replace (Z.pos n + (d - 1 - Z.pos n)) with (d - 1) by lia. exact Hl. }
    assert (Hone : 0 < 2 ^ (d - 1 - Z.pos n)) by (apply Z.pow_pos_nonneg; lia).
    destruct (Z.pos p / 2 ^ Z.pos n) as [|q|q] eqn:Eq; try lia.
    exists q, (e + Z.pos n). repeat split.
    pose proof (pow_le_digits (d - 1 - Z.pos n) q ltac:(lia) Hq). lia.
  - exists p, e. rewrite shr_record_of_loc_m. auto.
Qed.

(** Rounding to nearest does not lower the mantissa. *)
Lemma round_nearest_even_pos (q : positive) (l : location) :
  exists q', round_nearest_even (Z.pos q) l = Z.pos q' /\ (q <= q')%positive.
Proof.
  assert (Hup : Z.pos q + 1 = Z.pos (q + 1) /\ (q <= q + 1)%positive)
    by (split; lia).
  destruct l as [|[]]; unfold round_nearest_even.
  - exists q. split; [reflexivity | lia].
  - destruct (Z.even (Z.pos q)); [exists q | exists (q + 1)%positive];
      split; try reflexivity; try apply Hup; lia.
  - exists q. split; [reflexivity | lia].
  - exists (q + 1)%positive. exact Hup.
Qed.

Lemma digits2_pos_le (p q : positive) :
  (p <= q)%positive -> Z.pos (digits2_pos p) <= Z.pos (digits2_pos q).
Proof.
  intros H. pose proof (digits2_pos_bounds p) as [Hl _].
  pose proof (pow_le_digits (Z.pos (digits2_pos p) - 1) q ltac:(lia) ltac:(lia)).
  lia.
Qed.

(** Rounding a positive mantissa that is not below the smallest subnormal
    gives a finite number or an infinity, never a zero. *)
Lemma binary_round_aux_nonzero (s : bool) (p : positive) (e : Z) (l : location) :
  EMIN < Z.pos (digits2_pos p) + e ->
  Scraper.is_zero (binary_round_aux prec emax s (Z.pos p) e l) = false.
Proof.
  intros He. unfold binary_round_aux.
  destruct (shr_fexp_pos p e l He) as (q & e' & Hq & He' & Hb).
  destruct (shr_fexp prec emax (Z.pos p) e l) as [mrs' e1]. simpl in Hq, He'.
  subst e1. rewrite Hq.
  destruct (round_nearest_even_pos q (loc_of_shr_record mrs')) as (q' & -> & Hle).
  pose proof (digits2_pos_le q q' Hle) as Hd.
  destruct (shr_fexp_pos q' e' loc_Exact ltac:(lia)) as (q2 & e2 & Hq2 & _ & _).
  destruct (shr_fexp prec emax (Z.pos q') e' loc_Exact) as [mrs'' e3].
  simpl in Hq2. rewrite Hq2.
  destruct (e3 <=? emax - prec); reflexivity.
Qed.

(** [float(n)] is not zero when [n] is a positive [int]. *)
Lemma of_int_nonzero (n : Z) : 0 < n -> Scraper.is_zero (of_int n) = false.
Proof.
  intros Hn. destruct n as [|p|p]; try lia.
  unfold of_int, binary_normalize, binary_round, shl_align.
  set (d := Z.pos (digits2_pos p)).
  assert (Hf : fexp prec emax (d + 0) = d - 53)
    by (unfold fexp, emin, prec, emax; subst d; lia).
  rewrite Hf.
  destruct (d - 53 - 0) as [|k|k] eqn:Ek;
    apply binary_round_aux_nonzero; unfold EMIN; subst d; lia.
Qed.

End IntToFloat.

(* ================================================================== *)
(** ** The model on examples of the interpreter *)
(* ================================================================== *)

Module ModelExamples.
Import PyStr PyFloat Scraper.

Local Open Scope N_scope.

(** ["aaaaa".replace("aa", "b")], ["abc".replace("", "-")],
    ["ababa aba".replace("aba", "X")]. *)
Example replace_examples :
  replace (lit "aa") (lit "b") (lit "aaaaa") = lit "bba"
  /\ replace [] (lit "-") (lit "abc") = lit "-a-b-c-"
  /\ replace (lit "aba") (lit "X") (lit "ababa aba") = lit "Xba X".
Proof. repeat split; vm_compute; reflexivity. Qed.

(** [strip] removes tabs, line ends and no-break spaces as well as spaces,
    at the ends only. *)
Example strip_examples :
  strip ([9; 160] ++ lit " a b " ++ [10; 12288]) = lit "a b"
  /\ strip (lit "   ") = [].
Proof. repeat split; vm_compute; reflexivity. Qed.

(** The leftmost match wins and every part of it is as long as it can be. *)
Example search_examples :
  Re.search PRICE_RE (lit "1..2") = Some (lit "1.")
  /\ Re.search PRICE_RE (lit ".5") = Some (lit "5")
  /\ Re.search PRICE_RE (lit "from 12.5.3 to 14") = Some (lit "12.5")
  /\ Re.search PRICE_RE (lit "1,200") = Some (lit "1")
  /\ Re.search PRICE_RE (lit "n/a") = None.
Proof. repeat split; vm_compute; reflexivity. Qed.

(** [float] on strings: correct rounding, including the halfway case
    9007199254740993, the smallest subnormal, underflow and overflow; the
    grammar of signs, points, exponents, underscores and names; digits of
    other scripts. *)
Example py_float_examples :
  py_float (lit "0.1") = Some (Prim2SF 0.1)
  /\ py_float (lit "1e23") = Some (Prim2SF 1e23)
  /\ py_float (lit "9007199254740993") = Some (Prim2SF 9007199254740992)
  /\ py_float (lit "5e-324") = Some (Prim2SF 0x1p-1074)
  /\ py_float (lit "2.4703282292062327e-324") = Some (S754_zero false)
  /\ py_float (lit "1.7976931348623159e308") = Some (S754_infinity false)
  /\ py_float (lit " -1_0.5E+1 ") = Some (Prim2SF (-105))
  /\ py_float (lit "-Infinity") = Some (S754_infinity true)
  /\ py_float (lit "NaN") = Some S754_nan
  /\ py_float (lit "5.") = Some (Prim2SF 5)
  /\ py_float [1633; 1634; 46; 1637] = Some (Prim2SF 12.5)
  /\ py_float (lit ".") = None
  /\ py_float (lit "1__0") = None
  /\ py_float (lit "1e") = None
  /\ py_float (lit "0x10") = None
  /\ py_float (lit "") = None
  /\ py_float (lit "12" ++ [POUND]) = None.
Proof. repeat split; vm_compute; reflexivity. Qed.

End ModelExamples.

(* ================================================================== *)
(** ** The price parser and the aggregator *)
(* ================================================================== *)

Import PyStr PyStrFacts PyFloat PyFloatFacts Scraper.

Local Open Scope N_scope.

(** [clean_price] computes the function of the specification. *)
Lemma clean_price_parsePrice (s : str) : clean_price s = Spec.parsePrice s.
Proof.
  unfold clean_price, Spec.parsePrice.
  rewrite remove_char, ReFacts.search_price_re.
  destruct s as [|c s]; [reflexivity|].
  simpl is_empty at 1. cbv iota.
  set (cleaned := strip (List.filter (fun c => negb (c =? POUND)) (c :: s))).
  destruct (Spec.first_numeric_token cleaned) as [tok|] eqn:E.
  - rewrite (first_numeric_token_float cleaned tok E).
    destruct cleaned; [discriminate | reflexivity].
  - destruct cleaned; reflexivity.
Qed.

(** C1: [clean_price] is the parser of the specification (remove every
    pound sign, trim, fail on an empty rest, otherwise convert the first
    numeric token), and on the six fragments of the specification it returns
    12.50, 15.99, 20.0, nothing, nothing and 1.0. *)
Theorem clean_price_follows_spec :
  (forall s : str, clean_price s = Spec.parsePrice s)
  /\ clean_price (POUND :: lit "12.50") = Some (Prim2SF 12.50)
  /\ clean_price (POUND :: lit " 15.99") = Some (Prim2SF 15.99)
  /\ clean_price (lit "Price: " ++ POUND :: lit "20") = Some (Prim2SF 20.0)
  /\ clean_price [] = None
  /\ clean_price (lit "no price here") = None
  /\ clean_price (POUND :: lit "1,200") = Some (Prim2SF 1.0).
Proof.
  split; [exact clean_price_parsePrice|].
  repeat split; vm_compute; reflexivity.
Qed.

(** C10: [clean_price] returns on every string, and what it returns is
    nothing or a float that is not negative; [float] accepts whatever the
    search of the pattern matches, in any string, so the [ValueError] branch
    is never taken. *)
Theorem clean_price_total (s : str) :
  (clean_price s = None
   \/ exists v, clean_price s = Some v /\ nonneg v = true)
  /\ (forall t tok : str,
        Re.search PRICE_RE t = Some tok -> exists v, py_float tok = Some v).
Proof.
  split.
  - rewrite clean_price_parsePrice. unfold Spec.parsePrice.
    destruct (is_empty _); [now left|].
    destruct (Spec.first_numeric_token _) as [tok|]; [right | now left].
    exists (Spec.token_value tok). split; [reflexivity | apply token_value_nonneg].
  - intros t tok H. rewrite ReFacts.search_price_re in H.
    exists (Spec.token_value tok). exact (first_numeric_token_float t tok H).
Qed.

Lemma clean_price_total_witness :
  exists v, py_float (lit "12.50") = Some v.
Proof.
  exact (proj2 (clean_price_total (POUND :: lit "12.50"))
               (lit "12.50") (lit "12.50") eq_refl).
Defined.

(** C5: [calculate_average_price] returns no value on the empty list and,
    on any other list, the sum of the prices divided by their number; the
    division never fails; the average of 10.0, 20.0 and 30.0 is 20.0. *)
Theorem calculate_average_price_mean :
  calculate_average_price [] = Ok None
  /\ (forall (p : float) (ps : list float),
        calculate_average_price (p :: ps)
        = Ok (Some (div (py_sum (p :: ps))
                        (of_int (Z.of_nat (List.length (p :: ps)))))))
  /\ calculate_average_price [Prim2SF 10.0; Prim2SF 20.0; Prim2SF 30.0]
     = Ok (Some (Prim2SF 20.0)).
Proof.
  split; [reflexivity|]. split; [|vm_compute; reflexivity].
  intros p ps. unfold calculate_average_price, truediv.
  rewrite IntToFloat.of_int_nonzero by (simpl List.length; lia).
  reflexivity.
Qed.

(** Neither the base address nor the name of the parameter has a space. *)
Lemma url_prefix_no_space : ~ In SPACE (BASE_URL ++ lit "?search_text=").
Proof.
  intros H. apply (In_nth_error) in H as [n H].
  assert (Hall : forallb (fun c => negb (c =? SPACE)) (BASE_URL ++ lit "?search_text=") = true)
    by (vm_compute; reflexivity).
  rewrite forallb_forall in Hall. apply nth_error_In in H.
  specialize (Hall SPACE H). rewrite N.eqb_refl in Hall. discriminate.
Qed.

(* ================================================================== *)
(** ** Computations: steps, events, results *)
(* ================================================================== *)

Module RunFacts.
Import Run Observe Notions.

(** A write and what follows it. *)
Lemma bind_write {B : Type} (ev : event) (k : unit -> M B) (st : state) :
  bind (write ev) k st
  = match out st (past st) ev with
    | None => let (t, r) := k tt (after [ev] st) in (ev :: t, r)
    | Some e => ([], Raise e)
    end.
Proof. unfold bind, write. now destruct (out st (past st) ev). Qed.

Lemma bind_tell {B : Type} (ev : event) (k : unit -> M B) (st : state) :
  bind (tell ev) k st = let (t, r) := k tt (after [ev] st) in (ev :: t, r).
Proof. reflexivity. Qed.

Lemma bind_call {A B : Type} (ev : event) (outcome : result A) (k : A -> M B)
      (st : state) :
  bind (call ev outcome) k st
  = match outcome with
    | Ok a => let (t, r) := k a (after [ev] st) in (ev :: t, r)
    | Raise e => ([ev], Raise e)
    end.
Proof. unfold bind, call. now destruct outcome. Qed.

Lemma bind_ret {A B : Type} (a : A) (k : A -> M B) (st : state) :
  bind (ret a) k st = let (t, r) := k a (after [] st) in (t, r).
Proof. reflexivity. Qed.

(** A console that shows everything: every write succeeds. *)
Lemma write_shown (ev : event) (st : state) :
  on_terminal st -> write ev st = ([ev], Ok tt).
Proof. intros H. unfold write. now rewrite H. Qed.

Lemma on_terminal_after (t : list event) (st : state) :
  on_terminal st -> on_terminal (after t st).
Proof. intros H. exact H. Qed.

Lemma prints_shown (ms : list message) : forall st,
  on_terminal st -> prints ms st = (List.map Print ms, Ok tt).
Proof.
  induction ms as [|m ms IH]; intros st H; [reflexivity|].
  cbn [prints List.map]. unfold print. rewrite bind_write, H.
  now rewrite (IH (after [Print m] st) (on_terminal_after _ st H)).
Qed.

(** What [prints] shows when it returns, and what it raises. *)
Lemma prints_spec (ms : list message) : forall st,
  match prints ms st with
  | (t, Ok _) => t = List.map Print ms
  | (t, Raise e) => refuses (out st) ms e
  end.
Proof.
  induction ms as [|m ms IH]; intros st; [reflexivity|].
  cbn [prints]. unfold print. rewrite bind_write.
  destruct (out st (past st) (Print m)) as [e|] eqn:E.
  - exists (past st), m. split; [now left | exact E].
  - specialize (IH (after [Print m] st)).
    destruct (prints ms (after [Print m] st)) as [t [u|e]].
    + now subst t.
    + destruct IH as (h & m' & Hin & Hm). exists h, m'. split; [now right | exact Hm].
Qed.

(** *** The events of a computation *)

Lemma all_ret {A : Type} (P : event -> bool) (a : A) : all_events P (ret a).
Proof. intros st. constructor. Qed.

Lemma all_raise {A : Type} (P : event -> bool) (e : exn) :
  all_events P (raise e : M A).
Proof. intros st. constructor. Qed.

Lemma all_pure {A : Type} (P : event -> bool) (r : result A) :
  all_events P ((fun _ => ([], r)) : M A).
Proof. intros st. constructor. Qed.

Lemma all_tell (P : event -> bool) (ev : event) :
  P ev = true -> all_events P (tell ev).
Proof. intros H st. repeat constructor. exact H. Qed.

Lemma all_write (P : event -> bool) (ev : event) :
  P ev = true -> all_events P (write ev).
Proof.
  intros H st. unfold write. destruct (out st (past st) ev); repeat constructor.
  exact H.
Qed.

Lemma all_print (P : event -> bool) (m : message) :
  P (Print m) = true -> all_events P (print m).
Proof. apply all_write. Qed.

Lemma all_print_exc (P : event -> bool) :
  P PrintExc = true -> all_events P print_exc.
Proof. apply all_write. Qed.

Lemma all_call {A : Type} (P : event -> bool) (ev : event) (r : result A) :
  P ev = true -> all_events P (call ev r).
Proof. intros H st. repeat constructor. exact H. Qed.

Lemma all_done {A : Type} (P : event -> bool) (r : list event * A) :
  Forall (fun ev => P ev = true) (fst r) -> all_events P (done r).
Proof. intros H st. exact H. Qed.

Lemma all_bind {A B : Type} (P : event -> bool) (m : M A) (k : A -> M B) :
  all_events P m -> (forall a, all_events P (k a)) -> all_events P (bind m k).
Proof.
  unfold all_events, bind. intros Hm Hk st. specialize (Hm st).
  destruct (m st) as [t [a|e]]; [|exact Hm].
  specialize (Hk a (after t st)). destruct (k a (after t st)) as [t' r].
  cbn [fst] in *. apply Forall_app. auto.
Qed.

Lemma all_prints (P : event -> bool) (ms : list message) :
  forallb (fun m => P (Print m)) ms = true -> all_events P (prints ms).
Proof.
  induction ms as [|m ms IH]; [intros _; apply all_ret|].
  cbn [forallb prints]. intros H. apply andb_true_iff in H as [H1 H2].
  apply all_bind; [now apply all_print | intros _; auto].
Qed.

Lemma all_try_except {A : Type} (P : event -> bool) (body : M A)
      (catches : exn -> bool) (handler : exn -> M A) :
  all_events P body -> (forall e, all_events P (handler e)) ->
  all_events P (try_except body catches handler).
Proof.
  unfold all_events, try_except. intros Hb Hh st. specialize (Hb st).
  destruct (body st) as [t [a|e]]; [exact Hb|].
  destruct (catches e); [|exact Hb].
  specialize (Hh e (after t st)). destruct (handler e (after t st)) as [t' r].
  cbn [fst] in *. apply Forall_app. auto.
Qed.

Lemma all_try_finally {A : Type} (P : event -> bool) (body : M A) (final : M unit) :
  all_events P body -> all_events P final -> all_events P (try_finally body final).
Proof.
  unfold all_events, try_finally. intros Hb Hf st. specialize (Hb st).
  destruct (body st) as [t r]. specialize (Hf (after t st)).
  destruct (final (after t st)) as [t' [u|e]]; cbn [fst] in *;
    apply Forall_app; auto.
Qed.

Create HintDb alphabet.

#[export] Hint Resolve all_ret all_raise all_pure : alphabet.

(** Splits a computation at its binds, handlers and tests; what is printed
    or called is checked by evaluation. *)
Ltac alphabet_step :=
  first
    [ solve [auto with alphabet]
    | apply all_bind | apply all_try_except | apply all_try_finally
    | apply all_tell; reflexivity | apply all_print; reflexivity
    | apply all_print_exc; reflexivity
    | apply all_call; reflexivity | apply all_prints; reflexivity
    | match goal with
      | |- all_events _ (if ?b then _ else _) => destruct b
      | |- all_events _ (match ?x with _ => _ end) => destruct x
      end ].

Ltac alphabet := intros; repeat (alphabet_step; intros); auto with alphabet.

(** *** What a computation returns and raises *)

Lemma yields_ret {A : Type} (Q : A -> Prop) (E : console -> exn -> Prop) (a : A) :
  Q a -> yields Q E (ret a).
Proof. intros H st. exact H. Qed.

Lemma yields_tell (Q : unit -> Prop) (E : console -> exn -> Prop) (ev : event) :
  Q tt -> yields Q E (tell ev).
Proof. intros H st. exact H. Qed.

Lemma yields_raise {A : Type} (Q : A -> Prop) (E : console -> exn -> Prop) (e : exn) :
  (forall o, E o e) -> yields Q E (raise e).
Proof. intros H st. apply H. Qed.

Lemma yields_call {A : Type} (Q : A -> Prop) (E : console -> exn -> Prop)
      (ev : event) (r : result A) :
  match r with Ok a => Q a | Raise e => forall o, E o e end ->
  yields Q E (call ev r).
Proof. intros H st. cbn. destruct r; [exact H | apply H]. Qed.

Lemma yields_done {A : Type} (Q : A -> Prop) (E : console -> exn -> Prop)
      (r : list event * A) :
  Q (snd r) -> yields Q E (done r).
Proof. intros H st. exact H. Qed.

Lemma yields_write (Q : unit -> Prop) (E : console -> exn -> Prop) (ev : event) :
  Q tt -> (forall o h e, o h ev = Some e -> E o e) -> yields Q E (write ev).
Proof.
  intros HQ HE st. unfold write.
  destruct (out st (past st) ev) as [e|] eqn:Ho; cbn [snd]; [|exact HQ].
  exact (HE _ _ _ Ho).
Qed.

Lemma yields_bind {A B : Type} (R : A -> Prop) (Q : B -> Prop)
      (E : console -> exn -> Prop) (m : M A) (k : A -> M B) :
  yields R E m -> (forall a, R a -> yields Q E (k a)) -> yields Q E (bind m k).
Proof.
  unfold yields, bind. intros Hm Hk st. specialize (Hm st).
  destruct (m st) as [t [a|e]]; cbn [snd] in *; [|exact Hm].
  specialize (Hk a Hm (after t st)). now destruct (k a (after t st)) as [t' r].
Qed.

Lemma yields_try_except {A : Type} (Q : A -> Prop) (E' E : console -> exn -> Prop)
      (body : M A) (catches : exn -> bool) (handler : exn -> M A) :
  yields Q E' body ->
  (forall e, catches e = true -> yields Q E (handler e)) ->
  (forall o e, E' o e -> catches e = false -> E o e) ->
  yields Q E (try_except body catches handler).
Proof.
  unfold yields, try_except. intros Hb Hh He st. specialize (Hb st).
  destruct (body st) as [t [a|e]]; cbn [snd] in *; [exact Hb|].
  destruct (catches e) eqn:Ec; cbn [snd]; [|now apply He].
  specialize (Hh e Ec (after t st)). now destruct (handler e (after t st)).
Qed.

Lemma yields_weaken {A : Type} (Q Q' : A -> Prop) (E E' : console -> exn -> Prop)
      (m : M A) :
  yields Q E m -> (forall a, Q a -> Q' a) -> (forall o e, E o e -> E' o e) ->
  yields Q' E' m.
Proof.
  intros H HQ HE st. specialize (H st). destruct (snd (m st)); auto.
Qed.

End RunFacts.

(* ================================================================== *)
(** ** The input loop *)
(* ================================================================== *)

Module InputFacts.
Import Run Observe Notions RunFacts.

(** The keys of the menu are the entries 1 to 5, its values the labels. *)
Lemma lookup_menu (choice : str) :
  match lookup choice condition_menu with
  | Some condition => one_to_five choice = true /\ In condition CONDITION_LABELS
  | None => one_to_five choice = false
  end.
Proof.
  unfold condition_menu, one_to_five, CONDITION_LABELS. cbn [lookup existsb].
  destruct (eqb_str choice (lit "1")); [split; [reflexivity | cbn [In]; tauto]|].
  destruct (eqb_str choice (lit "2")); [split; [reflexivity | cbn [In]; tauto]|].
  destruct (eqb_str choice (lit "3")); [split; [reflexivity | cbn [In]; tauto]|].
  destruct (eqb_str choice (lit "4")); [split; [reflexivity | cbn [In]; tauto]|].
  destruct (eqb_str choice (lit "5")); [split; [reflexivity | cbn [In]; tauto]|].
  reflexivity.
Qed.

Lemma rejected_all_cons (line : str) (lines : list str) :
  rejected_all (line :: lines)
  = negb (one_to_five (strip line)) && rejected_all lines.
Proof. reflexivity. Qed.

Lemma rejected_all_app (a b : list str) :
  rejected_all (a ++ b) = rejected_all a && rejected_all b.
Proof. apply forallb_app. Qed.

(** The loop passes over the entries that are not 1 to 5, showing the
    message and the prompt again for each, and stops at the first entry that
    is.  It raises when [input] does, on a call that fails or at the end of
    the input, and when the message cannot be printed. *)
Lemma choose_condition_spec (lines : list (result str)) : forall st,
  match choose_condition lines st with
  | (trace, Ok condition) =>
      exists rejected accepted rest,
        lines = List.map Ok (rejected ++ [accepted]) ++ rest
        /\ rejected_all rejected = true
        /\ lookup (strip accepted) condition_menu = Some condition
        /\ trace = reprompts rejected ++ [Input CHOICE_PROMPT]
  | (trace, Raise e) =>
      (exists rejected,
          rejected_all rejected = true
          /\ (lines = List.map Ok rejected /\ e = EOFError
              \/ exists rest, lines = List.map Ok rejected ++ Raise e :: rest))
      \/ refuses (out st) [INVALID_INPUT] e
  end.
Proof.
  induction lines as [|[line|x] lines IH]; intros st.
  - left. exists []. repeat split. now left.
  - cbn [choose_condition]. rewrite bind_call.
    pose proof (lookup_menu (strip line)) as Hm.
    destruct (lookup (strip line) condition_menu) as [condition|] eqn:El.
    + exists [], line, lines. repeat split. exact El.
    + unfold print. rewrite bind_write.
      destruct (out (after [Input CHOICE_PROMPT] st) _ (Print INVALID_INPUT))
        as [e|] eqn:Eo.
      * right. eexists _, INVALID_INPUT. split; [now left | exact Eo].
      * specialize (IH (after [Print INVALID_INPUT] (after [Input CHOICE_PROMPT] st))).
        destruct (choose_condition lines _) as [trace [condition|e]].
        -- destruct IH as (rejected & accepted & rest & -> & Hr & Ha & ->).
           exists (line :: rejected), accepted, rest. repeat split; try assumption.
           rewrite rejected_all_cons, Hm, Hr. reflexivity.
        -- destruct IH as [(rejected & Hr & Hl)|Href]; [left | right; exact Href].
           exists (line :: rejected). split.
           ++ rewrite rejected_all_cons, Hm, Hr. reflexivity.
           ++ destruct Hl as [[-> ->]|[rest ->]]; [now left | right; now exists rest].
  - left. exists []. split; [reflexivity|]. right. now exists lines.
Qed.

Lemma strip_no_surrounding_space (s : str) : surrounding_space (strip s) = false.
Proof.
  unfold surrounding_space.
  destruct (strip s) as [|c r] eqn:E; [reflexivity|].
  destruct (rev (c :: r)) as [|d t] eqn:Er; [reflexivity|].
  rewrite (PyStrFacts.trim_head isspace s r c E).
  apply (f_equal (@rev char)) in Er. rewrite rev_involutive in Er. cbn in Er.
  rewrite Er in E. now rewrite (PyStrFacts.trim_last isspace s (rev t) d E).
Qed.

End InputFacts.

(* ================================================================== *)
(** ** The run: input, extraction, outcome *)
(* ================================================================== *)

Import Run Observe Notions RunFacts InputFacts.

(** A write in a sequence: the console shows it and the sequence goes on,
    or refuses it and the sequence raises. *)
Ltac write_step :=
  unfold print; rewrite bind_write;
  match goal with
  | |- context [match out ?st ?h ?ev with _ => _ end] =>
      let E := fresh "Eo" in destruct (out st h ev) eqn:E
  end.

Ltac refused_by m :=
  right; eexists _, m; split; [cbn; tauto | eassumption].

(** [get_user_input] on any input and any console. *)
Lemma get_user_input_spec (lines : list (result str)) (st : state) :
  match get_user_input lines st with
  | (trace, Ok (brand, description, condition)) =>
      exists line1 line2 rejected accepted rest,
        lines = List.map Ok (line1 :: line2 :: rejected ++ [accepted]) ++ rest
        /\ rejected_all rejected = true
        /\ one_to_five (strip accepted) = true
        /\ In condition CONDITION_LABELS
        /\ brand = strip line1 /\ description = strip line2
        /\ surrounding_space brand = false
        /\ surrounding_space description = false
        /\ trace = preamble ++ reprompts rejected ++ [Input CHOICE_PROMPT]
  | (trace, Raise e) =>
      (exists read,
          rejected_all (skipn 2 read) = true
          /\ (lines = List.map Ok read /\ e = EOFError
              \/ exists rest, lines = List.map Ok read ++ Raise e :: rest))
      \/ refuses (out st) input_messages e
  end.
Proof.
  unfold get_user_input.
  write_step; [refused_by RULE|].
  write_step; [refused_by TITLE|].
  write_step; [refused_by RULE|].
  destruct lines as [|[line1|x] lines]; cbn [input]; rewrite bind_call;
    [left; exists []; split; [reflexivity | now left]
    | | left; exists []; split; [reflexivity | right; now exists lines]].
  destruct lines as [|[line2|x] lines]; cbn [input]; rewrite bind_call;
    [left; exists [line1]; split; [reflexivity | now left]
    | | left; exists [line1]; split; [reflexivity | right; now exists lines]].
  write_step; [refused_by SELECT_CONDITION|].
  unfold bind at 1.
  match goal with |- context [prints menu_lines ?s] =>
    pose proof (prints_spec menu_lines s) as Hp;
    destruct (prints menu_lines s) as [tp [u|e]]
  end.
  - subst tp.
    match goal with |- context [bind (choose_condition lines) _ ?s] =>
      unfold bind; pose proof (choose_condition_spec lines s) as Hc;
      destruct (choose_condition lines s) as [tc [condition|e]]
    end.
    + destruct Hc as (rejected & accepted & rest & -> & Hr & Ha & ->).
      pose proof (lookup_menu (strip accepted)) as Hm. rewrite Ha in Hm.
      exists line1, line2, rejected, accepted, rest.
      repeat split; try tauto; try apply strip_no_surrounding_space.
      unfold preamble. cbn [app List.map]. now rewrite app_nil_r.
    + destruct Hc as [(rejected & Hr & Hl)|(h & m & Hin & Hm)].
      * left. exists (line1 :: line2 :: rejected). split; [exact Hr|].
        destruct Hl as [[-> ->]|[rest ->]]; [now left | right; now exists rest].
      * right. exists h, m. split; [|exact Hm].
        destruct Hin as [<-|[]]. cbn. tauto.
  - destruct Hp as (h & m & Hin & Hm). right. exists h, m. split; [|exact Hm].
    unfold input_messages. apply in_or_app. now right.
Qed.

(** C9: [get_user_input] returns exactly when an entry whose trimmed text
    is one of 1 to 5 is typed after the brand and the description.  Every
    entry before it is answered with the invalid-input message and a new
    prompt; the condition returned is one of the five labels, and the brand
    and the description returned are the trimmed lines, which have no white
    space at either end.  When the input ends before a valid entry, [input]
    raises [EOFError] and nothing is returned.  This holds on a console that
    shows every line, for the lines that are typed; and for any input and any
    console the same holds of every return, while nothing is returned when a
    call of [input] raises or a line cannot be printed. *)
Theorem get_user_input_valid :
  (forall (typed : list str) (st : state),
      on_terminal st ->
      match get_user_input (List.map Ok typed) st with
      | (trace, Ok (brand, description, condition)) =>
          exists line1 line2 rejected accepted rest,
            typed = line1 :: line2 :: rejected ++ accepted :: rest
            /\ rejected_all rejected = true
            /\ one_to_five (strip accepted) = true
            /\ In condition CONDITION_LABELS
            /\ brand = strip line1 /\ description = strip line2
            /\ surrounding_space brand = false
            /\ surrounding_space description = false
            /\ trace = preamble ++ reprompts rejected ++ [Input CHOICE_PROMPT]
      | (trace, Raise e) =>
          e = EOFError /\ rejected_all (skipn 2 typed) = true
      end)
  /\ (forall (lines : list (result str)) (st : state),
        match get_user_input lines st with
        | (trace, Ok (brand, description, condition)) =>
            exists line1 line2 rejected accepted rest,
              lines = List.map Ok (line1 :: line2 :: rejected ++ [accepted]) ++ rest
              /\ rejected_all rejected = true
              /\ one_to_five (strip accepted) = true
              /\ In condition CONDITION_LABELS
              /\ brand = strip line1 /\ description = strip line2
              /\ surrounding_space brand = false
              /\ surrounding_space description = false
              /\ trace = preamble ++ reprompts rejected ++ [Input CHOICE_PROMPT]
        | (trace, Raise e) =>
            (exists read,
                rejected_all (skipn 2 read) = true
                /\ (lines = List.map Ok read /\ e = EOFError
                    \/ exists rest, lines = List.map Ok read ++ Raise e :: rest))
            \/ refuses (out st) input_messages e
        end).
Proof.
  split; [|exact get_user_input_spec].
  intros typed st Hst. pose proof (get_user_input_spec (List.map Ok typed) st) as H.
  assert (Hinj : forall a b : list str, List.map (@Ok str) a = List.map Ok b -> a = b).
  { induction a as [|x a IH]; intros [|y b] E; try discriminate; [reflexivity|].
    cbn in E. injection E as -> E. f_equal. now apply IH. }
  destruct (get_user_input (List.map Ok typed) st)
    as [trace [[[brand description] condition]|e]].
  - destruct H as (line1 & line2 & rejected & accepted & rest & Hl & H).
    assert (exists rest', rest = List.map Ok rest' ) as [rest' ->].
    { clear -Hl. revert typed Hl.
      generalize (line1 :: line2 :: rejected ++ [accepted]) as pre.
      induction pre as [|x pre IH]; intros typed Hl.
      - exists typed. now cbn in Hl.
      - destruct typed as [|y typed]; [discriminate|].
        cbn in Hl. injection Hl as _ Hl. exact (IH typed Hl). }
    rewrite <- List.map_app in Hl. apply Hinj in Hl.
    exists line1, line2, rejected, accepted, rest'. split; [|exact H].
    rewrite Hl. cbn [app]. now rewrite <- app_assoc.
  - destruct H as [(read & Hr & [[Hl ->]|[rest Hl]])|(h & m & _ & Hm)].
    + apply Hinj in Hl. subst read. now split.
    + exfalso. clear -Hl. revert typed Hl.
      induction read as [|x read IH]; intros [|y typed] Hl; try discriminate.
      cbn in Hl. injection Hl as _ Hl. exact (IH typed Hl).
    + rewrite Hst in Hm. discriminate.
Qed.

Lemma get_user_input_valid_witness :
  exists line1 line2 rejected accepted rest,
    typed = line1 :: line2 :: rejected ++ accepted :: rest
    /\ rejected_all rejected = true
    /\ one_to_five (strip accepted) = true
    /\ In (lit "Very Good") CONDITION_LABELS
    /\ lit "Nike" = strip line1 /\ lit "Air Force 1" = strip line2
    /\ surrounding_space (lit "Nike") = false
    /\ surrounding_space (lit "Air Force 1") = false
    /\ fst (get_user_input (List.map Ok typed) at_terminal)
       = preamble ++ reprompts rejected ++ [Input CHOICE_PROMPT].
Proof.
  exact (proj1 get_user_input_valid typed at_terminal (fun _ _ => eq_refl)).
Defined.

(* ================================================================== *)
(** ** The extraction *)
(* ================================================================== *)

Module ExtractFacts.
Import Run Observe Notions RunFacts.

Lemma fragments_cons (element : WebElement) (elements : list WebElement) :
  fragments (element :: elements)
  = (if is_empty (strip (visible_text element)) then []
     else [strip (visible_text element)]) ++ fragments elements.
Proof.
  unfold fragments. cbn [List.map List.filter].
  destruct (is_empty (strip (visible_text element))); reflexivity.
Qed.

(** The loop over the elements appends the trimmed non-empty texts of the
    elements before the first whose text cannot be read, and ends without an
    exception exactly when every text can be read. *)
Lemma read_prices_spec (elements : list WebElement) : forall prices,
  fst (read_prices elements prices)
  = prices ++ fragments (read_before_failure elements)
  /\ (snd (read_prices elements prices) = None
      <-> forallb readable elements = true).
Proof.
  induction elements as [|element elements IH]; intros prices.
  - cbn. rewrite app_nil_r. now split.
  - cbn [read_prices read_before_failure forallb].
    destruct (text element) as [t|e] eqn:Et.
    + assert (Hr : readable element = true) by (unfold readable; now rewrite Et).
      rewrite Hr. cbn [andb].
      destruct (IH (if is_empty (strip t) then prices else prices ++ [strip t]))
        as [-> Hs].
      rewrite fragments_cons. unfold visible_text. rewrite Et.
      split; [|exact Hs].
      destruct (is_empty (strip t)); [reflexivity | now rewrite <- app_assoc].
    + assert (Hr : readable element = false) by (unfold readable; now rewrite Et).
      rewrite Hr. cbn. rewrite app_nil_r. split; [reflexivity|]. split; discriminate.
Qed.

Lemma read_before_failure_all (elements : list WebElement) :
  forallb readable elements = true -> read_before_failure elements = elements.
Proof.
  induction elements as [|element elements IH]; [reflexivity|].
  cbn [forallb read_before_failure]. intros H.
  apply andb_true_iff in H as [-> H]. now rewrite IH.
Qed.

(** When every text can be read, the loop over the elements appends their
    trimmed non-empty texts and ends without an exception. *)
Lemma read_prices_readable (elements : list WebElement) :
  forallb readable elements = true ->
  forall prices, read_prices elements prices = (prices ++ fragments elements, None).
Proof.
  intros Hr prices. destruct (read_prices_spec elements prices) as [H1 H2].
  destruct (read_prices elements prices) as [prices' x]. cbn [fst snd] in *.
  rewrite read_before_failure_all in H1 by assumption.
  now rewrite H1, (proj2 H2 Hr).
Qed.

(** A rule that matches nothing is passed over. *)
Lemma structural_search_skip (driver : WebDriver) (pattern : str)
      (rest prices : list str) :
  no_match driver pattern ->
  structural_search driver (pattern :: rest) prices
  = (FindElements CSS_SELECTOR pattern :: fst (structural_search driver rest prices),
     snd (structural_search driver rest prices)).
Proof.
  unfold no_match, matches. intros H. cbn [structural_search].
  destruct (find_elements driver CSS_SELECTOR pattern) as [elements|e].
  - subst elements. now destruct (structural_search driver rest prices).
  - now destruct (structural_search driver rest prices).
Qed.

(** A rule that matches ends the search when all its texts can be read;
    otherwise the texts read stay and the search goes on. *)
Lemma structural_search_match (driver : WebDriver) (pattern : str)
      (rest prices : list str) :
  matches driver pattern <> [] ->
  structural_search driver (pattern :: rest) prices
  = if forallb readable (matches driver pattern)
    then ([FindElements CSS_SELECTOR pattern],
          prices ++ fragments (matches driver pattern))
    else
      let prices' := prices ++ fragments (read_before_failure (matches driver pattern)) in
      (FindElements CSS_SELECTOR pattern :: fst (structural_search driver rest prices'),
       snd (structural_search driver rest prices')).
Proof.
  unfold matches. intros H. cbn [structural_search].
  destruct (find_elements driver CSS_SELECTOR pattern) as [[|e els]|x];
    try contradiction.
  destruct (read_prices_spec (e :: els) prices) as [H1 H2].
  destruct (read_prices (e :: els) prices) as [prices' [x|]]; cbn [fst snd] in *.
  - destruct (forallb readable (e :: els)).
    + destruct H2 as [_ H2]. specialize (H2 eq_refl). discriminate.
    + cbv zeta. rewrite <- H1. now destruct (structural_search driver rest prices').
  - rewrite (proj1 H2 eq_refl), H1, read_before_failure_all; [reflexivity|].
    exact (proj1 H2 eq_refl).
Qed.

(** The loop computes the search as the words have it. *)
Lemma structural_search_spec (driver : WebDriver) (patterns : list str) :
  forall prices,
    structural_search driver patterns prices
    = (List.map (FindElements CSS_SELECTOR) (fst (first_match_search driver patterns)),
       prices ++ snd (first_match_search driver patterns)).
Proof.
  induction patterns as [|p patterns IH]; intros prices.
  - cbn. now rewrite app_nil_r.
  - cbn [first_match_search]. destruct (matches driver p) as [|e els] eqn:Em.
    + rewrite structural_search_skip by exact Em. rewrite IH.
      cbn [is_empty_list negb andb].
      destruct (first_match_search driver patterns) as [looked texts].
      reflexivity.
    + rewrite structural_search_match by (rewrite Em; discriminate).
      rewrite Em. cbn [is_empty_list negb andb].
      destruct (forallb readable (e :: els)); [reflexivity|].
      cbv zeta. rewrite IH.
      destruct (first_match_search driver patterns) as [looked texts].
      cbn [fst snd List.map]. now rewrite <- app_assoc.
Qed.

(** The first rule that matches ends the search: the rules after it are not
    looked up, and the texts of its elements are what the search adds. *)
Lemma structural_search_found (driver : WebDriver) (before : list str) :
  forall (pattern : str) (after prices : list str),
    Forall (no_match driver) before ->
    matches driver pattern <> [] ->
    forallb readable (matches driver pattern) = true ->
    structural_search driver (before ++ pattern :: after) prices
    = (List.map (FindElements CSS_SELECTOR) (before ++ [pattern]),
       prices ++ fragments (matches driver pattern)).
Proof.
  induction before as [|p before IH]; intros pattern after prices Hb Hm Hr.
  - cbn [app List.map]. now rewrite structural_search_match, Hr.
  - inversion Hb as [|? ? Hp Hb']; subst.
    cbn [app]. rewrite structural_search_skip by assumption.
    now rewrite IH.
Qed.

(** The first rule that matches does not end the search when one of its
    texts cannot be read. *)
Lemma structural_search_unreadable (driver : WebDriver) (before : list str) :
  forall (pattern : str) (after prices : list str),
    Forall (no_match driver) before ->
    matches driver pattern <> [] ->
    forallb readable (matches driver pattern) = false ->
    structural_search driver (before ++ pattern :: after) prices
    = (List.map (FindElements CSS_SELECTOR) (before ++ [pattern])
         ++ fst (structural_search driver after
                   (prices ++ fragments (read_before_failure (matches driver pattern)))),
       snd (structural_search driver after
              (prices ++ fragments (read_before_failure (matches driver pattern))))).
Proof.
  induction before as [|p before IH]; intros pattern after prices Hb Hm Hr.
  - cbn [app List.map]. now rewrite structural_search_match, Hr.
  - inversion Hb as [|? ? Hp Hb']; subst.
    cbn [app]. rewrite structural_search_skip by assumption.
    now rewrite IH.
Qed.

Lemma structural_search_nothing (driver : WebDriver) (patterns prices : list str) :
  Forall (no_match driver) patterns ->
  structural_search driver patterns prices
  = (List.map (FindElements CSS_SELECTOR) patterns, prices).
Proof.
  induction 1 as [|p patterns Hp _ IH]; [reflexivity|].
  rewrite structural_search_skip by assumption. now rewrite IH.
Qed.

Lemma no_structural_match_iff (driver : WebDriver) :
  no_structural_match driver = true <-> Forall (no_match driver) price_patterns.
Proof.
  unfold no_structural_match. rewrite forallb_forall, Forall_forall.
  unfold no_match. split; intros H p Hp; specialize (H p Hp);
    destruct (matches driver p); try reflexivity; discriminate.
Qed.

(** The structural search looks up style selectors only. *)
Lemma structural_search_lookups (driver : WebDriver) (patterns : list str) :
  forall prices,
    existsb is_content_lookup (fst (structural_search driver patterns prices)) = false.
Proof.
  intros prices. rewrite structural_search_spec. cbn [fst].
  induction (fst (first_match_search driver patterns)) as [|p ps IH]; [reflexivity|].
  exact IH.
Qed.

(** The content rule starts with its lookup. *)
Lemma content_search_lookup (driver : WebDriver) (prices : list str) (st : state) :
  exists trace, fst (content_search driver prices st)
                = FindElements XPATH POUND_XPATH :: trace.
Proof.
  unfold content_search. rewrite bind_tell.
  match goal with |- context [let (t, r) := ?m in _] => destruct m as [t r] end.
  now exists t.
Qed.

Lemma content_lookup_true :
  is_content_lookup (FindElements XPATH POUND_XPATH) = true.
Proof. unfold is_content_lookup. apply PyStrFacts.eqb_str_true_refl. Qed.

(** The events of the extraction: the structural lookups, those of the
    content rule when nothing was collected, and the count that is printed. *)
Lemma extract_prices_trace (driver : WebDriver) (st : state) :
  exists rest,
    fst (extract_prices driver st)
    = fst (structural_search driver price_patterns []) ++ rest
    /\ existsb is_content_lookup rest
       = is_empty_list (snd (structural_search driver price_patterns [])).
Proof.
  unfold extract_prices, bind at 1, done.
  destruct (structural_search driver price_patterns []) as [t prices].
  cbn [fst snd]. unfold bind at 1.
  destruct prices as [|price prices]; cbn [is_empty_list].
  - destruct (content_search_lookup driver [] (after t st)) as [trace Ht].
    destruct (content_search driver [] (after t st)) as [t' [ps|e]];
      cbn [fst] in Ht; subst t'.
    + match goal with |- context [bind (print ?m) ?k ?s] =>
        destruct (bind (print m) k s) as [t2 r2] end.
      eexists. split; [reflexivity|]. cbn [app existsb].
      now rewrite content_lookup_true.
    + eexists. split; [reflexivity|]. cbn [existsb].
      now rewrite content_lookup_true.
  - unfold ret at 1. unfold print. rewrite bind_write.
    destruct (out _ _ _); eexists; (split; [reflexivity|]); reflexivity.
Qed.

(** The content rule is looked up exactly when the structural search has
    collected nothing. *)
Lemma content_rule_iff_nothing_collected (driver : WebDriver) (st : state) :
  content_rule_attempted driver st = true
  <-> snd (structural_search driver price_patterns []) = [].
Proof.
  unfold content_rule_attempted.
  destruct (extract_prices_trace driver st) as (rest & -> & Hr).
  rewrite existsb_app, structural_search_lookups, Hr. cbn [orb].
  destruct (snd (structural_search driver price_patterns [])); cbn [is_empty_list];
    split; (reflexivity || discriminate).
Qed.

End ExtractFacts.

Import ExtractFacts.

(** C2, as the claim states it, fails: on [stale_driver] the first rule
    matches two elements and the text of the second cannot be read; the
    search does not end there, and the second rule adds its text to the text
    read from the first. *)
Lemma stale_text_breaks_first_match : ~ first_match_semantics stale_driver.
Proof.
  intros H.
  specialize (H [] (lit "[class*='price']") (skipn 1 price_patterns) eq_refl
                (Forall_nil _) ltac:(vm_compute; discriminate)).
  vm_compute in H. discriminate.
Qed.

(** The run of the search on [stale_driver]: the text read before the
    failure stays in the list, and the next rule is looked up. *)
Example unreadable_text_continues_search :
  structural_search stale_driver price_patterns []
  = ([FindElements CSS_SELECTOR (lit "[class*='price']");
      FindElements CSS_SELECTOR (lit "[data-testid*='price']")],
     [POUND :: lit "5"; POUND :: lit "7"]).
Proof. vm_compute; reflexivity. Qed.

(** C2, amended: the structural rules are tried in the order of
    [price_patterns], and a rule that matches nothing is passed over.  When
    the texts of the elements of the first rule that matches can all be
    read, that rule ends the search: the rules after it are not looked up,
    and the result is the list of the trimmed non-empty texts of the
    elements of that one rule.  When one of those texts cannot be read, the
    texts read before it are kept and the search goes on with the rules
    after it in the same way.  When no rule matches, all rules are looked up
    and the result is empty.  In all cases the loop computes the search so
    described, [first_match_search]. *)
Theorem structural_search_first_match (driver : WebDriver) :
  (forall (before : list str) (pattern : str) (after : list str),
      price_patterns = before ++ pattern :: after ->
      Forall (no_match driver) before ->
      matches driver pattern <> [] ->
      forallb readable (matches driver pattern) = true ->
      structural_search driver price_patterns []
      = (List.map (FindElements CSS_SELECTOR) (before ++ [pattern]),
         fragments (matches driver pattern)))
  /\ (forall (before : list str) (pattern : str) (after : list str),
        price_patterns = before ++ pattern :: after ->
        Forall (no_match driver) before ->
        matches driver pattern <> [] ->
        forallb readable (matches driver pattern) = false ->
        let read := fragments (read_before_failure (matches driver pattern)) in
        structural_search driver price_patterns []
        = (List.map (FindElements CSS_SELECTOR) (before ++ [pattern])
             ++ fst (structural_search driver after read),
           snd (structural_search driver after read)))
  /\ (Forall (no_match driver) price_patterns ->
      structural_search driver price_patterns []
      = (List.map (FindElements CSS_SELECTOR) price_patterns, []))
  /\ (forall patterns prices : list str,
        structural_search driver patterns prices
        = (List.map (FindElements CSS_SELECTOR)
                    (fst (first_match_search driver patterns)),
           prices ++ snd (first_match_search driver patterns))).
Proof.
  split; [|split; [|split]].
  - intros before pattern after Hp Hb Hm Hr. rewrite Hp.
    now apply (structural_search_found driver before pattern after []).
  - intros before pattern after Hp Hb Hm Hr read. rewrite Hp.
    now apply (structural_search_unreadable driver before pattern after []).
  - apply structural_search_nothing.
  - apply structural_search_spec.
Qed.

Lemma structural_search_first_match_witness :
  structural_search second_rule_page price_patterns []
  = ([FindElements CSS_SELECTOR (lit "[class*='price']");
      FindElements CSS_SELECTOR (lit "[data-testid*='price']")],
     [POUND :: lit "9.99"; POUND :: lit "10.00"]).
Proof.
  refine (proj1 (structural_search_first_match second_rule_page)
                [lit "[class*='price']"] (lit "[data-testid*='price']")
                (skipn 2 price_patterns) _ _ _ _).
  - reflexivity.
  - repeat constructor.
  - vm_compute; discriminate.
  - vm_compute; reflexivity.
Defined.

(** C4, as the claim states it, fails: on [blank_match_page] the first rule
    matches an element, and the content rule is looked up all the same,
    because the text of that element is blank. *)
Lemma content_rule_after_blank_match :
  ~ (content_rule_attempted blank_match_page at_terminal = true
     <-> no_structural_match blank_match_page = true).
Proof.
  intros [H _]. specialize (H ltac:(vm_compute; reflexivity)).
  vm_compute in H. discriminate.
Qed.

(** C4, amended: the content rule is looked up if and only if the
    structural search has collected no text, on any console.  It is looked
    up when no structural rule matches an element.  It is not looked up when
    the first rule that matches gives a text that is not empty.  When the
    texts of the elements of the first rule that matches can all be read, it
    is looked up exactly when those elements have no text but white space.
    When one of those texts cannot be read, the search goes on, and what
    counts is the texts collected as [first_match_search] describes them. *)
Theorem content_rule_iff_no_fragment (driver : WebDriver) (st : state) :
  (content_rule_attempted driver st = true
   <-> snd (structural_search driver price_patterns []) = [])
  /\ (content_rule_attempted driver st = true
      <-> snd (first_match_search driver price_patterns) = [])
  /\ (forall (before : list str) (pattern : str) (after : list str),
        price_patterns = before ++ pattern :: after ->
        Forall (no_match driver) before ->
        matches driver pattern <> [] ->
        forallb readable (matches driver pattern) = true ->
        (content_rule_attempted driver st = true
         <-> fragments (matches driver pattern) = []))
  /\ (forall (before : list str) (pattern : str) (after : list str),
        price_patterns = before ++ pattern :: after ->
        Forall (no_match driver) before ->
        matches driver pattern <> [] ->
        fragments (read_before_failure (matches driver pattern)) <> [] ->
        content_rule_attempted driver st = false)
  /\ (no_structural_match driver = true ->
      content_rule_attempted driver st = true).
Proof.
  pose proof (content_rule_iff_nothing_collected driver st) as H.
  split; [exact H|]. split; [|split; [|split]].
  - rewrite H, structural_search_spec. reflexivity.
  - intros before pattern after Hp Hb Hm Hr. rewrite H, Hp.
    now rewrite (structural_search_found driver before pattern after []).
  - intros before pattern after Hp Hb Hm Hf.
    destruct (content_rule_attempted driver st); [exfalso | reflexivity].
    pose proof (proj1 H eq_refl) as E. rewrite Hp in E.
    destruct (forallb readable (matches driver pattern)) eqn:Hr.
    + rewrite (structural_search_found driver before pattern after []) in E
        by assumption.
      rewrite read_before_failure_all in Hf by exact Hr. now apply Hf.
    + rewrite (structural_search_unreadable driver before pattern after []) in E
        by assumption.
      cbn [snd app] in E. rewrite structural_search_spec in E. cbn [snd] in E.
      apply app_eq_nil in E as [E _]. now apply Hf.
  - intros Hn. apply H. apply no_structural_match_iff in Hn.
    now rewrite structural_search_nothing.
Qed.

Lemma content_rule_iff_no_fragment_witness :
  content_rule_attempted blank_match_page at_terminal = true.
Proof.
  refine (proj2 (proj1 (proj2 (proj2
            (content_rule_iff_no_fragment blank_match_page at_terminal)))
            [] (lit "[class*='price']") (skipn 1 price_patterns) _ _ _ _) _).
  - reflexivity.
  - constructor.
  - vm_compute; discriminate.
  - vm_compute; reflexivity.
  - vm_compute; reflexivity.
Defined.

(* ================================================================== *)
(** ** Traces: the events of each part, and where a driver is released *)
(* ================================================================== *)

Module TraceFacts.
Import Run Observe Notions RunFacts.

Lemma all_weaken {A : Type} (P P' : event -> bool) (m : M A) :
  (forall ev, P ev = true -> P' ev = true) -> all_events P m -> all_events P' m.
Proof.
  intros HP H st. specialize (H st). rewrite Forall_forall in *. auto.
Qed.

Lemma input_alphabet_loop (lines : list (result str)) :
  all_events input_event (choose_condition lines).
Proof.
  induction lines as [|line lines IH]; cbn [choose_condition]; alphabet.
Qed.

#[local] Hint Resolve input_alphabet_loop : alphabet.

(** [get_user_input] prints its banner, its menu and its message, and
    prompts; it does nothing else. *)
Lemma input_alphabet (lines : list (result str)) :
  all_events input_event (get_user_input lines).
Proof.
  unfold get_user_input.
  destruct lines as [|line1 [|line2 lines]]; cbn [input]; alphabet.
Qed.

Lemma scrape_alphabet_wait_loop (driver : WebDriver) (selectors : list (By * str)) :
  all_events scrape_event (wait_for_price driver selectors).
Proof.
  induction selectors as [|[how selector] selectors IH];
    cbn [wait_for_price]; alphabet.
Qed.

#[local] Hint Resolve scrape_alphabet_wait_loop : alphabet.

Lemma scrape_alphabet_wait (driver : WebDriver) :
  all_events scrape_event (wait_for_content driver).
Proof. unfold wait_for_content. alphabet. Qed.

Lemma scrape_alphabet_structural (driver : WebDriver) (patterns prices : list str) :
  Forall (fun ev => scrape_event ev = true)
         (fst (structural_search driver patterns prices)).
Proof.
  rewrite ExtractFacts.structural_search_spec. cbn [fst].
  induction (fst (first_match_search driver patterns)); constructor; auto.
Qed.

Lemma scrape_alphabet_content (driver : WebDriver) (prices : list str) :
  all_events scrape_event (content_search driver prices).
Proof. unfold content_search. alphabet. Qed.

#[local] Hint Resolve scrape_alphabet_wait scrape_alphabet_content : alphabet.

Lemma scrape_alphabet_extract (driver : WebDriver) :
  all_events scrape_event (extract_prices driver).
Proof.
  unfold extract_prices. apply all_bind;
    [apply all_done, scrape_alphabet_structural | alphabet].
Qed.

#[local] Hint Resolve scrape_alphabet_extract : alphabet.

Lemma scrape_alphabet (driver : WebDriver) (url : str) :
  all_events scrape_event (scrape_vinted_prices driver url).
Proof. unfold scrape_vinted_prices. alphabet. Qed.

Lemma input_event_plain (ev : event) : input_event ev = true -> plain_event ev = true.
Proof. now destruct ev. Qed.

Lemma scrape_event_plain (ev : event) : scrape_event ev = true -> plain_event ev = true.
Proof. now destruct ev. Qed.

Lemma plain_get_user_input (lines : list (result str)) :
  all_events plain_event (get_user_input lines).
Proof. exact (all_weaken _ _ _ input_event_plain (input_alphabet lines)). Qed.

Lemma plain_scrape (driver : WebDriver) (url : str) :
  all_events plain_event (scrape_vinted_prices driver url).
Proof. exact (all_weaken _ _ _ scrape_event_plain (scrape_alphabet driver url)). Qed.

#[local] Hint Resolve plain_scrape : alphabet.

Lemma plain_report (driver : WebDriver) (brand description condition url : str) :
  all_events plain_event (report driver brand description condition url).
Proof. unfold report. alphabet. Qed.

Lemma plain_top_handler (e : exn) : all_events plain_event (top_handler e).
Proof. unfold top_handler. alphabet. Qed.

(** A trace without [Quit]. *)
Lemma plain_no_quit (trace : list event) :
  Forall (fun ev => plain_event ev = true) trace -> existsb is_Quit trace = false.
Proof.
  induction 1 as [|ev trace Hev _ IH]; [reflexivity|].
  cbn [existsb]. rewrite IH. unfold plain_event in Hev.
  apply andb_true_iff in Hev as [_ Hq]. apply negb_true_iff in Hq.
  now rewrite Hq.
Qed.

Lemma plain_no_acquire (trace : list event) :
  Forall (fun ev => plain_event ev = true) trace -> acquired trace = false.
Proof.
  unfold acquired. induction 1 as [|ev trace Hev _ IH]; [reflexivity|].
  cbn [existsb]. rewrite IH. unfold plain_event in Hev.
  apply andb_true_iff in Hev as [Ha _]. apply negb_true_iff in Ha.
  now rewrite Ha.
Qed.

Lemma existsb_rev {A : Type} (f : A -> bool) (l : list A) :
  existsb f (rev l) = existsb f l.
Proof.
  induction l as [|a l IH]; [reflexivity|].
  cbn [rev existsb]. rewrite existsb_app, IH. cbn [existsb].
  rewrite orb_false_r. apply orb_comm.
Qed.

(** The trace of a run in which the driver is released at the end. *)
Lemma released_at_exit_intro (before after : list event) :
  Forall (fun ev => plain_event ev = true) before ->
  Forall (fun ev => plain_event ev = true) after ->
  acquired (before ++ Acquire :: after ++ farewell) = true
  /\ released_at_exit (before ++ Acquire :: after ++ farewell) = true.
Proof.
  intros Hb Ha. unfold farewell. split.
  - unfold acquired. rewrite existsb_app. cbn [existsb is_Acquire].
    apply orb_true_r.
  - unfold released_at_exit.
    replace (before ++ Acquire :: after ++ [Print THANKS; Print SEE_YOU; Quit])
      with ((before ++ Acquire :: after ++ [Print THANKS; Print SEE_YOU]) ++ [Quit])
      by (rewrite <- !app_assoc; cbn [app]; rewrite <- !app_assoc; reflexivity).
    rewrite rev_app_distr. cbn [rev app].
    rewrite existsb_rev, existsb_app. cbn [existsb is_Quit].
    rewrite existsb_app. cbn [existsb is_Quit].
    now rewrite (plain_no_quit before Hb), (plain_no_quit after Ha).
Qed.

(** The trace of a run in which a driver is acquired and not released. *)
Lemma not_released_intro (before after : list event) :
  Forall (fun ev => plain_event ev = true) before ->
  Forall (fun ev => plain_event ev = true) after ->
  acquired (before ++ Acquire :: after) = true
  /\ existsb is_Quit (before ++ Acquire :: after) = false.
Proof.
  intros Hb Ha. split.
  - unfold acquired. rewrite existsb_app. cbn [existsb is_Acquire].
    apply orb_true_r.
  - rewrite existsb_app. cbn [existsb is_Quit].
    now rewrite (plain_no_quit before Hb), (plain_no_quit after Ha).
Qed.

(** The [finally] clause with a driver: the two lines and [driver.quit()],
    or, when the console refuses one of the lines, no call of
    [driver.quit()] at all. *)
Lemma finally_clause_spec (d : WebDriver) (st : state) :
  finally_clause (Some d) st = (farewell, quit d)
  \/ exists e t,
       finally_clause (Some d) st = (t, Raise e)
       /\ refuses (out st) [THANKS; SEE_YOU] e
       /\ Forall (fun ev => plain_event ev = true) t.
Proof.
  unfold finally_clause, print. rewrite bind_write.
  destruct (out st (past st) (Print THANKS)) as [e|] eqn:E1.
  - right. exists e, []. repeat split; [|constructor].
    exists (past st), THANKS. split; [now left | exact E1].
  - rewrite bind_write.
    destruct (out (after [Print THANKS] st) _ (Print SEE_YOU)) as [e|] eqn:E2.
    + right. exists e, [Print THANKS]. repeat split; [|repeat constructor].
      eexists _, SEE_YOU. split; [right; now left | exact E2].
    + left. reflexivity.
Qed.

(** The [try] statement of [main] when Chrome was launched: the driver is
    acquired first, and nothing after that acquires or releases one. *)
Lemma guarded_report_trace (w : world) (d : WebDriver)
      (brand description condition url : str) (st : state) :
  chrome w = Ok d ->
  exists t,
    fst (try_except
           (d <- setup_driver w true ;; report d brand description condition url)
           is_Exception top_handler st) = Acquire :: t
    /\ Forall (fun ev => plain_event ev = true) t.
Proof.
  intros Hc. unfold try_except, bind at 1, setup_driver. rewrite Hc. unfold call at 1.
  pose proof (plain_report d brand description condition url (after [Acquire] st)) as H1.
  destruct (report d brand description condition url (after [Acquire] st))
    as [t1 [u|e]]; cbn [fst app] in *.
  - now exists t1.
  - destruct (is_Exception e).
    + pose proof (plain_top_handler e (after (Acquire :: t1) st)) as H2.
      destruct (top_handler e (after (Acquire :: t1) st)) as [t2 r2].
      cbn [fst app] in *. exists (t1 ++ t2). split; [reflexivity|].
      apply Forall_app. now split.
    + now exists t1.
Qed.

(** The same when the launch of Chrome failed: no driver is acquired. *)
Lemma failed_launch_trace (w : world) (x : exn)
      (brand description condition url : str) (st : state) :
  chrome w = Raise x ->
  Forall (fun ev => plain_event ev = true)
    (fst (try_except
            (d <- setup_driver w true ;; report d brand description condition url)
            is_Exception top_handler st)).
Proof.
  intros Hc. unfold try_except, bind at 1, setup_driver. rewrite Hc. unfold raise.
  destruct (is_Exception x); [|constructor].
  pose proof (plain_top_handler x (after [] st)) as H2.
  destruct (top_handler x (after [] st)) as [t2 r2]. exact H2.
Qed.

(** The run of [main], step by step. *)
Lemma run_unfold (w : world) :
  run w
  = match get_user_input (stdin w) (start w) with
    | (t0, Raise e) => (t0, Raise e)
    | (t0, Ok (brand, description, condition)) =>
        let st := after t0 (start w) in
        let url := construct_search_url brand description condition in
        let (t, r) :=
          try_except
            (d <- setup_driver w true ;; report d brand description condition url)
            is_Exception top_handler st in
        let (t', r') :=
          finally_clause (match chrome w with Ok d => Some d | Raise _ => None end)
                         (after t st) in
        (t0 ++ t ++ t', match r' with Ok _ => r | Raise e => Raise e end)
    end.
Proof.
  unfold run, main, bind at 1.
  destruct (get_user_input (stdin w) (start w))
    as [t0 [[[brand description] condition]|e]]; [|reflexivity].
  cbv zeta. unfold try_finally.
  destruct (try_except _ is_Exception top_handler (after t0 (start w))) as [t r].
  now destruct (finally_clause _ (after t (after t0 (start w)))) as [t' [u|e]].
Qed.

(** Every run acquires no driver and releases none; or acquires one and
    ends with its release; or acquires one and ends without releasing it,
    because one of the two lines before [driver.quit()] cannot be printed. *)
Lemma run_trace_cases (w : world) :
  (acquired (fst (run w)) = false /\ existsb is_Quit (fst (run w)) = false)
  \/ (acquired (fst (run w)) = true /\ released_at_exit (fst (run w)) = true)
  \/ (acquired (fst (run w)) = true /\ existsb is_Quit (fst (run w)) = false
      /\ exists e, snd (run w) = Raise e /\ refuses (stdout w) [THANKS; SEE_YOU] e).
Proof.
  rewrite run_unfold.
  pose proof (plain_get_user_input (stdin w) (start w)) as H0.
  destruct (get_user_input (stdin w) (start w))
    as [t0 [[[brand description] condition]|e]]; cbn [fst] in H0.
  - cbv zeta. set (st := after t0 (start w)).
    set (url := construct_search_url brand description condition).
    destruct (chrome w) as [d|x] eqn:Ec.
    + destruct (guarded_report_trace w d brand description condition url st Ec)
        as (t1 & Ht & H1).
      destruct (try_except _ is_Exception top_handler st) as [t r].
      cbn [fst] in Ht. subst t. right.
      destruct (finally_clause_spec d (after (Acquire :: t1) st))
        as [Hf|(e & tf & Hf & Href & Hp)]; rewrite Hf; cbn [fst snd].
      * left. change (t0 ++ (Acquire :: t1) ++ farewell)
          with (t0 ++ Acquire :: t1 ++ farewell).
        now apply released_at_exit_intro.
      * right. change (t0 ++ (Acquire :: t1) ++ tf)
          with (t0 ++ Acquire :: t1 ++ tf).
        destruct (not_released_intro t0 (t1 ++ tf) H0) as [Ha Hq].
        { apply Forall_app. now split. }
        repeat split; try assumption. exists e. split; [reflexivity | exact Href].
    + left.
      pose proof (failed_launch_trace w x brand description condition url st Ec) as H1.
      destruct (try_except _ is_Exception top_handler st) as [t r].
      cbn [fst snd finally_clause ret app] in *.
      assert (H : Forall (fun ev => plain_event ev = true) (t0 ++ t ++ []))
        by (rewrite app_nil_r; apply Forall_app; now split).
      split; [now apply plain_no_acquire | now apply plain_no_quit].
  - left. cbn [fst].
    split; [now apply plain_no_acquire | now apply plain_no_quit].
Qed.

End TraceFacts.

Import TraceFacts.

(** C3: when the browser cannot reach the site and [driver.get] raises, the
    exception leaves [scrape_vinted_prices] instead of being turned into an
    empty list, and [main] reports it through its top-level handler; the
    message that no prices were found is not printed.  On no console does
    [scrape_vinted_prices] return a list then. *)
Theorem get_failure_reaches_handler :
  scrape_vinted_prices offline_driver typed_url at_terminal
  = ([Print (LoadingPage typed_url); Get typed_url], Raise WebDriverException)
  /\ snd (run offline_world) = Ok tt
  /\ reports_error (fst (run offline_world)) = true
  /\ reports_no_prices (fst (run offline_world)) = false
  /\ (forall st, exists e, snd (scrape_vinted_prices offline_driver typed_url st)
                          = Raise e).
Proof.
  split; [|split; [|split; [|split]]]; try (vm_compute; reflexivity).
  intros st. unfold scrape_vinted_prices, print. rewrite bind_write.
  destruct (out st (past st) _) as [e|]; [now exists e|].
  now exists WebDriverException.
Qed.

(** The wait failures of C3 are recovered as it says: with [stalled_driver]
    the run prints that no prices were found and ends normally, without the
    top-level handler. *)
Example stalled_run_reports_no_prices :
  snd (scrape_vinted_prices stalled_driver typed_url at_terminal) = Ok []
  /\ snd (run stalled_world) = Ok tt
  /\ reports_no_prices (fst (run stalled_world)) = true
  /\ reports_error (fst (run stalled_world)) = false.
Proof. repeat split; vm_compute; reflexivity. Qed.

(** C8: [main] does not release the driver on every path.  The [finally]
    clause prints two lines before it calls [driver.quit()]: when the output
    is a pipe that closes while the page loads, the run acquires a driver,
    the first of the two lines raises [BrokenPipeError], and
    [driver.quit()] is never called.  In general a run acquires no driver
    and releases none; or acquires one and ends with [driver.quit()], called
    once, as its last event; or acquires one and never calls
    [driver.quit()], and then it ends with the exception of one of the two
    lines. *)
Theorem broken_pipe_leaks_driver :
  (acquired (fst (run broken_pipe_world)) = true
   /\ existsb is_Quit (fst (run broken_pipe_world)) = false
   /\ snd (run broken_pipe_world) = Raise BrokenPipeError)
  /\ (forall w : world,
        (acquired (fst (run w)) = false /\ existsb is_Quit (fst (run w)) = false)
        \/ (acquired (fst (run w)) = true /\ released_at_exit (fst (run w)) = true)
        \/ (acquired (fst (run w)) = true /\ existsb is_Quit (fst (run w)) = false
            /\ exists e, snd (run w) = Raise e
                         /\ refuses (stdout w) [THANKS; SEE_YOU] e)).
Proof.
  split; [repeat split; vm_compute; reflexivity | exact run_trace_cases].
Qed.

(** The ways [main] ends on a console that shows every line: a suggested
    price, no prices found, the error handler, each with the driver
    released, and a launch that fails.  On a console without pictographs the
    run with no prices ends with [UnicodeEncodeError], the driver
    released. *)
Example main_exit_paths :
  (reports_suggestion (fst (run priced_world)) = true
   /\ released_at_exit (fst (run priced_world)) = true)
  /\ (reports_no_prices (fst (run stalled_world)) = true
      /\ released_at_exit (fst (run stalled_world)) = true)
  /\ (reports_error (fst (run offline_world)) = true
      /\ released_at_exit (fst (run offline_world)) = true)
  /\ (reports_error (fst (run no_chrome_world)) = true
      /\ acquired (fst (run no_chrome_world)) = false
      /\ existsb is_Quit (fst (run no_chrome_world)) = false)
  /\ (snd (run legacy_world) = Raise UnicodeEncodeError
      /\ reports_no_prices (fst (run legacy_world)) = false
      /\ released_at_exit (fst (run legacy_world)) = true).
Proof. repeat split; vm_compute; reflexivity. Qed.

(* ================================================================== *)
(** ** More on the price parser *)
(* ================================================================== *)

Module ParserFacts.
Import PyStr PyStrFacts PyFloat PyFloatFacts Scraper Spec Notions.

Local Open Scope N_scope.

Lemma space_not_decimal (c : char) : isspace c = true -> isdecimal c = false.
Proof.
  intros Hs. destruct (isdecimal c) eqn:Hd; [|reflexivity].
  rewrite (to_decimal_not_space c _ (isdecimal_to_decimal c Hd)) in Hs.
  discriminate.
Qed.

Lemma takewhile_app_end (p : char -> bool) (x y : str) :
  match y with [] => True | c :: _ => p c = false end ->
  takewhile p (x ++ y) = takewhile p x
  /\ dropwhile p (x ++ y) = dropwhile p x ++ y.
Proof.
  intros Hy. induction x as [|c x IH]; cbn [app takewhile dropwhile].
  - destruct y as [|d y]; [split; reflexivity|]. cbn. now rewrite Hy.
  - destruct (p c); [|split; reflexivity].
    destruct IH as [-> ->]. split; reflexivity.
Qed.

(** White space after a text does not change the token at its head. *)
Lemma numeric_token_at_spaces (x ws : str) :
  Forall (fun c => isspace c = true) ws ->
  numeric_token_at (x ++ ws) = numeric_token_at x.
Proof.
  intros Hws. unfold numeric_token_at.
  assert (Hend : match ws with [] => True | c :: _ => isdecimal c = false end).
  { destruct Hws as [|c ws Hc _]; [exact I | now apply space_not_decimal]. }
  destruct (takewhile_app_end isdecimal x ws Hend) as [-> ->].
  f_equal. destruct (dropwhile isdecimal x) as [|c r]; cbn [app].
  - destruct Hws as [|w ws Hw _]; [reflexivity|].
    destruct (w =? DOT) eqn:E; [|reflexivity].
    apply N.eqb_eq in E. subst w. discriminate.
  - destruct (c =? DOT); [|reflexivity].
    now destruct (takewhile_app_end isdecimal r ws Hend) as [-> _].
Qed.

Lemma first_numeric_token_no_digit (s : str) :
  has_digit s = false -> first_numeric_token s = None.
Proof.
  induction s as [|c s IH]; [reflexivity|]. cbn [has_digit existsb first_numeric_token].
  intros H. apply orb_false_iff in H as [Hc Hs]. rewrite Hc. now apply IH.
Qed.

Lemma first_numeric_token_digit (s : str) :
  has_digit s = true -> exists tok, first_numeric_token s = Some tok.
Proof.
  induction s as [|c s IH]; [discriminate|]. cbn [has_digit existsb first_numeric_token].
  destruct (isdecimal c); [eexists; reflexivity | exact IH].
Qed.

(** Text without a digit in front of a text does not change its first
    token. *)
Lemma first_numeric_token_skip (pre s : str) :
  has_digit pre = false -> first_numeric_token (pre ++ s) = first_numeric_token s.
Proof.
  induction pre as [|c pre IH]; [reflexivity|].
  cbn [has_digit existsb app first_numeric_token].
  intros H. apply orb_false_iff in H as [Hc Hs]. rewrite Hc. now apply IH.
Qed.

Lemma spaces_no_digit (ws : str) :
  Forall (fun c => isspace c = true) ws -> has_digit ws = false.
Proof.
  induction 1 as [|c ws Hc _ IH]; [reflexivity|].
  cbn [has_digit existsb]. now rewrite (space_not_decimal c Hc).
Qed.

Lemma first_numeric_token_spaces (x ws : str) :
  Forall (fun c => isspace c = true) ws ->
  first_numeric_token (x ++ ws) = first_numeric_token x.
Proof.
  intros Hws. induction x as [|c x IH].
  - cbn [app]. now apply first_numeric_token_no_digit, spaces_no_digit.
  - cbn [app first_numeric_token]. rewrite IH.
    destruct (isdecimal c); [|reflexivity].
    change (c :: x ++ ws) with ((c :: x) ++ ws).
    now rewrite numeric_token_at_spaces.
Qed.

Lemma trim_left_split (p : char -> bool) (s : str) :
  exists ws, s = ws ++ trim_left p s /\ Forall (fun c => p c = true) ws.
Proof.
  exists (takewhile p s). split.
  - symmetry. apply takewhile_dropwhile.
  - apply takewhile_all.
Qed.

Lemma trim_right_split (p : char -> bool) (s : str) :
  exists ws, s = trim_right p s ++ ws /\ Forall (fun c => p c = true) ws.
Proof.
  exists (rev (takewhile p (rev s))). split.
  - unfold trim_right. rewrite <- rev_app_distr, takewhile_dropwhile.
    symmetry. apply rev_involutive.
  - apply Forall_rev, takewhile_all.
Qed.

(** Trimming does not change the first token. *)
Lemma first_numeric_token_strip (s : str) :
  first_numeric_token (strip s) = first_numeric_token s.
Proof.
  unfold strip, trim.
  destruct (trim_left_split isspace s) as (ws & Hs & Hws).
  destruct (trim_right_split isspace (trim_left isspace s)) as (ws' & Hs' & Hws').
  rewrite Hs at 2. rewrite first_numeric_token_skip by now apply spaces_no_digit.
  rewrite Hs' at 2. now rewrite first_numeric_token_spaces.
Qed.

(** [clean_price] without the trim: the value of the first token of the
    fragment once the pound signs are taken out. *)
Lemma clean_price_token (s : str) :
  clean_price s
  = option_map token_value (first_numeric_token (List.filter not_pound s)).
Proof.
  rewrite clean_price_parsePrice. unfold parsePrice.
  change (fun c => negb (c =? POUND)) with not_pound.
  rewrite <- (first_numeric_token_strip (List.filter not_pound s)).
  change (@List.filter char) with (@List.filter N).
  destruct (strip (@List.filter N not_pound s)) as [|c r]; [reflexivity|].
  cbn [is_empty]. now destruct (first_numeric_token (c :: r)).
Qed.

Lemma has_digit_filter (s : str) : has_digit (List.filter not_pound s) = has_digit s.
Proof.
  induction s as [|c s IH]; [reflexivity|]. cbn [List.filter].
  unfold not_pound at 1. destruct (c =? POUND) eqn:E; cbn [negb has_digit existsb].
  - apply N.eqb_eq in E. subst c. exact IH.
  - fold (has_digit (List.filter not_pound s)). fold (has_digit s). now rewrite IH.
Qed.

End ParserFacts.

Import ParserFacts Notions.

(** X1: a fragment parses exactly when it has a decimal digit somewhere. *)
Theorem clean_price_parses_iff_digit (s : str) :
  (exists v, clean_price s = Some v) <-> has_digit s = true.
Proof.
  rewrite clean_price_token, <- has_digit_filter. split.
  - intros [v Hv]. destruct (has_digit (List.filter not_pound s)) eqn:E; [reflexivity|].
    rewrite (first_numeric_token_no_digit _ E) in Hv. discriminate.
  - intros H. destruct (first_numeric_token_digit _ H) as [tok ->].
    eexists. reflexivity.
Qed.

(** X2: the pound signs are taken out before the number is looked for, so
    a pound sign at any place of the fragment, also between two digits, does
    not change the result. *)
Theorem clean_price_pound_anywhere (a b : str) :
  clean_price (a ++ POUND :: b) = clean_price (a ++ b).
Proof.
  rewrite !clean_price_token, !filter_app. reflexivity.
Qed.

(** X3: text without a digit in front of a fragment does not change the
    result. *)
Theorem clean_price_leading_text (pre s : str) :
  has_digit pre = false -> clean_price (pre ++ s) = clean_price s.
Proof.
  intros H. rewrite !clean_price_token, filter_app.
  apply f_equal, first_numeric_token_skip. now rewrite has_digit_filter.
Qed.

Lemma clean_price_leading_text_witness :
  clean_price (lit "Price: " ++ POUND :: lit "20") = clean_price (POUND :: lit "20").
Proof.
  apply (clean_price_leading_text (lit "Price: ") (POUND :: lit "20")).
  vm_compute; reflexivity.
Defined.

Lemma filter_digits (ds : str) :
  forallb isdecimal ds = true -> List.filter not_pound ds = ds.
Proof.
  induction ds as [|c ds IH]; [reflexivity|]. cbn [forallb List.filter].
  intros H. apply andb_true_iff in H as [Hc Hds]. rewrite (IH Hds).
  unfold not_pound. destruct (c =? POUND) eqn:E; [|reflexivity].
  apply N.eqb_eq in E. subst c. discriminate.
Qed.

Lemma numeric_token_at_digits (ds tail : str) :
  forallb isdecimal ds = true ->
  match tail with [] => True | c :: _ => token_char c = false end ->
  Spec.numeric_token_at (ds ++ tail) = ds.
Proof.
  intros Hds Htail. unfold Spec.numeric_token_at.
  destruct (takewhile_app_stop isdecimal ds tail) as [-> ->].
  - apply Forall_forall. intros c Hc. rewrite forallb_forall in Hds. auto.
  - destruct tail as [|c tail]; [exact I|].
    unfold token_char in Htail. now apply orb_false_iff in Htail as [-> _].
  - destruct tail as [|c tail]; [apply app_nil_r|].
    unfold token_char in Htail. apply orb_false_iff in Htail as [_ ->].
    apply app_nil_r.
Qed.

(** X4: digits followed by a character that is no digit, no point and no
    pound sign are read as the digits alone: whatever comes after such a
    separator, a comma or a space for instance, is left out. *)
Theorem clean_price_stops_at_separator (ds : str) (sep : char) (rest : str) :
  ds <> [] -> forallb isdecimal ds = true ->
  token_char sep = false -> not_pound sep = true ->
  clean_price (ds ++ sep :: rest) = clean_price ds.
Proof.
  intros Hne Hds Hsep Hp. rewrite !clean_price_token, filter_app.
  cbn [List.filter]. rewrite Hp, filter_digits by assumption.
  destruct ds as [|c ds]; [contradiction|].
  pose proof Hds as Hc. cbn [forallb] in Hc. apply andb_true_iff in Hc as [Hc _].
  cbn [app Spec.first_numeric_token]. rewrite Hc.
  change (c :: ds ++ sep :: List.filter not_pound rest)
    with ((c :: ds) ++ sep :: List.filter not_pound rest).
  rewrite numeric_token_at_digits by assumption.
  pose proof (numeric_token_at_digits (c :: ds) [] Hds I) as H0.
  rewrite app_nil_r in H0. now rewrite H0.
Qed.

Lemma clean_price_stops_at_separator_witness :
  clean_price (lit "1,200") = clean_price (lit "1").
Proof.
  apply (clean_price_stops_at_separator (lit "1") 44 (lit "200"));
    [discriminate | reflexivity | reflexivity | reflexivity].
Defined.

Lemma decimal_not_dot (c : char) : isdecimal c = true -> (DOT =? c) = false.
Proof.
  intros H. destruct (DOT =? c) eqn:E; [|reflexivity].
  apply N.eqb_eq in E. subst c. discriminate.
Qed.

Lemma digits_token_chars (ds : str) :
  Forall Spec.decimal ds ->
  forallb token_char ds = true /\ List.filter (N.eqb DOT) ds = [].
Proof.
  induction 1 as [|c ds Hc _ [IH1 IH2]]; [split; reflexivity|].
  cbn [forallb List.filter]. unfold token_char at 1.
  unfold Spec.decimal in Hc. rewrite Hc, IH1, (decimal_not_dot c Hc). now split.
Qed.

Lemma after_fraction_head (s : str) :
  match Spec.after_fraction (dropwhile isdecimal s) with
  | c :: _ => isdecimal c = false
  | [] => True
  end.
Proof.
  unfold Spec.after_fraction.
  destruct (dropwhile isdecimal s) as [|d r] eqn:E; [exact I|].
  destruct (d =? DOT).
  - destruct (dropwhile isdecimal r) as [|c t] eqn:Er; [exact I|].
    exact (dropwhile_head isdecimal r c t Er).
  - exact (dropwhile_head isdecimal s d r E).
Qed.

(** The token at the head of a text that starts with a digit: digits with
    one point at most, and no digit right after it. *)
Lemma numeric_token_at_spec (c : char) (s : str) :
  isdecimal c = true ->
  exists post,
    c :: s = Spec.numeric_token_at (c :: s) ++ post
    /\ forallb token_char (Spec.numeric_token_at (c :: s)) = true
    /\ (List.length (List.filter (N.eqb DOT) (Spec.numeric_token_at (c :: s))) <= 1)%nat
    /\ match post with d :: _ => isdecimal d = false | [] => True end.
Proof.
  intros Hc. exists (Spec.after_fraction (dropwhile isdecimal s)).
  split; [now apply ReFacts.token_split|].
  split; [|split; [|apply after_fraction_head]];
    destruct (numeric_token_shape c s Hc) as (ds & fs & dot & -> & _ & Hds & Hfs);
    destruct (digits_token_chars ds Hds) as [Hd1 Hd2];
    destruct (digits_token_chars fs Hfs) as [Hf1 Hf2].
  - rewrite forallb_app, Hd1. destruct dot; [|reflexivity].
    cbn [forallb]. now rewrite Hf1.
  - rewrite filter_app. change char with N in *. rewrite Hd2.
    destruct dot; [|cbn; lia].
    cbn [app List.filter]. rewrite N.eqb_refl, Hf2. cbn. lia.
Qed.

(** When the token has no point, what follows it does not start with one. *)
Lemma numeric_token_at_point (s : str) :
  match Spec.after_fraction (dropwhile isdecimal s) with
  | d :: _ => d = DOT -> List.filter (N.eqb DOT) (Spec.numeric_token_at s) <> []
  | [] => True
  end.
Proof.
  unfold Spec.after_fraction, Spec.numeric_token_at.
  destruct (dropwhile isdecimal s) as [|d r] eqn:E; [exact I|].
  destruct (d =? DOT) eqn:Ed.
  - apply N.eqb_eq in Ed. subst d.
    destruct (dropwhile isdecimal r) as [|c t]; [exact I|]. intros _.
    rewrite filter_app. cbn [List.filter]. rewrite N.eqb_refl.
    intros H. apply app_eq_nil in H as [_ H]. discriminate.
  - intros ->. rewrite N.eqb_refl in Ed. discriminate.
Qed.

(** A text of digits is its own longest run of digits. *)
Lemma takewhile_digits (ds : str) :
  forallb isdecimal ds = true ->
  takewhile isdecimal ds = ds /\ dropwhile isdecimal ds = [].
Proof.
  induction ds as [|c ds IH]; [split; reflexivity|]. cbn [forallb].
  intros H. apply andb_true_iff in H as [Hc Hds].
  cbn [takewhile dropwhile]. rewrite Hc. destruct (IH Hds) as [-> ->].
  split; reflexivity.
Qed.

(** Digits and points without a point are digits. *)
Lemma token_chars_no_point (x : str) :
  forallb token_char x = true -> List.filter (N.eqb DOT) x = [] ->
  forallb isdecimal x = true.
Proof.
  induction x as [|c x IH]; [reflexivity|]. cbn [forallb List.filter].
  intros H Hd. apply andb_true_iff in H as [Hc Hx].
  destruct (DOT =? c) eqn:E; [discriminate|].
  unfold token_char in Hc. rewrite N.eqb_sym, E, orb_false_r in Hc.
  rewrite Hc. now apply IH.
Qed.

(** The digits before the first point, and what follows them. *)
Lemma token_chars_split (x : str) :
  forallb token_char x = true ->
  dropwhile isdecimal x = []
  \/ exists r, dropwhile isdecimal x = DOT :: r /\ forallb token_char r = true
               /\ List.filter (N.eqb DOT) x = DOT :: List.filter (N.eqb DOT) r.
Proof.
  induction x as [|c x IH]; [now left|]. cbn [forallb].
  intros H. apply andb_true_iff in H as [Hc Hx].
  cbn [dropwhile List.filter]. destruct (isdecimal c) eqn:Ec.
  - rewrite (decimal_not_dot c Ec). exact (IH Hx).
  - right. unfold token_char in Hc. rewrite Ec in Hc. apply N.eqb_eq in Hc.
    subst c. exists x. rewrite N.eqb_refl. now repeat split.
Qed.

(** The token at the head of a numeral is the numeral. *)
Lemma numeric_token_at_numeral (tok : str) :
  numeral tok = true -> Spec.first_numeric_token tok = Some tok.
Proof.
  destruct tok as [|c r]; [discriminate|]. unfold numeral.
  intros H. apply andb_true_iff in H as [H Hdots].
  apply andb_true_iff in H as [Hc Hall]. apply Nat.leb_le in Hdots.
  cbn [Spec.first_numeric_token]. rewrite Hc. f_equal.
  unfold Spec.numeric_token_at.
  destruct (token_chars_split (c :: r) Hall) as [E|(t & E & Ht & Hd)].
  - rewrite E, app_nil_r. rewrite <- (takewhile_dropwhile isdecimal (c :: r)) at 2.
    now rewrite E, app_nil_r.
  - rewrite E, N.eqb_refl. rewrite Hd in Hdots. cbn [List.length] in Hdots.
    assert (Hnil : List.filter (N.eqb DOT) t = [])
      by (destruct (List.filter (N.eqb DOT) t); [reflexivity | cbn in Hdots; lia]).
    destruct (takewhile_digits t (token_chars_no_point t Ht Hnil)) as [-> _].
    rewrite <- E. apply takewhile_dropwhile.
Qed.

(** X5: what the search of the price pattern returns is the leftmost and
    the longest numeral of the text.  It is a numeral: it starts with a
    digit and is made of digits and one point at most.  No numeral of the
    text starts before it, as no digit stands before it; no numeral that
    starts where it starts is longer, as what follows it is neither a digit
    nor, when it has no point, a point.  A numeral on its own is matched
    whole. *)
Theorem search_price_re_leftmost_longest (s tok : str) :
  Re.search PRICE_RE s = Some tok ->
  (exists pre post,
    s = pre ++ tok ++ post
    /\ numeral tok = true
    /\ (forall pre' tok' post',
          s = pre' ++ tok' ++ post' -> numeral tok' = true ->
          (List.length pre <= List.length pre')%nat)
    /\ (forall tok' post',
          tok ++ post = tok' ++ post' -> numeral tok' = true ->
          (List.length tok' <= List.length tok)%nat)
    /\ has_digit pre = false
    /\ match tok with c :: _ => isdecimal c = true | [] => False end
    /\ forallb token_char tok = true
    /\ (List.length (List.filter (N.eqb DOT) tok) <= 1)%nat
    /\ match post with d :: _ => isdecimal d = false | [] => True end)
  /\ (forall t, numeral t = true -> Re.search PRICE_RE t = Some t).
Proof.
  intros H. split;
    [|intros t Ht; rewrite ReFacts.search_price_re; now apply numeric_token_at_numeral].
  rewrite ReFacts.search_price_re in H.
  assert (Hshape : exists pre post,
             s = pre ++ tok ++ post /\ has_digit pre = false
             /\ match tok with c :: _ => isdecimal c = true | [] => False end
             /\ forallb token_char tok = true
             /\ (List.length (List.filter (N.eqb DOT) tok) <= 1)%nat
             /\ match post with d :: _ => isdecimal d = false | [] => True end
             /\ match post with
                | d :: _ => d = DOT -> List.filter (N.eqb DOT) tok <> []
                | [] => True
                end).
  { revert tok H. induction s as [|c s IH]; intros tok H; [discriminate|].
    cbn [Spec.first_numeric_token] in H. destruct (isdecimal c) eqn:Hc.
    - injection H as <-.
      destruct (numeric_token_at_spec c s Hc) as (post & Hs & Ht & Hd & Hp).
      pose proof (numeric_token_at_point (c :: s)) as Hdot.
      cbn [dropwhile] in Hdot. rewrite Hc in Hdot.
      assert (Epost : post = Spec.after_fraction (dropwhile isdecimal s)).
      { apply (app_inv_head (Spec.numeric_token_at (c :: s))).
        rewrite <- Hs. now apply ReFacts.token_split. }
      rewrite <- Epost in Hdot.
      exists [], post. repeat split; try assumption.
      unfold Spec.numeric_token_at. cbn [takewhile]. now rewrite Hc.
    - destruct (IH tok H) as (pre & post & -> & Hpre & Ht).
      exists (c :: pre), post. split; [reflexivity|]. split; [|exact Ht].
      cbn [has_digit existsb]. rewrite Hc. exact Hpre. }
  destruct Hshape as (pre & post & Hs & Hpre & Hhead & Hall & Hdots & Hpost & Hdot).
  exists pre, post. repeat split; try assumption.
  - destruct tok as [|c r]; [contradiction|]. unfold numeral.
    rewrite Hhead, Hall. cbn [andb]. now apply Nat.leb_le.
  - intros pre' tok' post' Hs' Hn. rewrite Hs in Hs'.
    apply app_eq_app in Hs' as [l [[-> Hl]|[-> _]]];
      [|rewrite length_app; lia].
    destruct l as [|c l]; [rewrite app_nil_r; lia|].
    destruct tok' as [|c' r']; [discriminate|].
    cbn [app] in Hl. injection Hl as <- _.
    unfold numeral in Hn. apply andb_true_iff in Hn as [Hn _].
    apply andb_true_iff in Hn as [Hc' _].
    unfold has_digit in Hpre. rewrite existsb_app in Hpre. cbn [existsb] in Hpre.
    rewrite Hc', orb_true_r in Hpre. discriminate.
  - intros tok' post' Hs' Hn.
    apply app_eq_app in Hs' as [l [[-> _]|[-> Hl]]];
      [rewrite length_app; lia|].
    destruct l as [|d l]; [rewrite app_nil_r; lia|].
    cbn [app] in Hl. subst post. exfalso.
    destruct tok as [|c r]; [contradiction|]. unfold numeral in Hn. cbn [app] in Hn.
    apply andb_true_iff in Hn as [Hn Hdots'].
    apply andb_true_iff in Hn as [_ Hall']. apply Nat.leb_le in Hdots'.
    change (c :: r ++ d :: l) with ((c :: r) ++ d :: l) in *.
    rewrite forallb_app in Hall'. apply andb_true_iff in Hall' as [_ Hd].
    cbn [forallb] in Hd. apply andb_true_iff in Hd as [Hd _].
    unfold token_char in Hd. rewrite Hpost in Hd. cbn [orb] in Hd.
    apply N.eqb_eq in Hd. specialize (Hdot Hd). subst d.
    rewrite filter_app, length_app in Hdots'. change char with N in *.
    destruct (List.filter (N.eqb DOT) (c :: r)) as [|x dots]; [contradiction|].
    cbn [List.filter] in Hdots'. rewrite N.eqb_refl in Hdots'.
    cbn [List.length] in Hdots'. lia.
Qed.

Lemma search_price_re_leftmost_longest_witness :
  (exists pre post,
    lit "from 12.5.3 to 14" = pre ++ lit "12.5" ++ post
    /\ numeral (lit "12.5") = true
    /\ (forall pre' tok' post',
          lit "from 12.5.3 to 14" = pre' ++ tok' ++ post' -> numeral tok' = true ->
          (List.length pre <= List.length pre')%nat)
    /\ (forall tok' post',
          lit "12.5" ++ post = tok' ++ post' -> numeral tok' = true ->
          (List.length tok' <= List.length (lit "12.5"))%nat)
    /\ has_digit pre = false
    /\ match lit "12.5" with c :: _ => isdecimal c = true | [] => False end
    /\ forallb token_char (lit "12.5") = true
    /\ (List.length (List.filter (N.eqb DOT) (lit "12.5")) <= 1)%nat
    /\ match post with d :: _ => isdecimal d = false | [] => True end)
  /\ (forall t, numeral t = true -> Re.search PRICE_RE t = Some t).
Proof.
  apply (search_price_re_leftmost_longest (lit "from 12.5.3 to 14") (lit "12.5")).
  vm_compute; reflexivity.
Defined.

(* ================================================================== *)
(** ** Parsing a rendered price again *)
(* ================================================================== *)

Lemma filter_token_chars (x : str) :
  forallb token_char x = true -> List.filter not_pound x = x.
Proof.
  induction x as [|c x IH]; [reflexivity|]. cbn [forallb List.filter].
  intros H. apply andb_true_iff in H as [Hc Hx]. rewrite (IH Hx).
  unfold not_pound. destruct (c =? POUND) eqn:E; [|reflexivity].
  apply N.eqb_eq in E. subst c. discriminate.
Qed.

Lemma numeral_token_chars (r : str) : numeral r = true -> forallb token_char r = true.
Proof.
  destruct r as [|c r]; [discriminate|]. unfold numeral. intros H.
  apply andb_true_iff in H as [H _]. now apply andb_true_iff in H as [_ H].
Qed.

(** [clean_price] reads a numeral, with or without the pound sign in front,
    as [float] reads it. *)
Lemma clean_price_numeral (r : str) :
  numeral r = true ->
  clean_price r = Some (Spec.token_value r)
  /\ clean_price (POUND :: r) = Some (Spec.token_value r)
  /\ py_float r = Some (Spec.token_value r).
Proof.
  intros H. pose proof (numeric_token_at_numeral r H) as Ht.
  pose proof (filter_token_chars r (numeral_token_chars r H)) as Hf.
  rewrite !clean_price_token. cbn [List.filter]. unfold not_pound at 2.
  rewrite N.eqb_refl. cbn [negb]. rewrite Hf, Ht.
  repeat split. exact (first_numeric_token_float r r Ht).
Qed.

(** C7, as the claim states it, fails: 1e16 is a value of the parser, and
    the text [1e+16], which [float] reads as that value and which is how
    Python renders it, is parsed as 1.0.  Infinity is a value of the parser
    too, that of a numeral too large for a float, and its rendering [inf],
    which has no digit, is not parsed at all. *)
Lemma exponent_rendering_not_read_back :
  ~ round_trips
  /\ (clean_price (lit "1" ++ List.repeat 48 400) = Some (S754_infinity false)
      /\ renders (lit "inf") (S754_infinity false)
      /\ clean_price (lit "inf") = None).
Proof.
  split; [|repeat split; vm_compute; reflexivity].
  intros H.
  specialize (H (lit "10000000000000000") (Prim2SF 1e16) (lit "1e+16")
                ltac:(vm_compute; reflexivity) ltac:(vm_compute; reflexivity)).
  vm_compute in H. discriminate.
Qed.

(** Small values are rendered in the exponent form as well, and cut at the
    letter in the same way. *)
Example renderings_not_read_back :
  clean_price (lit "0.00001") = Some (Prim2SF 1e-05)
  /\ renders (lit "1e-05") (Prim2SF 1e-05)
  /\ clean_price (lit "1e-05") = Some (Prim2SF 1.0)
  /\ clean_price (lit "1e+16") = Some (Prim2SF 1.0).
Proof. repeat split; vm_compute; reflexivity. Qed.

(** C7, amended: a rendering that is a positional numeral (digits, then
    possibly a point and digits, without sign or exponent) is parsed as
    [float] reads it, with or without the pound sign in front; so when such a
    numeral renders a value of the parser, parsing it gives that value
    again, exactly. *)
Theorem clean_price_reads_numerals :
  (forall r : str,
      numeral r = true ->
      clean_price r = py_float r /\ clean_price (POUND :: r) = py_float r
      /\ exists v, py_float r = Some v)
  /\ (forall (fragment : str) (v : float) (r : str),
        clean_price fragment = Some v -> numeral r = true -> renders r v ->
        clean_price r = Some v /\ clean_price (POUND :: r) = Some v).
Proof.
  split.
  - intros r H. destruct (clean_price_numeral r H) as (-> & -> & ->).
    repeat split. now eexists.
  - intros fragment v r _ H Hr. unfold renders in Hr.
    destruct (clean_price_numeral r H) as (-> & -> & Hf). rewrite <- Hf, Hr.
    now split.
Qed.

Lemma clean_price_reads_numerals_witness :
  clean_price (lit "10000000000000000.0") = Some (Prim2SF 1e16)
  /\ clean_price (POUND :: lit "10000000000000000.0") = Some (Prim2SF 1e16).
Proof.
  apply (proj2 clean_price_reads_numerals (POUND :: lit "10000000000000000"));
    vm_compute; reflexivity.
Defined.

(* ================================================================== *)
(** ** More on the scrape *)
(* ================================================================== *)

Module ScrapeFacts.
Import PyStr PyStrFacts Scraper Run Observe Notions RunFacts InputFacts.

Local Open Scope nat_scope.

Lemma yields_any {A : Type} (m : M A) : yields (fun _ => True) (fun _ _ => True) m.
Proof. intros st. now destruct (snd (m st)). Qed.

Lemma kept_strip (t : str) : is_empty (strip t) = false -> kept (strip t) = true.
Proof.
  intros H. unfold kept. now rewrite H, strip_no_surrounding_space.
Qed.

Lemma read_prices_all (P : str -> bool) (elements : list WebElement) :
  (forall t, is_empty (strip t) = false -> P (strip t) = true) ->
  forall prices,
    forallb P prices = true ->
    forallb P (fst (read_prices elements prices)) = true.
Proof.
  intros HP. induction elements as [|element elements IH]; intros prices H;
    cbn [read_prices]; [exact H|].
  destruct (text element) as [t|e]; [|exact H].
  apply IH. destruct (is_empty (strip t)) eqn:E; [exact H|].
  rewrite forallb_app, H. cbn. now rewrite HP.
Qed.

Lemma structural_search_all (P : str -> bool) (driver : WebDriver)
      (patterns : list str) :
  (forall t, is_empty (strip t) = false -> P (strip t) = true) ->
  forall prices,
    forallb P prices = true ->
    forallb P (snd (structural_search driver patterns prices)) = true.
Proof.
  intros HP. induction patterns as [|p patterns IH]; intros prices H;
    cbn [structural_search]; [exact H|].
  assert (Hnext : forall prices',
             forallb P prices' = true ->
             forallb P (snd (let (t, r) := structural_search driver patterns prices' in
                             (FindElements CSS_SELECTOR p :: t, r))) = true).
  { intros prices' H'. specialize (IH prices' H').
    now destruct (structural_search driver patterns prices'). }
  destruct (find_elements driver CSS_SELECTOR p) as [[|e els]|x]; auto.
  pose proof (read_prices_all P (e :: els) HP prices H) as Hr.
  destruct (read_prices (e :: els) prices) as [prices' [x|]]; auto.
Qed.

Lemma read_pound_texts_all (P : str -> bool) (elements : list WebElement) :
  (forall t, is_empty (strip t) = false -> has_pound (strip t) = true ->
             P (strip t) = true) ->
  forall prices,
    forallb P prices = true ->
    forallb P (fst (read_pound_texts elements prices)) = true.
Proof.
  intros HP. induction elements as [|element elements IH]; intros prices H;
    cbn [read_pound_texts]; [exact H|].
  destruct (text element) as [t|e]; [|exact H].
  apply IH. destruct (is_empty (strip t)) eqn:E; [exact H|].
  cbn [negb andb]. fold (has_pound (strip t)).
  destruct (has_pound (strip t)) eqn:Ep; [|exact H].
  rewrite forallb_app, H. cbn. now rewrite HP.
Qed.

(** What the content rule returns was in the list or is a text with a
    pound sign, whether or not the rule is cut short. *)
Lemma content_search_all (P : str -> bool) (driver : WebDriver) (prices : list str) :
  (forall t, is_empty (strip t) = false -> has_pound (strip t) = true ->
             P (strip t) = true) ->
  forallb P prices = true ->
  yields (fun result => forallb P result = true) (fun _ _ => True)
         (content_search driver prices).
Proof.
  intros HP H. unfold content_search. cbv zeta.
  apply (yields_bind (fun _ => True)); [now apply yields_tell | intros _ _].
  assert (Hfailed : forall e prices',
             forallb P prices' = true ->
             yields (fun result => forallb P result = true) (fun _ _ => True)
                    (if is_Exception e
                     then print (TryAgainLater e) ;;; ret prices'
                     else raise e)).
  { intros e prices' H'. destruct (is_Exception e); [|now apply yields_raise].
    apply (yields_bind (fun _ => True)); [now apply yields_write | intros _ _].
    now apply yields_ret. }
  destruct (find_elements driver XPATH POUND_XPATH) as [all_text|e]; [|auto].
  pose proof (read_pound_texts_all P all_text HP prices H) as Hr.
  destruct (read_pound_texts all_text prices) as [prices' [e|]]; cbn [fst] in Hr;
    [auto | now apply yields_ret].
Qed.

(** What the extraction returns is what the structural search collected
    or, when that is nothing, what the content rule returns. *)
Lemma extract_yields (Q : list str -> Prop) (E : console -> exn -> Prop)
      (driver : WebDriver) :
  (forall n o h e, o h (Print (Extracted n)) = Some e -> E o e) ->
  (if is_empty_list (snd (structural_search driver price_patterns []))
   then yields Q E (content_search driver
                      (snd (structural_search driver price_patterns [])))
   else Q (snd (structural_search driver price_patterns []))) ->
  yields Q E (extract_prices driver).
Proof.
  intros HE H. unfold extract_prices.
  apply (yields_bind (fun ps => ps = snd (structural_search driver price_patterns [])));
    [now apply yields_done | intros ps ->].
  apply (yields_bind Q).
  - destruct (is_empty_list _); [exact H | now apply yields_ret].
  - intros ps Hq. apply (yields_bind (fun _ => True)).
    + apply yields_write; [exact I | apply HE].
    + intros _ _. now apply yields_ret.
Qed.

(** What [scrape_vinted_prices] returns is the empty list or what the
    extraction returns. *)
Lemma scrape_yields (Q : list str -> Prop) (driver : WebDriver) (url : str) :
  Q [] -> yields Q (fun _ _ => True) (extract_prices driver) ->
  yields Q (fun _ _ => True) (scrape_vinted_prices driver url).
Proof.
  intros H0 H. unfold scrape_vinted_prices.
  apply (yields_bind (fun _ => True)); [now apply yields_write | intros _ _].
  apply (yields_bind (fun _ => True));
    [apply yields_call; now destruct (get driver url) | intros _ _].
  apply (yields_bind (fun _ => True)); [apply yields_any | intros loaded _].
  destruct loaded; [exact H | now apply yields_ret].
Qed.

(** The exceptions that leave the scrape once the page is requested: those
    that are no [Exception], and those of the lines printed on the ways out
    of the handlers and at the end. *)
Lemma scrape_rest_raises (driver : WebDriver) :
  yields (fun _ => True)
    (fun o e =>
       is_Exception e = false
       \/ exists h m, late_scrape_message m /\ o h (Print m) = Some e)
    (loaded <- try_except (wait_for_content driver ;;; ret true) is_Exception
                          (fun _ => print CHECK_CONNECTION ;;; ret false) ;;
     if loaded then extract_prices driver else ret []).
Proof.
  set (E := fun (o : console) (e : exn) =>
              is_Exception e = false
              \/ exists h m, late_scrape_message m /\ o h (Print m) = Some e).
  apply (yields_bind (fun _ => True)).
  - apply (yields_try_except _ (fun _ _ => True)); [apply yields_any | |].
    + intros e _. apply (yields_bind (fun _ => True)); [|intros; now apply yields_ret].
      apply yields_write; [exact I|]. intros o h x Hx. right.
      exists h, CHECK_CONNECTION. split; [now left | exact Hx].
    + intros o e _ Hc. now left.
  - intros loaded _. destruct loaded; [|now apply yields_ret].
    apply extract_yields.
    + intros n o h e He. right. exists h, (Extracted n).
      split; [right; right; now exists n | exact He].
    + assert (Hc : forall prices,
                 yields (fun _ => True) E (content_search driver prices)).
      { intros prices. unfold content_search. cbv zeta.
        apply (yields_bind (fun _ => True)); [now apply yields_tell | intros _ _].
        assert (Hfailed : forall e prices',
                   yields (fun _ : list str => True) E
                          (if is_Exception e
                           then print (TryAgainLater e) ;;; ret prices'
                           else raise e)).
        { intros e prices'. destruct (is_Exception e) eqn:He.
          - apply (yields_bind (fun _ => True)); [|intros; now apply yields_ret].
            apply yields_write; [exact I|]. intros o h x Hx. right.
            exists h, (TryAgainLater e). split; [right; left; now exists e | exact Hx].
          - apply yields_raise. intros o. now left. }
        destruct (find_elements driver XPATH POUND_XPATH) as [all_text|e]; [|auto].
        destruct (read_pound_texts all_text prices) as [prices' [e|]];
          [auto | now apply yields_ret]. }
      destruct (is_empty_list _); [apply Hc | exact I].
Qed.

(** [scrape_vinted_prices], step by step. *)
Lemma scrape_unfold (driver : WebDriver) (url : str) (st : state) :
  scrape_vinted_prices driver url st
  = match out st (past st) (Print (LoadingPage url)) with
    | Some e => ([], Raise e)
    | None =>
        match get driver url with
        | Raise e => ([Print (LoadingPage url); Get url], Raise e)
        | Ok _ =>
            let (t, r) :=
              (loaded <- try_except (wait_for_content driver ;;; ret true)
                                    is_Exception
                                    (fun _ => print CHECK_CONNECTION ;;; ret false) ;;
               if loaded then extract_prices driver else ret [])
                (after [Get url] (after [Print (LoadingPage url)] st)) in
            (Print (LoadingPage url) :: Get url :: t, r)
        end
    end.
Proof.
  unfold scrape_vinted_prices. unfold print at 1. rewrite bind_write.
  destruct (out st (past st) (Print (LoadingPage url))) as [e|]; [reflexivity|].
  rewrite bind_call. destruct (get driver url) as [u|e]; [|reflexivity].
  match goal with |- _ = (let (t, r) := ?m in _) => now destruct m end.
Qed.

Lemma waits_app (a b : list event) : waits (a ++ b) = waits a + waits b.
Proof. unfold waits. now rewrite filter_app, length_app. Qed.

Lemma slept_app (a b : list event) : slept (a ++ b) = slept a + slept b.
Proof.
  induction a as [|ev a IH]; [reflexivity|].
  cbn [app slept]. destruct ev; rewrite IH; lia.
Qed.

Lemma waits_cons (ev : event) (t : list event) :
  waits (ev :: t) = (if is_wait ev then 1 else 0) + waits t.
Proof. unfold waits. cbn [List.filter]. now destruct (is_wait ev). Qed.

Lemma slept_cons (ev : event) (t : list event) :
  slept (ev :: t) = match ev with Sleep n => n | _ => 0 end + slept t.
Proof. now destruct ev. Qed.

Ltac count_events :=
  repeat (rewrite ?waits_app, ?slept_app, ?waits_cons, ?slept_cons);
  change (waits []) with 0; change (slept []) with 0; cbn [is_wait].

(** The loop over the selectors waits once for each selector it tries and
    never sleeps; it gives up only after it has tried them all. *)
Lemma wait_for_price_spec (driver : WebDriver) (selectors : list (By * str)) :
  forall st,
  exists found,
    snd (wait_for_price driver selectors st) = Ok found
    /\ waits (fst (wait_for_price driver selectors st)) <= List.length selectors
    /\ 1 <= waits (fst (wait_for_price driver selectors st)) + (if found then 0 else 1)
    /\ slept (fst (wait_for_price driver selectors st)) = 0
    /\ (found = false ->
        waits (fst (wait_for_price driver selectors st)) = List.length selectors)
    /\ forallb no_lookup (fst (wait_for_price driver selectors st)) = true.
Proof.
  induction selectors as [|[how selector] selectors IH]; intros st.
  - exists false. cbn. repeat split; lia.
  - cbn [wait_for_price]. rewrite bind_tell.
    destruct (presence driver how selector) as [u|e].
    + exists true. cbn. repeat split; try lia; discriminate.
    + destruct (IH (after [WaitUntil how selector] st))
        as (found & Hr & Hw & H1 & Hs & Hf & Hl).
      destruct (wait_for_price driver selectors _) as [t r]. cbn [fst snd] in *.
      exists found. subst r. cbn [fst snd app List.length]. count_events.
      repeat split; try lia; [|exact Hl]. intros E. specialize (Hf E). lia.
Qed.

(** The wait for the page, step by step. *)
Lemma wait_for_content_unfold (driver : WebDriver) (st : state) :
  wait_for_content driver st
  = match out st (past st) (Print CALCULATING) with
    | Some e => ([], Raise e)
    | None =>
        let st1 := after [Print CALCULATING] st in
        match wait_for_price driver price_selectors st1 with
        | (t, Ok true) => (Print CALCULATING :: t ++ [Sleep 2], Ok tt)
        | (t, Ok false) =>
            match out st (past st1 ++ t) (Print LOADING) with
            | Some e => (Print CALCULATING :: t, Raise e)
            | None =>
                match presence driver TAG_NAME (lit "body") with
                | Ok _ =>
                    (Print CALCULATING
                       :: t ++ [Print LOADING; WaitUntil TAG_NAME (lit "body");
                                Sleep 3; Sleep 2], Ok tt)
                | Raise e =>
                    (Print CALCULATING
                       :: t ++ [Print LOADING; WaitUntil TAG_NAME (lit "body")],
                     Raise e)
                end
            end
        | (t, Raise e) => (Print CALCULATING :: t, Raise e)
        end
    end.
Proof.
  unfold wait_for_content, print. rewrite bind_write.
  destruct (out st (past st) (Print CALCULATING)) as [e|]; [reflexivity|].
  cbv zeta. unfold bind at 1.
  destruct (wait_for_price driver price_selectors _) as [t [[|]|e]];
    [reflexivity | | reflexivity].
  unfold bind at 1. rewrite bind_write. cbn [out past after].
  destruct (out st _ (Print LOADING)) as [e|]; [cbn [app]; now rewrite app_nil_r|].
  rewrite bind_call. now destruct (presence driver TAG_NAME (lit "body")).
Qed.

End ScrapeFacts.

Import ScrapeFacts.

(** X6: every fragment [scrape_vinted_prices] returns is a trimmed text
    that is not empty, whichever rule found it, whatever the driver does and
    whatever the console does. *)
Theorem scrape_fragments_kept (driver : WebDriver) (url : str) (st : state)
        (prices : list str) :
  snd (scrape_vinted_prices driver url st) = Ok prices ->
  forallb kept prices = true.
Proof.
  intros H.
  assert (Hy : yields (fun ps => forallb kept ps = true) (fun _ _ => True)
                 (scrape_vinted_prices driver url)).
  { apply scrape_yields; [reflexivity|]. apply extract_yields; [auto|].
    pose proof (structural_search_all kept driver price_patterns kept_strip []
                  eq_refl) as Hs.
    destruct (is_empty_list _); [|exact Hs].
    apply content_search_all; [|exact Hs]. intros t Ht _. now apply kept_strip. }
  specialize (Hy st). now rewrite H in Hy.
Qed.

Lemma scrape_fragments_kept_witness :
  forallb kept [POUND :: lit "9.99"; POUND :: lit "10.00"] = true.
Proof.
  apply (scrape_fragments_kept second_rule_page typed_url at_terminal).
  vm_compute; reflexivity.
Defined.

(** X7: when the structural rules give nothing, every fragment returned
    comes from the content rule and has a pound sign in it, also when the
    rule is cut short by an exception. *)
Theorem content_fragments_have_pound (driver : WebDriver) (st : state)
        (prices : list str) :
  snd (structural_search driver price_patterns []) = [] ->
  snd (extract_prices driver st) = Ok prices ->
  forallb has_pound prices = true.
Proof.
  intros Hs H.
  assert (Hy : yields (fun ps => forallb has_pound ps = true) (fun _ _ => True)
                 (extract_prices driver)).
  { apply extract_yields; [auto|]. rewrite Hs. cbn [is_empty_list].
    apply content_search_all; [|reflexivity]. intros t _ Ht. exact Ht. }
  specialize (Hy st). now rewrite H in Hy.
Qed.

Lemma content_fragments_have_pound_witness :
  forallb has_pound [POUND :: lit "5"; lit "from " ++ POUND :: lit "7.50"] = true.
Proof.
  apply (content_fragments_have_pound blank_match_page at_terminal);
    vm_compute; reflexivity.
Defined.

(** X8: once the page has been requested and [driver.get] has returned, no
    [Exception] of the driver leaves [scrape_vinted_prices]: the failures of
    the waits and of the lookups are all handled inside.  What gets out is
    an interrupt, or the exception of a line that cannot be printed on the
    way out: the connection message, the try-again message, or the count of
    the prices. *)
Theorem scrape_raises_after_get (driver : WebDriver) (url : str) (st : state)
        (e : exn) :
  get driver url = Ok tt ->
  In (Get url) (fst (scrape_vinted_prices driver url st)) ->
  snd (scrape_vinted_prices driver url st) = Raise e ->
  is_Exception e = false
  \/ exists h m, late_scrape_message m /\ out st h (Print m) = Some e.
Proof.
  intros Hg Hin Hr.
  rewrite (scrape_unfold driver url st), Hg in Hin, Hr.
  destruct (out st (past st) (Print (LoadingPage url))) as [x|]; [destruct Hin|].
  pose proof (scrape_rest_raises driver
                (after [Get url] (after [Print (LoadingPage url)] st))) as Hy.
  destruct ((loaded <- try_except (wait_for_content driver ;;; ret true) is_Exception
                                  (fun _ => print CHECK_CONNECTION ;;; ret false) ;;
             if loaded then extract_prices driver else ret [])
              (after [Get url] (after [Print (LoadingPage url)] st)))
    as [t [ps|x]]; cbn [snd] in *; [discriminate|].
  injection Hr as <-. exact Hy.
Qed.

Lemma scrape_raises_after_get_witness :
  is_Exception BrokenPipeError = false
  \/ exists h m, late_scrape_message m /\ closing_pipe h (Print m) = Some BrokenPipeError.
Proof.
  apply (scrape_raises_after_get second_rule_page typed_url
           {| out := closing_pipe; past := [] |} BrokenPipeError);
    [reflexivity | right; left; reflexivity | vm_compute; reflexivity].
Defined.

(** The scrape on a pipe that closes while the page loads, and on a lookup
    that is interrupted: the exception of the connection message, and the
    interrupt, leave [scrape_vinted_prices]. *)
Example exceptions_that_leave_the_scrape :
  scrape_vinted_prices second_rule_page typed_url {| out := closing_pipe; past := [] |}
  = ([Print (LoadingPage typed_url); Get typed_url], Raise BrokenPipeError)
  /\ snd (scrape_vinted_prices interrupted_driver typed_url at_terminal)
     = Raise KeyboardInterrupt.
Proof. split; vm_compute; reflexivity. Qed.

(** X9: the wait for the page makes five timed waits at most and sleeps
    five seconds at most, so it takes no more than 80 seconds; it sleeps two
    or five seconds when it succeeds and not at all when it fails.  It makes
    one wait at least, unless its first line cannot be printed: then it does
    nothing. *)
Theorem wait_for_content_bounds (driver : WebDriver) (st : state) :
  (waits (fst (wait_for_content driver st)) <= 5)%nat
  /\ ((1 <= waits (fst (wait_for_content driver st)))%nat
      \/ exists e, out st (past st) (Print CALCULATING) = Some e
                   /\ wait_for_content driver st = ([], Raise e))
  /\ (waiting_time (fst (wait_for_content driver st)) <= 80)%nat
  /\ match snd (wait_for_content driver st) with
     | Ok _ => slept (fst (wait_for_content driver st)) = 2%nat
               \/ slept (fst (wait_for_content driver st)) = 5%nat
     | Raise _ => slept (fst (wait_for_content driver st)) = 0%nat
     end.
Proof.
  unfold waiting_time, WAIT_SECONDS. rewrite wait_for_content_unfold.
  destruct (out st (past st) (Print CALCULATING)) as [e|] eqn:E1.
  - cbn. repeat split; try lia. right. now exists e.
  - cbv zeta.
    destruct (wait_for_price_spec driver price_selectors (after [Print CALCULATING] st))
      as (found & Hr & Hw & H1 & Hs & Hf & _).
    change (List.length price_selectors) with 4%nat in *.
    destruct (wait_for_price driver price_selectors _) as [t r]. cbn [fst snd] in *.
    subst r. destruct found.
    + cbn [fst snd]. count_events. repeat split; lia.
    + specialize (Hf eq_refl).
      destruct (out st _ (Print LOADING)) as [e|];
        [|destruct (presence driver TAG_NAME (lit "body")) as [u|e]];
        cbn [fst snd]; count_events; repeat split; lia.
Qed.

(* ================================================================== *)
(** ** More on [main] *)
(* ================================================================== *)

Module MainFacts.
Import PyStr PyFloat Scraper Run Observe Notions ParserFacts RunFacts TraceFacts.

Lemma clean_price_none_iff (s : str) : clean_price s = None <-> has_digit s = false.
Proof.
  rewrite clean_price_token, <- has_digit_filter. split.
  - intros H. destruct (has_digit (List.filter not_pound s)) eqn:E; [|reflexivity].
    destruct (first_numeric_token_digit _ E) as [tok Ht]. rewrite Ht in H.
    discriminate.
  - intros H. now rewrite (first_numeric_token_no_digit _ H).
Qed.

Lemma clean_prices_empty (price_strings : list str) :
  is_empty_list (clean_prices price_strings)
  = negb (existsb has_digit price_strings).
Proof.
  induction price_strings as [|p ps IH]; [reflexivity|].
  cbn [clean_prices existsb].
  destruct (clean_price p) as [v|] eqn:E.
  - destruct (has_digit p) eqn:Ed; [reflexivity|].
    apply clean_price_none_iff in Ed. congruence.
  - apply clean_price_none_iff in E. now rewrite E.
Qed.

Lemma average_nonempty (p : float) (ps : list float) :
  calculate_average_price (p :: ps) = Ok (Some (mean (p :: ps))).
Proof.
  unfold calculate_average_price, truediv, mean.
  rewrite IntToFloat.of_int_nonzero by (cbn [List.length]; lia).
  reflexivity.
Qed.

Lemma after_nil (st : state) : after [] st = st.
Proof. destruct st as [o h]. unfold after. cbn. now rewrite app_nil_r. Qed.

Lemma bind_ret_unit (m : M unit) (st : state) : bind m (fun _ => ret tt) st = m st.
Proof.
  unfold bind, ret. destruct (m st) as [t [[]|e]]; [|reflexivity].
  now rewrite app_nil_r.
Qed.

Lemma bind_ext {A B : Type} (m : M A) (k k' : A -> M B) (st : state) :
  (forall a st', k a st' = k' a st') -> bind m k st = bind m k' st.
Proof.
  intros H. unfold bind. destruct (m st) as [t [a|e]]; [|reflexivity].
  now rewrite H.
Qed.

(** The [try] block of [main] after the scrape: it prints the lines of the
    outcome. *)
Lemma report_outcome (driver : WebDriver) (brand description condition url : str)
      (st : state) :
  report driver brand description condition url st
  = (price_strings <- scrape_vinted_prices driver url ;;
     prints (outcome_lines brand description condition price_strings)) st.
Proof.
  unfold report. apply bind_ext. intros prices st'. unfold outcome_lines.
  destruct (is_empty_list prices); [reflexivity|].
  rewrite clean_prices_empty.
  destruct (existsb has_digit prices) eqn:E; cbn [negb].
  - pose proof (clean_prices_empty prices) as Hc. rewrite E in Hc.
    destruct (clean_prices prices) as [|p ps]; [discriminate|].
    unfold bind at 1. rewrite average_nonempty, after_nil. cbn [app].
    match goal with |- (let (t', r) := ?m in (t', r)) = _ =>
      transitivity m; [now destruct m|] end.
    unfold results_lines. cbn [prints].
    repeat (apply bind_ext; intros).
    symmetry. apply bind_ret_unit.
  - cbn [prints]. symmetry. apply bind_ret_unit.
Qed.

(** On a console that shows every line the report prints its outcome
    whole. *)
Lemma report_shown (driver : WebDriver) (brand description condition url : str)
      (st : state) (t : list event) (price_strings : list str) :
  on_terminal st ->
  scrape_vinted_prices driver url st = (t, Ok price_strings) ->
  report driver brand description condition url st
  = (t ++ outcome brand description condition price_strings, Ok tt).
Proof.
  intros Hst Hs. rewrite report_outcome. unfold bind. rewrite Hs.
  now rewrite prints_shown by exact Hst.
Qed.

Lemma input_event_no_average (ev : event) :
  input_event ev = true -> not_no_average ev = true.
Proof.
  destruct ev as [[line| | | | | | | | |]| | | | | | | |];
    try reflexivity; try discriminate.
  unfold input_event, input_line, not_no_average. cbn [existsb is_line]. intros H.
  repeat (apply orb_true_iff in H as [H|H];
          [apply String.eqb_eq in H; subst line; reflexivity|]).
  discriminate.
Qed.

Lemma scrape_event_no_average (ev : event) :
  scrape_event ev = true -> not_no_average ev = true.
Proof.
  destruct ev as [[line| | | | | | | | |]| | | | | | | |];
    try reflexivity; try discriminate.
  unfold scrape_event, scrape_line, not_no_average. cbn [existsb is_line]. intros H.
  repeat (apply orb_true_iff in H as [H|H];
          [apply String.eqb_eq in H; subst line; reflexivity|]).
  discriminate.
Qed.

Lemma outcome_no_average (brand description condition : str) (prices : list str) :
  forallb (fun m => not_no_average (Print m))
          (outcome_lines brand description condition prices) = true.
Proof.
  unfold outcome_lines. destruct (is_empty_list prices); [reflexivity|].
  destruct (existsb has_digit prices); reflexivity.
Qed.

Lemma report_no_average (driver : WebDriver) (brand description condition url : str) :
  all_events not_no_average (report driver brand description condition url).
Proof.
  intros st. rewrite report_outcome. revert st.
  change (all_events not_no_average
            (price_strings <- scrape_vinted_prices driver url ;;
             prints (outcome_lines brand description condition price_strings))).
  apply all_bind.
  - exact (all_weaken _ _ _ scrape_event_no_average (scrape_alphabet driver url)).
  - intros prices. apply all_prints, outcome_no_average.
Qed.

Lemma main_no_average (w : world) : all_events not_no_average (main w).
Proof.
  unfold main. apply all_bind.
  - exact (all_weaken _ _ _ input_event_no_average (input_alphabet (stdin w))).
  - intros [[brand description] condition]. apply all_try_finally.
    + apply all_try_except.
      * apply all_bind.
        -- unfold setup_driver. destruct (chrome w);
             [now apply all_call | apply all_raise].
        -- intros d. apply report_no_average.
      * intros e. unfold top_handler.
        apply all_bind; [now apply all_print | intros _; now apply all_print_exc].
    + unfold finally_clause. destruct (chrome w); [|apply all_ret].
      apply all_bind; [now apply all_print | intros _].
      apply all_bind; [now apply all_print | intros _]. now apply all_call.
Qed.

(** What [main] raises. *)
Lemma yields_try_finally {A : Type} (Q : A -> Prop) (E : console -> exn -> Prop)
      (body : M A) (final : M unit) :
  yields Q E body -> yields (fun _ => True) E final ->
  yields (fun _ => True) E (try_finally body final).
Proof.
  unfold yields, try_finally. intros Hb Hf st. specialize (Hb st).
  destruct (body st) as [t r]. specialize (Hf (after t st)).
  destruct (final (after t st)) as [t' [u|e]]; cbn [snd] in *; [|exact Hf].
  destruct r; [exact I | exact Hb].
Qed.

Lemma get_user_input_raises (lines : list (result str)) :
  yields (fun _ => True)
         (fun o e => input_raises lines e \/ refused o e)
         (get_user_input lines).
Proof.
  intros st. pose proof (get_user_input_spec lines st) as H.
  destruct (get_user_input lines st) as [t [[[b d] c]|e]]; cbn [snd]; [exact I|].
  destruct H as [(read & _ & [[_ ->]|[rest ->]])|(h & m & _ & Hm)].
  - left. now right.
  - left. left. apply in_or_app. right. now left.
  - right. now exists h, (Print m).
Qed.

Lemma main_raises_cases (w : world) :
  yields (fun _ => True)
         (fun o e =>
            input_raises (stdin w) e \/ refused o e
            \/ (exists d, chrome w = Ok d /\ quit d = Raise e)
            \/ is_Exception e = false)
         (main w).
Proof.
  unfold main. apply (yields_bind (fun _ => True)).
  - apply (yields_weaken _ _ _ _ _ (get_user_input_raises (stdin w))); [auto|].
    intros o e [H|H]; tauto.
  - intros [[brand description] condition] _.
    apply (yields_try_finally (fun _ => True)).
    + apply (yields_try_except _ (fun _ _ => True)); [apply ScrapeFacts.yields_any | |].
      * intros e _. unfold top_handler.
        apply (yields_bind (fun _ => True)).
        -- apply yields_write; [exact I|]. intros o h x Hx. right. left.
           now exists h, (Print (ErrorOccurred e)).
        -- intros _ _. apply yields_write; [exact I|]. intros o h x Hx. right. left.
           now exists h, PrintExc.
      * intros o e _ He. tauto.
    + unfold finally_clause. destruct (chrome w) as [d|x]; [|now apply yields_ret].
      apply (yields_bind (fun _ => True)).
      * apply yields_write; [exact I|]. intros o h x Hx. right. left.
        now exists h, (Print THANKS).
      * intros _ _. apply (yields_bind (fun _ => True)).
        -- apply yields_write; [exact I|]. intros o h x Hx. right. left.
           now exists h, (Print SEE_YOU).
        -- intros _ _. apply yields_call. destruct (quit d) as [u|e] eqn:Eq; [exact I|].
           intros o. right. right. left. now exists d.
Qed.

Lemma no_average_in (trace : list event) :
  Forall (fun ev => not_no_average ev = true) trace ->
  reports_no_average trace = false.
Proof.
  unfold reports_no_average. induction 1 as [|ev trace Hev _ IH]; [reflexivity|].
  cbn [existsb]. rewrite IH. unfold not_no_average in Hev.
  apply negb_true_iff in Hev. now rewrite Hev.
Qed.

End MainFacts.

Import MainFacts.

(** X11: [scrape_vinted_prices] prints its own progress lines and calls
    [get], the waits, the sleeps and the lookups of the driver; it does
    nothing else: it never prompts, never prints a result, and never
    launches or quits a driver. *)
Theorem scrape_events (driver : WebDriver) (url : str) (st : state) (ev : event) :
  In ev (fst (scrape_vinted_prices driver url st)) -> scrape_event ev = true.
Proof.
  pose proof (scrape_alphabet driver url st) as H.
  rewrite Forall_forall in H. apply H.
Qed.

Lemma scrape_events_witness : scrape_event (Get typed_url) = true.
Proof.
  apply (scrape_events offline_driver typed_url at_terminal). right. left. reflexivity.
Defined.

(** X12: on a console that shows every line, when the three inputs are
    read, Chrome is launched and the scrape returns, [main] prints exactly:
    what the input and the scrape print, then the three no-prices lines when
    the scrape gave nothing, the could-not-retrieve line when no fragment
    has a digit, and otherwise the results with the mean of the parsed
    fragments as average and as suggestion; then the two lines of the
    farewell, and it quits the driver; the run ends as [driver.quit()]
    does. *)
Theorem main_outcome (w : world) (t0 : list event) (brand description condition : str)
        (driver : WebDriver) (t : list event) (price_strings : list str) :
  shows_all (stdout w) ->
  get_user_input (stdin w) (start w) = (t0, Ok (brand, description, condition)) ->
  chrome w = Ok driver ->
  scrape_vinted_prices driver (construct_search_url brand description condition)
                       (after [Acquire] (after t0 (start w)))
  = (t, Ok price_strings) ->
  run w
  = (t0 ++ Acquire :: (t ++ outcome brand description condition price_strings)
        ++ farewell,
     quit driver).
Proof.
  intros Hout Hi Hc Hs. rewrite run_unfold, Hi, Hc. cbv zeta.
  unfold try_except, bind at 1, setup_driver. rewrite Hc. unfold call at 1.
  rewrite (report_shown driver brand description condition _ _ t price_strings)
    by (exact Hout || exact Hs).
  destruct (finally_clause_spec driver
              (after ([Acquire] ++ t ++ outcome brand description condition price_strings)
                     (after t0 (start w))))
    as [->|(e & tf & _ & (h & m & _ & Hm) & _)].
  - cbn [app]. now destruct (quit driver) as [[]|e].
  - cbn [out after start] in Hm. rewrite Hout in Hm. discriminate.
Qed.

Lemma main_outcome_witness :
  run priced_world
  = (fst (get_user_input (List.map Ok typed) at_terminal)
       ++ Acquire
       :: (fst (scrape_vinted_prices second_rule_page typed_url at_terminal)
           ++ results_block (lit "Nike") (lit "Air Force 1") (lit "Very Good")
                (mean [Prim2SF 9.99; Prim2SF 10.0]))
       ++ farewell,
     Ok tt).
Proof.
  apply (main_outcome priced_world (fst (get_user_input (List.map Ok typed) at_terminal))
           (lit "Nike") (lit "Air Force 1") (lit "Very Good") second_rule_page
           (fst (scrape_vinted_prices second_rule_page typed_url at_terminal))
           [POUND :: lit "9.99"; POUND :: lit "10.00"]);
    [intros h ev | | |]; vm_compute; reflexivity.
Defined.

(** X13: no [Exception] of the launch of Chrome or of the page calls of the
    driver leaves [main].  An exception that leaves [main] was raised by
    [input], or by a write to the console, or by [driver.quit()], or it is
    no [Exception], an interrupt.  When it was raised while the inputs were
    read, no driver was launched. *)
Theorem main_raises (w : world) (e : exn) :
  (snd (run w) = Raise e ->
   input_raises (stdin w) e \/ refused (stdout w) e
   \/ (exists d, chrome w = Ok d /\ quit d = Raise e)
   \/ is_Exception e = false)
  /\ (snd (get_user_input (stdin w) (start w)) = Raise e ->
      snd (run w) = Raise e
      /\ fst (run w) = fst (get_user_input (stdin w) (start w))
      /\ acquired (fst (run w)) = false
      /\ (input_raises (stdin w) e \/ refused (stdout w) e)).
Proof.
  split.
  - intros H. pose proof (main_raises_cases w (start w)) as Hy.
    unfold run in H. now rewrite H in Hy.
  - intros H. pose proof (get_user_input_raises (stdin w) (start w)) as Hy.
    pose proof (plain_get_user_input (stdin w) (start w)) as Hp.
    rewrite run_unfold.
    destruct (get_user_input (stdin w) (start w)) as [t0 [[[b d] c]|x]];
      cbn [fst snd] in *; [discriminate|].
    injection H as ->. repeat split; [now apply plain_no_acquire | exact Hy].
Qed.

Lemma main_raises_witness :
  snd (run undecodable_world) = Raise UnicodeDecodeError
  /\ fst (run undecodable_world)
     = fst (get_user_input (stdin undecodable_world) (start undecodable_world))
  /\ acquired (fst (run undecodable_world)) = false
  /\ (input_raises (stdin undecodable_world) UnicodeDecodeError
      \/ refused (stdout undecodable_world) UnicodeDecodeError).
Proof.
  apply (proj2 (main_raises undecodable_world UnicodeDecodeError)).
  vm_compute; reflexivity.
Defined.

(** The exceptions that leave [main]: the end of the input, a line that
    cannot be decoded, a pipe that closes, a console without pictographs,
    and an interrupt. *)
Example exceptions_that_leave_main :
  snd (run silent_world) = Raise EOFError
  /\ snd (run undecodable_world) = Raise UnicodeDecodeError
  /\ snd (run broken_pipe_world) = Raise BrokenPipeError
  /\ snd (run legacy_world) = Raise UnicodeEncodeError
  /\ snd (run interrupted_world) = Raise KeyboardInterrupt.
Proof. repeat split; vm_compute; reflexivity. Qed.

(** X14: [main] never prints that the average could not be calculated: the
    average is only asked of a list that is not empty, which always has
    one. *)
Theorem main_never_without_average (w : world) :
  reports_no_average (fst (run w)) = false.
Proof. apply no_average_in. exact (main_no_average w (start w)). Qed.

(** X15: the parsed prices are the parses of the fragments that have a
    digit, in the order of the fragments; the others are dropped. *)
Theorem clean_prices_of_digit_fragments (price_strings : list str) :
  List.map Some (clean_prices price_strings)
  = List.map clean_price (List.filter has_digit price_strings).
Proof.
  induction price_strings as [|p ps IH]; [reflexivity|].
  cbn [clean_prices List.filter].
  destruct (clean_price p) as [v|] eqn:E.
  - destruct (has_digit p) eqn:Ed.
    + cbn [List.map]. now rewrite E, IH.
    + apply clean_price_none_iff in Ed. congruence.
  - apply clean_price_none_iff in E. now rewrite E.
Qed.

(* ================================================================== *)
(** ** More on the search address *)
(* ================================================================== *)

Module UrlFacts.
Import PyStr PyStrFacts Scraper Observe Notions ParserFacts.

(** A text that is not empty and has no white space at its ends. *)
Lemma trimmed_ends (s : str) :
  s <> [] -> surrounding_space s = false ->
  exists first middle last,
    isspace first = false /\ isspace last = false
    /\ (s = [first] /\ first = last \/ s = first :: middle ++ [last]).
Proof.
  intros Hne Hs. unfold surrounding_space in Hs.
  destruct s as [|a r]; [contradiction|].
  destruct (rev (a :: r)) as [|z t] eqn:Er.
  - apply (f_equal (@List.length char)) in Er. rewrite length_rev in Er. discriminate.
  - apply orb_false_iff in Hs as [Ha Hz].
    apply (f_equal (@rev char)) in Er. rewrite rev_involutive in Er. cbn [rev] in Er.
    destruct (rev t) as [|a' m] eqn:Et; cbn [app] in Er;
      injection Er as E1 E2; subst.
    + exists z, [], z. auto.
    + exists a', m, z. auto.
Qed.

(** Trimming a text that ends with a trimmed one keeps that one whole. *)
Lemma strip_before_trimmed (x c : str) :
  c <> [] -> surrounding_space c = false -> strip (x ++ c) = lstrip x ++ c.
Proof.
  intros Hne Hs.
  destruct (trimmed_ends c Hne Hs) as (a & m & z & Ha & Hz & Hc).
  assert (Hlast : exists c', c = c' ++ [z]).
  { destruct Hc as [[-> E]| ->]; [subst; now exists [] | now exists (a :: m)]. }
  assert (Hhead : match c with [] => True | h :: _ => isspace h = false end).
  { destruct Hc as [[-> _]| ->]; exact Ha. }
  unfold strip, trim, lstrip, trim_left.
  destruct (takewhile_app_end isspace x c Hhead) as [_ ->].
  destruct Hlast as [c' ->]. rewrite app_assoc. now apply trim_right_keep.
Qed.

Lemma url_condition_end (brand description condition : str) :
  condition <> [] -> surrounding_space condition = false ->
  construct_search_url brand description condition
  = BASE_URL ++ lit "?search_text="
    ++ List.map plus_for_space (lstrip (brand ++ [SPACE] ++ description ++ [SPACE]))
    ++ List.map plus_for_space condition.
Proof.
  intros Hne Hs. unfold construct_search_url.
  rewrite substitute_char.
  change (fun c : char => if c =? SPACE then PLUS else c) with plus_for_space.
  replace (brand ++ [SPACE] ++ description ++ [SPACE] ++ condition)
    with ((brand ++ [SPACE] ++ description ++ [SPACE]) ++ condition)
    by (now rewrite <- !app_assoc).
  rewrite strip_before_trimmed by assumption. now rewrite List.map_app.
Qed.

(** A text of white space is trimmed to nothing. *)
Lemma strip_spaces (ws : str) : forallb isspace ws = true -> strip ws = [].
Proof.
  intros H. unfold strip, trim, trim_left.
  assert (Hall : Forall (fun c => isspace c = true) ws)
    by (apply Forall_forall; rewrite forallb_forall in H; exact H).
  destruct (takewhile_app_stop isspace ws [] Hall I) as [_ Hd].
  rewrite app_nil_r in Hd. now rewrite Hd.
Qed.

(** Trimming takes the white space around a text away and leaves the text,
    when the text itself has none at its ends. *)
Lemma strip_framed (pre terms post : str) :
  forallb isspace pre = true -> forallb isspace post = true ->
  surrounding_space terms = false ->
  strip (pre ++ terms ++ post) = terms.
Proof.
  intros Hpre Hpost Hs.
  destruct terms as [|a r].
  - cbn [app]. apply strip_spaces. rewrite forallb_app, Hpre, Hpost. reflexivity.
  - destruct (trimmed_ends (a :: r) ltac:(discriminate) Hs)
      as (f & m & z & Hf & Hz & Hshape).
    assert (Hfirst : isspace a = false)
      by (destruct Hshape as [[E _]|E]; injection E as -> _; exact Hf).
    assert (Hlast : exists t, a :: r = t ++ [z]).
    { destruct Hshape as [[-> E]| ->]; [subst; now exists [] | now exists (f :: m)]. }
    assert (Ha : Forall (fun c => isspace c = true) pre)
      by (apply Forall_forall; rewrite forallb_forall in Hpre; exact Hpre).
    assert (Hb : Forall (fun c => isspace c = true) (rev post)).
    { apply Forall_forall. intros c Hc. apply in_rev in Hc.
      rewrite forallb_forall in Hpost. auto. }
    unfold strip, trim, trim_left.
    destruct (takewhile_app_stop isspace pre ((a :: r) ++ post) Ha Hfirst) as [_ ->].
    destruct Hlast as [t Ht]. rewrite Ht. unfold trim_right.
    rewrite rev_app_distr.
    destruct (takewhile_app_stop isspace (rev post) (rev (t ++ [z])) Hb) as [_ ->].
    + rewrite rev_app_distr. exact Hz.
    + apply rev_involutive.
Qed.

(** What is trimmed away is white space. *)
Lemma strip_frame (s : str) :
  exists pre post,
    s = pre ++ strip s ++ post
    /\ forallb isspace pre = true /\ forallb isspace post = true.
Proof.
  destruct (trim_left_split isspace s) as (pre & Hs & Hpre).
  destruct (trim_right_split isspace (trim_left isspace s)) as (post & Hs' & Hpost).
  exists pre, post. split; [|split].
  - unfold strip, trim. now rewrite <- Hs'.
  - apply forallb_forall. rewrite Forall_forall in Hpre. exact Hpre.
  - apply forallb_forall. rewrite Forall_forall in Hpost. exact Hpost.
Qed.

End UrlFacts.

Import UrlFacts.

(** C6: the address is the base endpoint, [?search_text=], and the search
    terms with every space turned into a plus sign and every other character
    kept as it is.  The search terms are the three parts joined by single
    spaces, trimmed: the joined text is white space, the terms, white space,
    and the terms have no white space at either end; there is one such text
    only.  No space is left in the address.  With an empty brand and an
    empty description the two joining spaces are trimmed away. *)
Theorem construct_search_url_shape (brand description condition : str) :
  let joined := brand ++ [SPACE] ++ description ++ [SPACE] ++ condition in
  construct_search_url brand description condition
  = BASE_URL ++ lit "?search_text="
    ++ List.map (fun c => if c =? SPACE then PLUS else c) (strip joined)
  /\ (exists pre terms post,
        joined = pre ++ terms ++ post
        /\ forallb isspace pre = true /\ forallb isspace post = true
        /\ surrounding_space terms = false
        /\ construct_search_url brand description condition
           = BASE_URL ++ lit "?search_text=" ++ List.map plus_for_space terms)
  /\ (forall pre terms post,
        joined = pre ++ terms ++ post ->
        forallb isspace pre = true -> forallb isspace post = true ->
        surrounding_space terms = false ->
        construct_search_url brand description condition
        = BASE_URL ++ lit "?search_text=" ++ List.map plus_for_space terms)
  /\ ~ In SPACE (construct_search_url brand description condition)
  /\ construct_search_url [] [] (lit "Good")
     = lit "https://www.vinted.co.uk/catalog?search_text=Good"
  /\ construct_search_url (lit " Nike") (lit "Air  Force 1") (lit "Very Good ")
     = lit "https://www.vinted.co.uk/catalog?search_text=Nike+Air++Force+1+Very+Good".
Proof.
  intros joined.
  assert (Hurl : construct_search_url brand description condition
                 = BASE_URL ++ lit "?search_text="
                   ++ List.map plus_for_space (strip joined)).
  { unfold construct_search_url. now rewrite substitute_char. }
  split; [exact Hurl|]. split; [|split; [|split; [|split; vm_compute; reflexivity]]].
  - destruct (strip_frame joined) as (pre & post & Hj & Hpre & Hpost).
    exists pre, (strip joined), post. repeat split; try assumption.
    apply InputFacts.strip_no_surrounding_space.
  - intros pre terms post Hj Hpre Hpost Hs.
    rewrite Hurl, Hj, strip_framed by assumption. reflexivity.
  - rewrite Hurl, app_assoc. intros H. apply in_app_or in H as [H|H].
    + exact (url_prefix_no_space H).
    + apply in_map_iff in H as (c & Hc & _). unfold plus_for_space in Hc.
      destruct (c =? SPACE) eqn:E; [discriminate|].
      apply N.eqb_neq in E. congruence.
Qed.

Lemma construct_search_url_shape_witness :
  construct_search_url [] [] (lit "Good")
  = BASE_URL ++ lit "?search_text=" ++ List.map plus_for_space (lit "Good").
Proof.
  apply (proj1 (proj2 (proj2 (construct_search_url_shape [] [] (lit "Good"))))
               (lit "  ") (lit "Good") []); reflexivity.
Defined.

(** X16: whatever the brand and the description are, the query of the
    address ends with the condition, its spaces turned into plus signs:
    trimming never reaches into a condition that is not empty and has no
    white space at its ends, as the five labels of the menu. *)
Theorem construct_search_url_keeps_condition (brand description condition : str) :
  condition <> [] -> surrounding_space condition = false ->
  construct_search_url brand description condition
  = BASE_URL ++ lit "?search_text="
    ++ List.map plus_for_space (lstrip (brand ++ [SPACE] ++ description ++ [SPACE]))
    ++ List.map plus_for_space condition.
Proof. apply url_condition_end. Qed.

Lemma construct_search_url_keeps_condition_witness :
  construct_search_url [] [] (lit "Very Good")
  = BASE_URL ++ lit "?search_text="
    ++ List.map plus_for_space (lstrip ([] ++ [SPACE] ++ [] ++ [SPACE]))
    ++ List.map plus_for_space (lit "Very Good").
Proof.
  apply (construct_search_url_keeps_condition [] [] (lit "Very Good"));
    [discriminate | reflexivity].
Defined.

(** X17: with a brand and a condition that are not empty and have no white
    space at their ends, nothing is trimmed: the query is the three parts
    joined by plus signs, with every space inside them turned into a plus
    sign too; an empty description leaves two plus signs in a row. *)
Theorem construct_search_url_trimmed_parts (brand description condition : str) :
  brand <> [] -> surrounding_space brand = false ->
  condition <> [] -> surrounding_space condition = false ->
  construct_search_url brand description condition
  = BASE_URL ++ lit "?search_text="
    ++ List.map plus_for_space brand ++ [PLUS]
    ++ List.map plus_for_space description ++ [PLUS]
    ++ List.map plus_for_space condition.
Proof.
  intros Hb Hbs Hc Hcs.
  rewrite url_condition_end by assumption.
  destruct (trimmed_ends brand Hb Hbs) as (a & m & z & Ha & _ & Hbrand).
  assert (Hl : lstrip (brand ++ [SPACE] ++ description ++ [SPACE])
               = brand ++ [SPACE] ++ description ++ [SPACE]).
  { destruct Hbrand as [[-> _]| ->]; now apply trim_left_keep. }
  rewrite Hl, !List.map_app, <- !app_assoc. reflexivity.
Qed.

Lemma construct_search_url_trimmed_parts_witness :
  construct_search_url (lit "Nike") [] (lit "Very Good")
  = BASE_URL ++ lit "?search_text=" ++ lit "Nike++Very+Good".
Proof.
  apply (construct_search_url_trimmed_parts (lit "Nike") [] (lit "Very Good"));
    (discriminate || reflexivity).
Defined.

(* ================================================================== *)
(** ** Floats: integers that are exact, and averages that are not negative *)
(* ================================================================== *)

Module FloatExact.
Import PyFloat PyFloatFacts IntToFloat Scraper Notions.

Local Open Scope Z_scope.

Lemma iter_xO_digits (p k : positive) :
  digits2_pos (Pos.iter xO p k) = (digits2_pos p + k)%positive.
Proof.
  induction k as [|k IH] using Pos.peano_ind.
  - cbn. now rewrite Pos.add_1_r.
  - rewrite Pos.iter_succ. cbn [digits2_pos]. rewrite IH. lia.
Qed.

Lemma iter_xO_value (p k : positive) :
  Z.pos (Pos.iter xO p k) = Z.pos p * 2 ^ Z.pos k.
Proof.
  induction k as [|k IH] using Pos.peano_ind.
  - cbn. lia.
  - rewrite Pos.iter_succ, Pos2Z.inj_xO, IH, Pos2Z.inj_succ, Z.pow_succ_r by lia.
    lia.
Qed.

(** A mantissa that already has the exponent of the format is kept. *)
Lemma binary_round_aux_exact (s : bool) (m : positive) (e : Z) :
  fexp prec emax (Z.pos (digits2_pos m) + e) = e -> e <= 971 ->
  binary_round_aux prec emax s (Z.pos m) e loc_Exact = S754_finite s m e.
Proof.
  intros Hf He. unfold binary_round_aux, shr_fexp. cbn [Zdigits2 shr_record_of_loc].
  rewrite Hf, Z.sub_diag. cbn [shr shr_m loc_of_shr_record round_nearest_even].
  cbn [Zdigits2 shr_record_of_loc]. rewrite Hf, Z.sub_diag. cbn [shr shr_m].
  replace (e <=? emax - prec) with true; [reflexivity|].
  symmetry. apply Z.leb_le. unfold emax, prec. lia.
Qed.

(** The float of a positive [int] of 53 bits at most is that integer. *)
Lemma of_int_exact (p : positive) :
  Z.pos (digits2_pos p) <= 53 ->
  exists m e,
    of_int (Z.pos p) = S754_finite false m e
    /\ e <= 0 /\ Z.pos m = Z.pos p * 2 ^ (- e).
Proof.
  intros Hd. unfold of_int, binary_normalize, binary_round, shl_align.
  set (d := Z.pos (digits2_pos p)) in *.
  assert (Hf : fexp prec emax (d + 0) = d - 53)
    by (unfold fexp, emin, prec, emax; subst d; lia).
  rewrite Hf. destruct (d - 53 - 0) as [|k|k] eqn:Ek; try lia.
  - exists p, 0. rewrite binary_round_aux_exact; try lia.
    + repeat split; try lia.
    + fold d. unfold fexp, emin, prec, emax. lia.
  - exists (Pos.iter xO p k), (d - 53).
    rewrite binary_round_aux_exact; try lia.
    + repeat split; try lia. rewrite iter_xO_value. f_equal. f_equal. lia.
    + rewrite iter_xO_digits, Pos2Z.inj_add. fold d.
      unfold fexp, emin, prec, emax. lia.
Qed.

Lemma digits_of_small (p : positive) : Z.pos p < 2 ^ 53 -> Z.pos (digits2_pos p) <= 53.
Proof.
  intros H. pose proof (digits2_pos_bounds p) as [Hl _].
  assert (Hlt : 2 ^ (Z.pos (digits2_pos p) - 1) < 2 ^ 53) by lia.
  apply Z.pow_lt_mono_r_iff in Hlt; lia.
Qed.

Lemma integer_value_exact (m : positive) (e n : Z) :
  e <= 0 -> Z.pos m = n * 2 ^ (- e) ->
  integer_value (S754_finite false m e) = Some n.
Proof.
  intros He Hm. unfold integer_value.
  assert (Hp : 0 < 2 ^ (- e)) by (apply Z.pow_pos_nonneg; lia).
  destruct (0 <=? e) eqn:E.
  - apply Z.leb_le in E. assert (e = 0) by lia. subst e.
    cbn in *. f_equal. lia.
  - rewrite Hm, Z.mod_mul, Z.div_mul by lia. reflexivity.
Qed.

(** *** Sums and quotients of floats that are not negative *)

Lemma nonneg_cases (x : float) :
  nonneg x = true ->
  (exists s, x = S754_zero s) \/ x = S754_infinity false
  \/ exists m e, x = S754_finite false m e.
Proof.
  destruct x as [s|[|]| |[|] m e]; try discriminate; eauto.
Qed.

Lemma add_nonneg (x y : float) :
  nonneg x = true -> nonneg y = true -> nonneg (add x y) = true.
Proof.
  intros Hx Hy.
  destruct (nonneg_cases x Hx) as [[sx ->]|[->|(mx & ex & ->)]];
    destruct (nonneg_cases y Hy) as [[sy ->]|[->|(my & ey & ->)]];
    try reflexivity.
  - now destruct sx, sy.
  - unfold add, SFadd. unfold cond_Zopp.
    destruct (shl_align mx ex (Z.min ex ey)) as [m1 e1].
    destruct (shl_align my ey (Z.min ex ey)) as [m2 e2]. cbn [fst].
    change (Z.pos m1 + Z.pos m2) with (Z.pos (m1 + m2)).
    unfold binary_normalize, binary_round.
    destruct (shl_align (m1 + m2) (Z.min ex ey) _) as [mz ez].
    apply binary_round_aux_nonneg. lia.
Qed.

Lemma py_sum_nonneg (prices : list float) :
  forallb nonneg prices = true -> nonneg (py_sum prices) = true.
Proof.
  unfold py_sum. assert (H0 : nonneg zero = true) by reflexivity.
  revert H0. generalize zero.
  induction prices as [|p ps IH]; intros acc Hacc H; [exact Hacc|].
  cbn [forallb fold_left] in *. apply andb_true_iff in H as [Hp Hps].
  apply IH; [now apply add_nonneg | exact Hps].
Qed.

Lemma div_nonneg (x : float) (m : positive) (e : Z) :
  nonneg x = true -> nonneg (div x (S754_finite false m e)) = true.
Proof.
  intros Hx.
  destruct (nonneg_cases x Hx) as [[sx ->]|[->|(mx & ex & ->)]]; try reflexivity.
  unfold div, SFdiv, SFdiv_core_binary.
  set (m' := match _ with Z.pos _ => _ | 0 => _ | Z.neg _ => _ end).
  assert (Hm' : 0 <= m').
  { subst m'. destruct (_ - _ - _) as [|s|s]; try lia.
    rewrite Z.shiftl_mul_pow2 by lia.
    apply Z.mul_nonneg_nonneg; [lia | apply Z.pow_nonneg; lia]. }
  pose proof (Z.div_pos m' (Z.pos m) Hm' ltac:(lia)) as Hq.
  unfold Z.div in Hq.
  destruct (Z.div_eucl m' (Z.pos m)) as [q r]. simpl xorb.
  now apply binary_round_aux_nonneg.
Qed.

Lemma clean_prices_nonneg (price_strings : list str) :
  forallb nonneg (Run.clean_prices price_strings) = true.
Proof.
  induction price_strings as [|p ps IH]; [reflexivity|].
  cbn [Run.clean_prices].
  destruct (clean_price p) as [v|] eqn:E; [|exact IH].
  cbn [forallb]. rewrite IH, andb_true_r.
  rewrite ParserFacts.clean_price_token in E.
  destruct (Spec.first_numeric_token _) as [tok|]; [|discriminate].
  injection E as <-. apply token_value_nonneg.
Qed.

End FloatExact.

Import FloatExact.

Lemma token_value_whole (ds : str) :
  forallb isdecimal ds = true ->
  (Spec.number_of ds < 2 ^ 53)%N ->
  integer_value (Spec.token_value ds) = Some (Z.of_N (Spec.number_of ds)).
Proof.
  intros Hds Hn.
  assert (Hall : Forall Spec.decimal ds)
    by (apply Forall_forall; intros c Hc; rewrite forallb_forall in Hds;
        exact (Hds c Hc)).
  pose proof (token_value_digits ds [] false Hall (Forall_nil _)) as Ht.
  cbv zeta in Ht. rewrite !app_nil_r in Ht. rewrite Ht. cbn [List.length Z.of_nat Z.opp].
  unfold of_decimal. destruct (Spec.number_of ds) as [|p]; [reflexivity|].
  cbn [Z.leb Z.compare cond_Zopp]. rewrite Z.pow_0_r, Z.mul_1_r.
  destruct (of_int_exact p) as (m & e & He & Hle & Hm).
  { apply digits_of_small. change (2 ^ 53)%Z with (Z.of_N (2 ^ 53)). lia. }
  unfold of_int in He. rewrite He. now apply integer_value_exact.
Qed.

(** X18: a whole number of 53 bits at most is parsed exactly, whatever text
    without a digit stands before it and whatever follows it after a
    character that is no digit, no point and no pound sign. *)
Theorem clean_price_whole_number (pre ds post : str) :
  has_digit pre = false ->
  ds <> [] -> forallb isdecimal ds = true ->
  (Spec.number_of ds < 2 ^ 53)%N ->
  match post with
  | [] => True
  | sep :: _ => token_char sep = false /\ not_pound sep = true
  end ->
  exists v,
    clean_price (pre ++ ds ++ post) = Some v
    /\ integer_value v = Some (Z.of_N (Spec.number_of ds)).
Proof.
  intros Hpre Hne Hds Hn Hpost. exists (Spec.token_value ds).
  split; [|now apply token_value_whole].
  rewrite clean_price_token, !filter_app, (filter_digits ds Hds).
  rewrite first_numeric_token_skip by now rewrite has_digit_filter.
  destruct ds as [|c ds]; [contradiction|].
  pose proof Hds as Hc. cbn [forallb] in Hc. apply andb_true_iff in Hc as [Hc _].
  cbn [app Spec.first_numeric_token]. rewrite Hc.
  change (c :: ds ++ List.filter not_pound post)
    with ((c :: ds) ++ List.filter not_pound post).
  rewrite numeric_token_at_digits; [reflexivity | assumption |].
  destruct post as [|sep post]; [exact I|]. destruct Hpost as [Ht Hp].
  cbn [List.filter]. now rewrite Hp.
Qed.

Lemma clean_price_whole_number_witness :
  exists v,
    clean_price ((lit "Price: " ++ [POUND]) ++ lit "1200" ++ lit " each") = Some v
    /\ integer_value v = Some (Z.of_N (Spec.number_of (lit "1200"))).
Proof.
  apply (clean_price_whole_number (lit "Price: " ++ [POUND]) (lit "1200") (lit " each"));
    try (vm_compute; reflexivity); [discriminate | split; reflexivity].
Defined.

(** X19: the average of prices that are not negative, fewer than 2^53 of
    them, is a float that is not negative: it is never a NaN, and the
    division never fails. *)
Theorem average_nonneg (prices : list float) :
  prices <> [] -> forallb nonneg prices = true ->
  (Z.of_nat (List.length prices) < 2 ^ 53)%Z ->
  exists avg,
    calculate_average_price prices = Ok (Some avg) /\ nonneg avg = true.
Proof.
  intros Hne Hp Hlen. destruct prices as [|p ps]; [contradiction|].
  exists (mean (p :: ps)). split; [apply average_nonempty|].
  unfold mean.
  destruct (Z.of_nat (List.length (p :: ps))) as [|n|n] eqn:En;
    [discriminate | | lia].
  destruct (of_int_exact n (digits_of_small n Hlen)) as (m & e & -> & _).
  apply div_nonneg. now apply py_sum_nonneg.
Qed.

Lemma average_nonneg_witness :
  exists avg,
    calculate_average_price [Prim2SF 9.99; Prim2SF 10.0] = Ok (Some avg)
    /\ nonneg avg = true.
Proof.
  apply (average_nonneg [Prim2SF 9.99; Prim2SF 10.0]);
    [discriminate | reflexivity | reflexivity].
Defined.

(** The wait prints, waits and sleeps; it looks nothing up. *)
Lemma wait_without_lookup_loop (driver : WebDriver) (selectors : list (By * str)) :
  all_events no_lookup (wait_for_price driver selectors).
Proof.
  induction selectors as [|[how selector] selectors IH];
    cbn [wait_for_price]; RunFacts.alphabet.
Qed.

Lemma wait_without_lookup (driver : WebDriver) :
  all_events no_lookup (wait_for_content driver).
Proof.
  unfold wait_for_content.
  apply all_bind; [now apply all_print | intros _].
  apply all_bind; [apply wait_without_lookup_loop | intros found].
  apply all_bind; [|intros _; now apply all_tell].
  destruct found; [apply all_ret|].
  apply all_bind; [now apply all_print | intros _].
  apply all_bind; [now apply all_call | intros _].
  now apply all_tell.
Qed.

(** A wait that fails after the page was requested is recovered in
    [scrape_vinted_prices]: the connection message is printed and the empty
    list returned; when the message cannot be printed, its exception leaves
    the function. *)
Lemma wait_failure_recovered (driver : WebDriver) (url : str) (st : state) (e : exn) :
  let st1 := after [Get url] (after [Print (LoadingPage url)] st) in
  get driver url = Ok tt ->
  out st (past st) (Print (LoadingPage url)) = None ->
  snd (wait_for_content driver st1) = Raise e ->
  is_Exception e = true ->
  scrape_vinted_prices driver url st
  = match out st (past st1 ++ fst (wait_for_content driver st1))
              (Print CHECK_CONNECTION) with
    | None =>
        ([Print (LoadingPage url); Get url] ++ fst (wait_for_content driver st1)
           ++ [Print CHECK_CONNECTION], Ok [])
    | Some e' =>
        ([Print (LoadingPage url); Get url] ++ fst (wait_for_content driver st1),
         Raise e')
    end.
Proof.
  intros st1 Hg Ho Hw He. rewrite scrape_unfold, Ho, Hg. fold st1.
  unfold bind at 1, try_except, bind at 1.
  destruct (wait_for_content driver st1) as [t r]. cbn [fst snd] in *.
  subst r. rewrite He. unfold print. rewrite bind_write.
  change (out (after t st1)) with (out st).
  change (past (after t st1)) with (past st1 ++ t).
  destruct (out st (past st1 ++ t) (Print CHECK_CONNECTION)) as [e'|].
  - cbn [app]. now rewrite app_nil_r.
  - cbn [ret app]. now rewrite !app_nil_r.
Qed.

(** X10: when the page was requested and the wait for it fails with an
    [Exception], [scrape_vinted_prices] looks no element up; it prints the
    connection message and returns the empty list, or, when the console
    refuses that message, ends with the exception of the message. *)
Theorem wait_failure_skips_lookups (driver : WebDriver) (url : str) (st : state)
        (e : exn) :
  get driver url = Ok tt ->
  In (Get url) (fst (scrape_vinted_prices driver url st)) ->
  snd (wait_for_content driver
         (after [Get url] (after [Print (LoadingPage url)] st))) = Raise e ->
  is_Exception e = true ->
  forallb no_lookup (fst (scrape_vinted_prices driver url st)) = true
  /\ (snd (scrape_vinted_prices driver url st) = Ok []
      /\ In (Print CHECK_CONNECTION) (fst (scrape_vinted_prices driver url st))
      \/ exists e',
           refuses (out st) [CHECK_CONNECTION] e'
           /\ snd (scrape_vinted_prices driver url st) = Raise e').
Proof.
  intros Hg Hin Hw He.
  assert (Ho : out st (past st) (Print (LoadingPage url)) = None).
  { rewrite scrape_unfold in Hin.
    destruct (out st (past st) (Print (LoadingPage url))); [destruct Hin | reflexivity]. }
  rewrite (wait_failure_recovered driver url st e Hg Ho Hw He).
  pose proof (wait_without_lookup driver
                (after [Get url] (after [Print (LoadingPage url)] st))) as Hl.
  assert (Hl' : forallb no_lookup
                  (fst (wait_for_content driver
                          (after [Get url] (after [Print (LoadingPage url)] st))))
                = true)
    by (apply forallb_forall; rewrite Forall_forall in Hl; exact Hl).
  match goal with |- context [out st ?h (Print CHECK_CONNECTION)] =>
    destruct (out st h (Print CHECK_CONNECTION)) as [e'|] eqn:Ec end;
    cbn [fst snd].
  - split.
    + rewrite forallb_app, Hl'. reflexivity.
    + right. exists e'. split; [|reflexivity].
      eexists _, CHECK_CONNECTION. split; [now left | exact Ec].
  - split.
    + rewrite !forallb_app, Hl'. reflexivity.
    + left. split; [reflexivity|]. apply in_or_app. right.
      apply in_or_app. right. now left.
Qed.

Lemma wait_failure_skips_lookups_witness :
  forallb no_lookup (fst (scrape_vinted_prices stalled_driver typed_url at_terminal))
  = true
  /\ (snd (scrape_vinted_prices stalled_driver typed_url at_terminal) = Ok []
      /\ In (Print CHECK_CONNECTION)
            (fst (scrape_vinted_prices stalled_driver typed_url at_terminal))
      \/ exists e',
           refuses (out at_terminal) [CHECK_CONNECTION] e'
           /\ snd (scrape_vinted_prices stalled_driver typed_url at_terminal)
              = Raise e').
Proof.
  apply (wait_failure_skips_lookups stalled_driver typed_url at_terminal
           TimeoutException);
    [reflexivity | right; left; reflexivity | reflexivity | reflexivity].
Defined.
